(** * Itinerary generator: the text-to-schema normalization pipeline

    A shallow embedding of the three utilities of [app.py] that turn the
    text returned by the generative model into the fixed day-by-day schema
    of the PDF template:

    - [extract_json_block]        (app.py, lines 94-132)
    - [parse_extra_sections]      (app.py, lines 134-156)
    - [normalize_daywise_schema]  (app.py, lines 197-303)

    and of what surrounds them: [ensure_local_images] (lines 158-194),
    which makes the catalog of places, and the statements of
    [get_regions] and [get_filtered_data] (lines 59-91).

    Modelling conventions.

    - A Python [str] is a [string]; a character is a code point below
      U+0100, so [str.isspace], [str.lower] and the [re.I] comparison are
      the Latin-1 restrictions of the Python ones.
    - Decoded JSON is the inductive type [json].  A [dict] is an
      association list in insertion order, looked up from the front; the
      keys of a decoded object are distinct, which no proof relies on.  A
      [float] is carried by its [repr] text: the code only tests floats
      for truth and formats them.
    - A raised exception is the [Raise] branch of [result]; short-circuit
      [or] and the conditional expression evaluate their operands only
      when Python does.
    - [dict.setdefault] mutates in place; the embedding threads the
      updated dict.  Decoded JSON is a tree, so no other reference
      observes the update.
    - The file system, the network and the database are parameters: a
      state that is passed along, and functions that answer for them. *)

From Stdlib Require Import String Ascii List ZArith Lia Bool DecimalString.
Import ListNotations.
Open Scope string_scope.
Open Scope Z_scope.

(* ================================================================= *)
(** ** Exceptions *)

Inductive exn : Type :=
| ValueError (msg : string)
| AttributeError (type_name attr : string).

Inductive result (A : Type) : Type :=
| Ok (a : A)
| Raise (e : exn).
Arguments Ok {A} a.
Arguments Raise {A} e.

Definition bind {A B : Type} (m : result A) (f : A -> result B) : result B :=
  match m with
  | Ok a => f a
  | Raise e => Raise e
  end.

Notation "x <- m ;; k" := (bind m (fun x => k))
  (at level 61, m at next level, right associativity).

(* ================================================================= *)
(** ** Python [str] *)

Module Str.

Definition code (c : ascii) : nat := nat_of_ascii c.

Definition dquote : ascii := "034"%char.
Definition newline : ascii := "010"%char.
Definition backslash : ascii := "092"%char.
Definition lbrace : ascii := "{"%char.
Definition rbrace : ascii := "}"%char.
Definition backtick : ascii := "`"%char.
Definition star : ascii := "*"%char.

Definition between (lo hi n : nat) : bool :=
  (Nat.leb lo n && Nat.leb n hi)%bool.

(** [str.isspace] on one character: U+0009..U+000D, U+001C..U+001F,
    U+0020, U+0085 and U+00A0. *)
Definition isspace (c : ascii) : bool :=
  let n := code c in
  (between 9 13 n || between 28 32 n || Nat.eqb n 133 || Nat.eqb n 160)%bool.

(** [str.lower] on one character: A-Z, and the Latin-1 capitals
    U+00C0..U+00DE except the multiplication sign U+00D7. *)
Definition lower_char (c : ascii) : ascii :=
  let n := code c in
  if (between 65 90 n || between 192 214 n || between 216 222 n)%bool
  then ascii_of_nat (n + 32) else c.

Fixpoint lower (s : string) : string :=
  match s with
  | EmptyString => EmptyString
  | String c s' => String (lower_char c) (lower s')
  end.

Fixpoint lstrip (s : string) : string :=
  match s with
  | EmptyString => EmptyString
  | String c s' => if isspace c then lstrip s' else s
  end.

Fixpoint rstrip (s : string) : string :=
  match s with
  | EmptyString => EmptyString
  | String c s' =>
      match rstrip s' with
      | EmptyString => if isspace c then EmptyString else String c EmptyString
      | r => String c r
      end
  end.

(** [s.strip()] *)
Definition strip (s : string) : string := rstrip (lstrip s).

(** [s.replace(c, "")] for a one-character [c] *)
Fixpoint remove_char (x : ascii) (s : string) : string :=
  match s with
  | EmptyString => EmptyString
  | String c s' =>
      if Ascii.eqb c x then remove_char x s' else String c (remove_char x s')
  end.

(** [s.startswith(p)] *)
Fixpoint prefix (p s : string) : bool :=
  match p, s with
  | EmptyString, _ => true
  | String a p', String b s' => (Ascii.eqb a b && prefix p' s')%bool
  | String _ _, EmptyString => false
  end.

(** [a in b] *)
Fixpoint contains (needle hay : string) : bool :=
  (prefix needle hay ||
   match hay with
   | EmptyString => false
   | String _ hay' => contains needle hay'
   end)%bool.

(** [s.find(c)] for a one-character [c]; [None] stands for [-1]. *)
Fixpoint find_char (x : ascii) (s : string) : option nat :=
  match s with
  | EmptyString => None
  | String c s' =>
      if Ascii.eqb c x then Some O else option_map S (find_char x s')
  end.

(** [s[n:]] *)
Fixpoint drop (n : nat) (s : string) : string :=
  match n, s with
  | O, _ => s
  | S n', String _ s' => drop n' s'
  | S _, EmptyString => EmptyString
  end.

(** [s[:n]] *)
Fixpoint take (n : nat) (s : string) : string :=
  match n, s with
  | S n', String c s' => String c (take n' s')
  | _, _ => EmptyString
  end.

(** [s[a:b]] for [0 <= a] and [0 <= b] *)
Definition slice (a b : nat) (s : string) : string :=
  String.substring a (b - a) s.

(** [bool(s)] *)
Definition nonempty (s : string) : bool :=
  match s with
  | EmptyString => false
  | String _ _ => true
  end.

(** The pattern text [p] matches at the front of [s] under [re.I]. *)
Fixpoint prefix_ci (p s : string) : bool :=
  match p, s with
  | EmptyString, _ => true
  | String a p', String b s' =>
      (Ascii.eqb (lower_char a) (lower_char b) && prefix_ci p' s')%bool
  | String _ _, EmptyString => false
  end.

(** [str(n)] for an [int] *)
Definition of_int (n : Z) : string := NilEmpty.string_of_int (Z.to_int n).

End Str.

(* ================================================================= *)
(** ** [extract_json_block] *)

Module Extract.

Definition EmptyInputError : exn := ValueError "Empty model output".
Definition NoObjectStartError : exn := ValueError "No JSON start found".
Definition UnbalancedObjectError : exn :=
  ValueError "Could not extract balanced JSON".

(** [re.sub("^" + fence, "", text, flags=re.I)]: without [re.M] the
    anchor holds at position 0 only. *)
Definition sub_fence_start (fence text : string) : string :=
  if Str.prefix_ci fence text
  then Str.drop (String.length fence) text else text.

(** The pattern [```$] matches at the front of [s]: three backticks
    followed by the end of the text, or by a newline that ends it. *)
Definition fence_end_here (s : string) : bool :=
  (String.eqb s "```" || String.eqb s (String.append "```" (String Str.newline "")))%bool.

(** [re.sub(r"```$", "", text, flags=re.I)]: every position is tried from
    the left; a match is deleted and the search resumes behind it. *)
Fixpoint sub_fence_end (text : string) : string :=
  if fence_end_here text then Str.drop 3 text
  else match text with
       | EmptyString => EmptyString
       | String c text' => String c (sub_fence_end text')
       end.

(** The [for i in range(start, len(text))] loop: [rest] is [text[i:]],
    the other arguments are the loop variables.  [Some i] is the index
    at which the loop returns, [None] its exhaustion. *)
Fixpoint scan (rest : string) (i : nat) (depth : Z) (in_str escape : bool)
  : option nat :=
  match rest with
  | EmptyString => None
  | String ch rest' =>
      if escape then scan rest' (S i) depth in_str false
      else if Ascii.eqb ch Str.backslash then scan rest' (S i) depth in_str true
      else if Ascii.eqb ch Str.dquote
           then scan rest' (S i) depth (negb in_str) escape
      else if negb in_str then
        if Ascii.eqb ch Str.lbrace
        then scan rest' (S i) (depth + 1) in_str escape
        else if Ascii.eqb ch Str.rbrace then
          let depth := depth - 1 in
          if depth =? 0 then Some i
          else scan rest' (S i) depth in_str escape
        else scan rest' (S i) depth in_str escape
      else scan rest' (S i) depth in_str escape
  end.

Definition strip_fences (raw_text : string) : string :=
  let text := Str.strip raw_text in
  let text := Str.strip (sub_fence_start "```json" text) in
  let text := Str.strip (sub_fence_start "```" text) in
  Str.strip (sub_fence_end text).

Definition extract_json_block (raw_text : string) : result string :=
  if negb (Str.nonempty raw_text) then Raise EmptyInputError
  else
    let text := strip_fences raw_text in
    match Str.find_char Str.lbrace text with
    | None => Raise NoObjectStartError
    | Some start =>
        match scan (Str.drop start text) start 0 false false with
        | Some i => Ok (Str.slice start (i + 1) text)
        | None => Raise UnbalancedObjectError
        end
    end.

(** *** The balanced span, in the words of the specification *)

Record tracker : Type := {
  depth : Z;
  in_string : bool;
  escape_pending : bool
}.

Definition tracker0 : tracker :=
  {| depth := 0; in_string := false; escape_pending := false |}.

(** One character: a pending escape is cleared by whatever comes next;
    a backslash arms it; an unescaped quote flips the string state;
    outside strings an unescaped brace moves the depth. *)
Definition track_step (t : tracker) (ch : ascii) : tracker :=
  if escape_pending t
  then {| depth := depth t; in_string := in_string t; escape_pending := false |}
  else if Ascii.eqb ch Str.backslash
  then {| depth := depth t; in_string := in_string t; escape_pending := true |}
  else if Ascii.eqb ch Str.dquote
  then {| depth := depth t; in_string := negb (in_string t); escape_pending := false |}
  else if in_string t then t
  else if Ascii.eqb ch Str.lbrace
  then {| depth := depth t + 1; in_string := false; escape_pending := false |}
  else if Ascii.eqb ch Str.rbrace
  then {| depth := depth t - 1; in_string := false; escape_pending := false |}
  else t.

Fixpoint track (t : tracker) (s : string) : tracker :=
  match s with
  | EmptyString => t
  | String ch s' => track (track_step t ch) s'
  end.

(** [span] starts at an opening brace, its depth is back to zero at its
    last character and at no earlier one. *)
Definition balanced_span (span : string) : Prop :=
  Str.prefix "{" span = true /\
  depth (track tracker0 span) = 0 /\
  forall p q : string,
    span = String.append p q -> p <> "" -> q <> "" ->
    0 < depth (track tracker0 p).

(** *** Notions used in the proofs *)

(** [p] holds no opening brace. *)
Definition brace_free (p : string) : Prop :=
  Str.find_char Str.lbrace p = None.

(** The text [p{m}q]. *)
Definition frame (p m q : string) : string :=
  String.append p (String Str.lbrace (String.append m (String Str.rbrace q))).

(** No character of the fence compares equal to a brace under [re.I]. *)
Fixpoint fence_ok (fence : string) : bool :=
  match fence with
  | EmptyString => true
  | String f fence' =>
      (negb (Ascii.eqb (Str.lower_char f) (Str.lower_char Str.lbrace))
       && fence_ok fence')%bool
  end.

(** Decision procedure for [balanced_span] on a given text. *)
Fixpoint open_inside (t : tracker) (s : string) : bool :=
  match s with
  | EmptyString => true
  | String c s' =>
      match s' with
      | EmptyString => true
      | String _ _ =>
          ((0 <? depth (track_step t c)) && open_inside (track_step t c) s')%bool
      end
  end.

Definition balanced_spanb (span : string) : bool :=
  (Str.prefix "{" span && (depth (track tracker0 span) =? 0)
   && open_inside tracker0 span)%bool.

Definition quote : string := String Str.dquote "".

(** The example text of the specification, writing Q for the double
    quote character: [{QaQ: Q} not a closeQ}Q]. *)
Definition embedded_brace_text : string :=
  String.append "{" (String.append quote (String.append "a" (String.append quote
    (String.append ": " (String.append quote (String.append "} not a close"
      (String.append quote (String.append "}" quote)))))))).

(** Its outer object [{QaQ: Q} not a closeQ}]. *)
Definition embedded_brace_object : string :=
  String.append "{" (String.append quote (String.append "a" (String.append quote
    (String.append ": " (String.append quote (String.append "} not a close"
      (String.append quote "}"))))))).

End Extract.


(* ================================================================= *)
(** ** Python [dict] with [str] keys *)

Module Dict.
Section WithValues.
Context {V : Type}.

Definition t : Type := list (string * V).

(** The value bound to [key], if any. *)
Fixpoint lookup (key : string) (d : t) : option V :=
  match d with
  | [] => None
  | (k, v) :: d' => if String.eqb k key then Some v else lookup key d'
  end.

(** [d.get(key, default)] *)
Definition get (key : string) (default : V) (d : t) : V :=
  match lookup key d with
  | Some v => v
  | None => default
  end.

(** [key in d] *)
Definition mem (key : string) (d : t) : bool :=
  match lookup key d with
  | Some _ => true
  | None => false
  end.

(** [d[key] = v]: a bound key keeps its place, a new one goes last. *)
Fixpoint set (key : string) (v : V) (d : t) : t :=
  match d with
  | [] => [(key, v)]
  | (k, w) :: d' =>
      if String.eqb k key then (k, v) :: d' else (k, w) :: set key v d'
  end.

(** [d.setdefault(key, v)], the dict afterwards *)
Definition setdefault (key : string) (v : V) (d : t) : t :=
  if mem key d then d else set key v d.

Definition keys (d : t) : list string := map fst d.
End WithValues.
Arguments t V : clear implicits.
End Dict.

(* ================================================================= *)
(** ** The fragment of [re] used by [parse_extra_sections] *)

Module Re.

Inductive regex : Type :=
| Lit (p : string)             (* literal text, compared under re.I *)
| Chars (cs : list ascii)      (* [...] *)
| Space                        (* \s *)
| Dot                          (* . under re.S *)
| Eos                          (* $ *)
| Seq (r1 r2 : regex)
| Alt (r1 r2 : regex)          (* r1|r2 *)
| Opt (r : regex)              (* r? *)
| Star (r : regex)             (* r* *)
| LazyStar (r : regex)         (* r*? *)
| Group (n : nat) (r : regex)  (* capturing group number n *)
| Ahead (r : regex).           (* (?=r) *)

Infix "+++" := Seq (at level 60, right associativity).

(** Group number and the text it matched, the latest match first. *)
Definition captures : Type := list (nat * string).

Definition cont : Type := string -> captures -> option captures.

(** [$] without [re.M]: the end of the text, or the newline that ends it. *)
Definition at_end (s : string) : bool :=
  (String.eqb s "" || String.eqb s (String Str.newline ""))%bool.

Definition first_of (a b : option captures) : option captures :=
  match a with
  | Some c => Some c
  | None => b
  end.

(** [r*]: as many rounds of [step] as will let the rest match; a round
    that consumes nothing is not taken, so [fuel] = the length of the
    text bounds the rounds. *)
Fixpoint star_greedy (step : string -> captures -> cont -> option captures)
  (k : cont) (fuel : nat) (s : string) (caps : captures) {struct fuel}
  : option captures :=
  match fuel with
  | O => k s caps
  | S fuel' =>
      first_of
        (step s caps
           (fun s' caps' =>
              if Nat.ltb (String.length s') (String.length s)
              then star_greedy step k fuel' s' caps' else None))
        (k s caps)
  end.

(** [r*?]: as few rounds as will let the rest match. *)
Fixpoint star_lazy (step : string -> captures -> cont -> option captures)
  (k : cont) (fuel : nat) (s : string) (caps : captures) {struct fuel}
  : option captures :=
  match fuel with
  | O => k s caps
  | S fuel' =>
      first_of
        (k s caps)
        (step s caps
           (fun s' caps' =>
              if Nat.ltb (String.length s') (String.length s)
              then star_lazy step k fuel' s' caps' else None))
  end.

(** Backtracking matcher.  [s] is the text from the current position on,
    [k] what remains to be matched behind [r]; alternatives are tried in
    the order of the [re] module and the first success is the match. *)
Fixpoint run (r : regex) (s : string) (caps : captures) (k : cont)
  {struct r} : option captures :=
  match r with
  | Lit p =>
      if Str.prefix_ci p s then k (Str.drop (String.length p) s) caps
      else None
  | Chars cs =>
      match s with
      | String c s' =>
          if existsb (fun x => Ascii.eqb (Str.lower_char x) (Str.lower_char c)) cs
          then k s' caps else None
      | EmptyString => None
      end
  | Space =>
      match s with
      | String c s' => if Str.isspace c then k s' caps else None
      | EmptyString => None
      end
  | Dot =>
      match s with
      | String _ s' => k s' caps
      | EmptyString => None
      end
  | Eos => if at_end s then k s caps else None
  | Seq r1 r2 => run r1 s caps (fun s' caps' => run r2 s' caps' k)
  | Alt r1 r2 => first_of (run r1 s caps k) (run r2 s caps k)
  | Opt r1 => first_of (run r1 s caps k) (k s caps)
  | Star r1 => star_greedy (run r1) k (String.length s) s caps
  | LazyStar r1 => star_lazy (run r1) k (String.length s) s caps
  | Group n r1 =>
      run r1 s caps
        (fun s' caps' =>
           k s' ((n, Str.take (String.length s - String.length s') s) :: caps'))
  | Ahead r1 =>
      match run r1 s caps (fun _ caps' => Some caps') with
      | Some caps' => k s caps'
      | None => None
      end
  end.

Definition accept : cont := fun _ caps => Some caps.

(** [re.search(r, s)]: the match at the leftmost position that has one. *)
Fixpoint search (r : regex) (s : string) : option captures :=
  match run r s [] accept with
  | Some caps => Some caps
  | None =>
      match s with
      | EmptyString => None
      | String _ s' => search r s'
      end
  end.

(** [m.group(n)]; [None] when the group took no part in the match. *)
Fixpoint group (n : nat) (m : captures) : option string :=
  match m with
  | [] => None
  | (j, g) :: m' => if Nat.eqb j n then Some g else group n m'
  end.

End Re.

(* ================================================================= *)
(** ** [parse_extra_sections] *)

Module Sections.
Import Re.

(** The separator [[:\-]?] behind a label. *)
Definition sep : regex := Opt (Chars [":"%char; "-"%char]).

(** The [patterns] dict, in its insertion order, each pattern under its
    source text. *)
Definition patterns : list (string * regex) :=
  [ (* r"Famous shopping(?: recommendations)?:\s*(.*?)(?=(What to pack|Safety rules|$))" *)
    ("famous_shopping",
     Lit "Famous shopping" +++ Opt (Lit " recommendations") +++ Lit ":" +++
     Star Space +++ Group 1 (LazyStar Dot) +++
     Ahead (Group 2 (Alt (Lit "What to pack") (Alt (Lit "Safety rules") Eos))));
    (* r"What to pack[:\-]?\s*(.*?)(?=(Safety rules|Extra travel tips|$))" *)
    ("what_to_pack",
     Lit "What to pack" +++ sep +++
     Star Space +++ Group 1 (LazyStar Dot) +++
     Ahead (Group 2 (Alt (Lit "Safety rules") (Alt (Lit "Extra travel tips") Eos))));
    (* r"Safety rules[:\-]?\s*(.*?)(?=(Extra travel tips|Estimated total budget|$))" *)
    ("safety_rules",
     Lit "Safety rules" +++ sep +++
     Star Space +++ Group 1 (LazyStar Dot) +++
     Ahead (Group 2 (Alt (Lit "Extra travel tips")
                       (Alt (Lit "Estimated total budget") Eos))));
    (* r"Extra travel tips[:\-]?\s*(.*?)(?=(Estimated total budget|Closing note|$))" *)
    ("extra_travel_tips",
     Lit "Extra travel tips" +++ sep +++
     Star Space +++ Group 1 (LazyStar Dot) +++
     Ahead (Group 2 (Alt (Lit "Estimated total budget")
                       (Alt (Lit "Closing note") Eos))));
    (* r"Estimated total budget[:\-]?\s*(.*?)(?=(Closing note|$))" *)
    ("estimated_total_budget",
     Lit "Estimated total budget" +++ sep +++
     Star Space +++ Group 1 (LazyStar Dot) +++
     Ahead (Group 2 (Alt (Lit "Closing note") Eos)));
    (* r"Closing note[:\-]?\s*", the greedy group 1 over any text, "$" *)
    ("closing_note",
     Lit "Closing note" +++ sep +++
     Star Space +++ Group 1 (Star Dot) +++ Eos) ].

Definition section_keys : list string :=
  [ "famous_shopping"; "what_to_pack"; "safety_rules"; "extra_travel_tips";
    "estimated_total_budget"; "closing_note" ].

(** [m.group(1).strip() if m else ""] *)
Definition captured (m : option captures) : result string :=
  match m with
  | Some caps =>
      match group 1 caps with
      | Some g => Ok (Str.strip g)
      | None => Raise (AttributeError "NoneType" "strip")
      end
  | None => Ok ""
  end.

(** The [for key, pat in patterns.items()] loop. *)
Fixpoint collect (pats : list (string * regex)) (itinerary_text : string)
  (out : Dict.t string) : result (Dict.t string) :=
  match pats with
  | [] => Ok out
  | (key, pat) :: pats' =>
      v <- captured (search pat itinerary_text) ;;
      collect pats' itinerary_text (Dict.set key v out)
  end.

Definition parse_extra_sections (itinerary_text : string)
  : result (Dict.t string) :=
  if negb (Str.nonempty itinerary_text)
  then Ok [ ("famous_shopping", ""); ("what_to_pack", "");
            ("safety_rules", ""); ("extra_travel_tips", "");
            ("estimated_total_budget", ""); ("closing_note", "") ]
  else collect patterns itinerary_text [].

(** *** The captures, said directly *)

(** The label phrases by which each capture can end. *)
Definition stops (key : string) : list string :=
  if String.eqb key "famous_shopping" then ["What to pack"; "Safety rules"]
  else if String.eqb key "what_to_pack" then ["Safety rules"; "Extra travel tips"]
  else if String.eqb key "safety_rules"
       then ["Extra travel tips"; "Estimated total budget"]
  else if String.eqb key "extra_travel_tips"
       then ["Estimated total budget"; "Closing note"]
  else if String.eqb key "estimated_total_budget" then ["Closing note"]
  else [].

(** The label phrase each key is searched by. *)
Definition label (key : string) : string :=
  if String.eqb key "famous_shopping" then "Famous shopping"
  else if String.eqb key "what_to_pack" then "What to pack"
  else if String.eqb key "safety_rules" then "Safety rules"
  else if String.eqb key "extra_travel_tips" then "Extra travel tips"
  else if String.eqb key "estimated_total_budget" then "Estimated total budget"
  else "Closing note".

(** The labels that follow [key] in the order of the pipeline. *)
Definition later_labels (key : string) : list string :=
  if String.eqb key "famous_shopping"
  then ["What to pack"; "Safety rules"; "Extra travel tips";
        "Estimated total budget"; "Closing note"]
  else if String.eqb key "what_to_pack"
  then ["Safety rules"; "Extra travel tips"; "Estimated total budget";
        "Closing note"]
  else if String.eqb key "safety_rules"
  then ["Extra travel tips"; "Estimated total budget"; "Closing note"]
  else if String.eqb key "extra_travel_tips"
  then ["Estimated total budget"; "Closing note"]
  else if String.eqb key "estimated_total_budget" then ["Closing note"]
  else [].

(** The phrase occurs somewhere in the text, in any letter case. *)
Fixpoint occurs (phrase s : string) : bool :=
  (Str.prefix_ci phrase s ||
   match s with
   | EmptyString => false
   | String _ s' => occurs phrase s'
   end)%bool.

(** A stop phrase of the key, or the end of the text, is at the front. *)
Definition stop_here (phrases : list string) (s : string) : bool :=
  (existsb (fun p => Str.prefix_ci p s) phrases || at_end s)%bool.

(** The text before the first position at which [stop_here] holds. *)
Fixpoint until_stop (phrases : list string) (s : string) : string :=
  if stop_here phrases s then ""
  else match s with
       | EmptyString => ""
       | String c s' => String c (until_stop phrases s')
       end.

(** One optional colon or dash at the front is skipped. *)
Definition skip_sep (s : string) : string :=
  match s with
  | String c s' =>
      if (Ascii.eqb c ":" || Ascii.eqb c "-")%bool then s' else s
  | EmptyString => s
  end.

(** The text behind the label of [key] when the label, with its
    separator, is at the front of [s].  [famous_shopping] takes an
    optional [ recommendations] and needs its colon. *)
Definition label_here (key : string) (s : string) : option string :=
  if Str.prefix_ci (label key) s then
    let rest := Str.drop (String.length (label key)) s in
    if String.eqb key "famous_shopping" then
      let long := Str.drop (String.length " recommendations") rest in
      if (Str.prefix_ci " recommendations" rest && Str.prefix_ci ":" long)%bool
      then Some (Str.drop 1 long)
      else if Str.prefix_ci ":" rest then Some (Str.drop 1 rest)
      else None
    else Some (skip_sep rest)
  else None.

(** The text behind the leftmost label of [key]. *)
Fixpoint after_label (key : string) (s : string) : option string :=
  match label_here key s with
  | Some rest => Some rest
  | None =>
      match s with
      | EmptyString => None
      | String _ s' => after_label key s'
      end
  end.

(** What is captured for [key]: nothing when its label is missing;
    otherwise the text behind the label up to the first stop phrase of
    the key or the end of the text, trimmed. *)
Definition section_text (key : string) (text : string) : string :=
  match after_label key text with
  | None => ""
  | Some rest =>
      if String.eqb key "closing_note" then Str.strip rest
      else Str.strip (until_stop (stops key) (Str.lstrip rest))
  end.

(** *** Notions used in the proofs *)

Definition step : Type := string -> captures -> cont -> option captures.

(** What a lookahead must do to end a capture at the [phrases]. *)
Definition ends_at (A : regex) (phrases : list string) : Prop :=
  forall s caps,
    if stop_here phrases s
    then exists g, run (Ahead A) s caps accept = Some ((2%nat, g) :: caps)
    else run (Ahead A) s caps accept = None.

(** The part of a star_lazy pattern behind the label and its separator. *)
Definition lazy_tail (A : regex) : regex :=
  Star Space +++ Group 1 (LazyStar Dot) +++ Ahead A.

(** The part of the closing-note pattern behind the label. *)
Definition greedy_tail : regex := Star Space +++ Group 1 (Star Dot) +++ Eos.

(** The rest of the pattern matches wherever it is tried. *)
Definition total (T : regex) : Prop :=
  forall s, run T s [] accept <> None.

(** The pattern [pat] is the label of [key] followed by [T]. *)
Definition labelled (key : string) (pat T : regex) : Prop :=
  forall s,
    run pat s [] accept
    = match label_here key s with
      | Some rest => run T rest [] accept
      | None => None
      end.

End Sections.

(* ================================================================= *)
(** ** Decoded JSON values *)

#[warnings="-register-all"]
Inductive json : Type :=
| JNull
| JBool (b : bool)
| JInt (n : Z)
| JFloat (repr : string)
| JStr (s : string)
| JList (items : list json)
| JDict (items : Dict.t json).

Module Py.

(** [bool(v)] *)
Definition truthy (v : json) : bool :=
  match v with
  | JNull => false
  | JBool b => b
  | JInt n => negb (n =? 0)
  | JFloat r => negb (String.eqb r "0.0" || String.eqb r "-0.0")
  | JStr s => Str.nonempty s
  | JList [] => false
  | JList (_ :: _) => true
  | JDict [] => false
  | JDict (_ :: _) => true
  end.

(** [type(v).__name__] *)
Definition type_name (v : json) : string :=
  match v with
  | JNull => "NoneType"
  | JBool _ => "bool"
  | JInt _ => "int"
  | JFloat _ => "float"
  | JStr _ => "str"
  | JList _ => "list"
  | JDict _ => "dict"
  end.

Definition no_attribute {A : Type} (v : json) (attr : string) : result A :=
  Raise (AttributeError (type_name v) attr).

(** [isinstance(v, dict)] *)
Definition isinstance_dict (v : json) : bool :=
  match v with
  | JDict _ => true
  | _ => false
  end.

(** [v.get(key, default)]; only a dict has the method. *)
Definition get_default (v : json) (key : string) (default : json) : result json :=
  match v with
  | JDict items => Ok (Dict.get key default items)
  | _ => no_attribute v "get"
  end.

(** [v.get(key)] *)
Definition get (v : json) (key : string) : result json :=
  get_default v key JNull.

(** [v.setdefault(key, default)]; the result is the dict afterwards. *)
Definition setdefault (v : json) (key : string) (default : json) : result json :=
  match v with
  | JDict items => Ok (JDict (Dict.setdefault key default items))
  | _ => no_attribute v "setdefault"
  end.

(** [a or b]: [b] is evaluated only when [a] is falsy. *)
Definition or_else (a b : result json) : result json :=
  x <- a ;; if truthy x then Ok x else b.

(** [v.replace("*", "")]; only a str has the method. *)
Definition replace_star (v : json) : result string :=
  match v with
  | JStr s => Ok (Str.remove_char Str.star s)
  | _ => no_attribute v "replace"
  end.

Definition hex_digit (n : nat) : ascii :=
  ascii_of_nat (if Nat.ltb n 10 then 48 + n else 87 + n).

(** [str.isprintable] on one character *)
Definition isprintable (c : ascii) : bool :=
  let n := Str.code c in
  (Str.between 32 126 n || (Str.between 161 255 n && negb (Nat.eqb n 173)))%bool.

Definition repr_char (quote c : ascii) : string :=
  if (Ascii.eqb c Str.backslash || Ascii.eqb c quote)%bool
  then String Str.backslash (String c "")
  else if Ascii.eqb c Str.newline then "\n"
  else if Ascii.eqb c "013" then "\r"
  else if Ascii.eqb c "009" then "\t"
  else if isprintable c then String c ""
  else String Str.backslash
         (String "x" (String (hex_digit (Nat.div (Str.code c) 16))
                        (String (hex_digit (Nat.modulo (Str.code c) 16)) ""))).

Fixpoint repr_chars (quote : ascii) (s : string) : string :=
  match s with
  | EmptyString => ""
  | String c s' => String.append (repr_char quote c) (repr_chars quote s')
  end.

(** [repr(s)] for a str: single quotes, unless the text holds one and no
    double quote. *)
Definition repr_str (s : string) : string :=
  let quote :=
    if (Str.contains "'" s && negb (Str.contains (String Str.dquote "") s))%bool
    then Str.dquote else "'"%char in
  String quote (String.append (repr_chars quote s) (String quote "")).

(** [repr(v)] *)
Fixpoint repr (v : json) : string :=
  match v with
  | JNull => "None"
  | JBool true => "True"
  | JBool false => "False"
  | JInt n => Str.of_int n
  | JFloat r => r
  | JStr s => repr_str s
  | JList items =>
      String.append "["
        (String.append
           ((fix elements (l : list json) : string :=
               match l with
               | [] => ""
               | x :: l' =>
                   match l' with
                   | [] => repr x
                   | _ :: _ =>
                       String.append (repr x) (String.append ", " (elements l'))
                   end
               end) items) "]")
  | JDict items =>
      String.append "{"
        (String.append
           ((fix elements (l : Dict.t json) : string :=
               match l with
               | [] => ""
               | (k, x) :: l' =>
                   let one :=
                     String.append (repr_str k) (String.append ": " (repr x)) in
                   match l' with
                   | [] => one
                   | _ :: _ => String.append one (String.append ", " (elements l'))
                   end
               end) items) "}")
  end.

(** [str(v)], which is what an f-string field formats with. *)
Definition str (v : json) : string :=
  match v with
  | JStr s => s
  | _ => repr v
  end.

End Py.

(* ================================================================= *)
(** ** [normalize_daywise_schema] *)

Module Normalize.
Import Py.

(** A row of [places_dataset]: the [place] column of the [trips] table
    and the [local_image] that [ensure_local_images] attached; [None] is
    Python's [None]. *)
Record place_row : Type := {
  place : option string;
  local_image : option string
}.

(** [bool(x)] for a str or [None] *)
Definition some_text (x : option string) : bool :=
  match x with
  | Some s => Str.nonempty s
  | None => false
  end.

Definition image_json (x : option string) : json :=
  match x with
  | Some s => JStr s
  | None => JNull
  end.

(** [(d.get(key) if isinstance(d.get(key), dict) else {"food": d.get(key, "")})
     if isinstance(d, dict) else {"food": ""}] *)
Definition legacy_meal (d : json) (key : string) : result json :=
  if isinstance_dict d then
    b <- get d key ;;
    if isinstance_dict b then get d key
    else food <- get_default d key (JStr "") ;; Ok (JDict [("food", food)])
  else Ok (JDict [("food", JStr "")]).

(** Lines 241-253. *)
Definition ensure_morning (morning : json) : result json :=
  m <- setdefault morning "early_place" (JStr "") ;;
  m <- setdefault m "breakfast" (JStr "") ;;
  m <- setdefault m "place_to_visit" (JStr "") ;;
  m <- setdefault m "duration" (JStr "") ;;
  setdefault m "transport_to_next" (JStr "").

Definition ensure_block (meal : string) (block : json) : result json :=
  m <- setdefault block meal (JStr "") ;;
  m <- setdefault m "place_to_visit" (JStr "") ;;
  m <- setdefault m "duration" (JStr "") ;;
  setdefault m "transport_to_next" (JStr "").

(** [(p.get("place") or "").lower().strip()] *)
Definition db_place (p : place_row) : string :=
  Str.strip (Str.lower (if some_text (place p)
                        then match place p with Some s => s | None => "" end
                        else "")).

(** The first [for p in places_dataset] loop; [day_image] is the loop's
    variable, returned at the [break] or at exhaustion. *)
Fixpoint match_place (morning_place : string) (places_dataset : list place_row)
  (day_image : option string) : option string :=
  match places_dataset with
  | [] => day_image
  | p :: rest =>
      if (Str.nonempty morning_place
          && Str.contains morning_place (db_place p))%bool
      then local_image p
      else match_place morning_place rest day_image
  end.

(** The fallback loop. *)
Fixpoint first_available (places_dataset : list place_row)
  (day_image : option string) : option string :=
  match places_dataset with
  | [] => day_image
  | p :: rest =>
      if some_text (local_image p) then local_image p
      else first_available rest day_image
  end.

(** Lines 258-272, from the normalized [morning_place] on. *)
Definition select_image (morning_place : string)
  (places_dataset : list place_row) : option string :=
  let day_image := match_place morning_place places_dataset None in
  if negb (some_text day_image)
  then first_available places_dataset day_image
  else day_image.

(** The body of the [for i, d in enumerate(days_list)] loop; the result
    is the dict that is appended. *)
Definition normalize_entry (i : nat) (d : json)
  (places_dataset : list place_row) : result json :=
  own_day <- (if isinstance_dict d then get d "day" else Ok (JBool false)) ;;
  day_num <- (if truthy own_day then get d "day"
              else Ok (JInt (Z.of_nat i + 1))) ;;
  title <- or_else (or_else (get d "title") (get d "day_title"))
                   (Ok (JStr (String.append "Day " (str day_num)))) ;;
  blocks <-
    (if match d with
        | JDict items =>
            (Dict.mem "morning" items && Dict.mem "afternoon" items
             && Dict.mem "evening" items)%bool
        | _ => false
        end
     then
       morning <- or_else (get d "morning") (Ok (JDict [])) ;;
       afternoon <- or_else (get d "afternoon") (Ok (JDict [])) ;;
       evening <- or_else (get d "evening") (Ok (JDict [])) ;;
       Ok (morning, afternoon, evening)
     else
       breakfast <- legacy_meal d "breakfast" ;;
       lunch <- legacy_meal d "lunch" ;;
       dinner <- legacy_meal d "dinner" ;;
       m_early <- or_else (or_else (get d "early_place")
                                   (get breakfast "early_place"))
                          (Ok (JStr "")) ;;
       m_food <- or_else (get breakfast "food") (Ok (JStr "")) ;;
       m_place <- or_else (or_else (or_else (get breakfast "place")
                                            (get breakfast "place_to_visit"))
                                   (get d "place_to_visit"))
                          (Ok (JStr "")) ;;
       m_duration <- or_else (get breakfast "duration") (Ok (JStr "")) ;;
       m_next <- or_else (get breakfast "transport_to_next") (Ok (JStr "")) ;;
       a_food <- or_else (get lunch "food") (Ok (JStr "")) ;;
       a_place <- or_else (or_else (get lunch "place")
                                   (get lunch "place_to_visit"))
                          (Ok (JStr "")) ;;
       a_duration <- or_else (get lunch "duration") (Ok (JStr "")) ;;
       a_next <- or_else (get lunch "transport_to_next") (Ok (JStr "")) ;;
       e_food <- or_else (get dinner "food") (Ok (JStr "")) ;;
       e_place <- or_else (or_else (get dinner "place")
                                   (get dinner "place_to_visit"))
                          (Ok (JStr "")) ;;
       e_duration <- or_else (get dinner "duration") (Ok (JStr "")) ;;
       e_next <- or_else (get dinner "transport_to_next") (Ok (JStr "")) ;;
       Ok (JDict [ ("early_place", m_early); ("breakfast", m_food);
                   ("place_to_visit", m_place); ("duration", m_duration);
                   ("transport_to_next", m_next) ],
           JDict [ ("lunch", a_food); ("place_to_visit", a_place);
                   ("duration", a_duration); ("transport_to_next", a_next) ],
           JDict [ ("dinner", e_food); ("place_to_visit", e_place);
                   ("duration", e_duration); ("transport_to_next", e_next) ])) ;;
  let '(morning, afternoon, evening) := blocks in
  morning <- ensure_morning morning ;;
  afternoon <- ensure_block "lunch" afternoon ;;
  evening <- ensure_block "dinner" evening ;;
  visit <- get_default morning "place_to_visit" (JStr "") ;;
  starless <- replace_star visit ;;
  let morning_place := Str.lower (Str.strip starless) in
  let day_image := select_image morning_place places_dataset in
  transport_note <- (if isinstance_dict d then get d "transport_note_if_long"
                     else Ok JNull) ;;
  day_tips <- or_else (or_else (get d "day_tips") (get d "tips"))
                      (Ok (JStr "")) ;;
  Ok (JDict [ ("day", day_num); ("title", title); ("morning", morning);
              ("afternoon", afternoon); ("evening", evening);
              ("transport_note_if_long", transport_note);
              ("day_tips", day_tips); ("day_image", image_json day_image) ]).

(** The [for] loop over [enumerate(days_list)], from index [i] on. *)
Fixpoint normalize_entries (i : nat) (days_list : list json)
  (places_dataset : list place_row) (normalized : list json)
  : result (list json) :=
  match days_list with
  | [] => Ok normalized
  | d :: rest =>
      entry <- normalize_entry i d places_dataset ;;
      normalize_entries (S i) rest places_dataset (normalized ++ [entry])
  end.

(** The dict appended by the [while] loop when [len(normalized)] is [idx]. *)
Definition placeholder (idx : nat) : json :=
  JDict [ ("day", JInt (Z.of_nat idx + 1));
          ("title", JStr (String.append "Day " (Str.of_int (Z.of_nat idx + 1))));
          ("morning",
           JDict [ ("early_place", JStr "");
                   ("breakfast", JStr "Breakfast suggestion");
                   ("place_to_visit", JStr "**Local**");
                   ("duration", JStr "1 hour");
                   ("transport_to_next", JStr "Short walk, 0.2 mi, walk, $0") ]);
          ("afternoon",
           JDict [ ("lunch", JStr "Lunch suggestion");
                   ("place_to_visit", JStr "**Local**");
                   ("duration", JStr "1 hour");
                   ("transport_to_next", JStr "Short walk, 0.5 mi, walk, $0") ]);
          ("evening",
           JDict [ ("dinner", JStr "Dinner suggestion");
                   ("place_to_visit", JStr "**Local**");
                   ("duration", JStr "1-2 hours");
                   ("transport_to_next", JStr "N/A") ]);
          ("transport_note_if_long", JNull);
          ("day_tips", JStr "");
          ("day_image", JNull) ].

(** [while len(normalized) < days_required]: one unit of [fuel] per turn
    of the loop. *)
Fixpoint fill_missing (fuel : nat) (days_required : Z) (normalized : list json)
  : list json :=
  match fuel with
  | O => normalized
  | S fuel' =>
      if Z.of_nat (length normalized) <? days_required
      then fill_missing fuel' days_required
             (normalized ++ [placeholder (length normalized)])
      else normalized
  end.

(** [l[:n]]; a negative [n] counts from the end. *)
Definition slice_to {A : Type} (n : Z) (l : list A) : list A :=
  if n <? 0 then firstn (Z.to_nat (Z.of_nat (length l) + n)) l
  else firstn (Z.to_nat n) l.

(** The loop adds one entry per turn, so [days_required] turns reach the
    exit test ([fill_missing_exits]). *)
Definition normalize_daywise_schema (days_list : list json) (days_required : Z)
  (places_dataset : list place_row) : result (list json) :=
  normalized <- normalize_entries 0 days_list places_dataset [] ;;
  let normalized :=
    fill_missing (Z.to_nat days_required) days_required normalized in
  Ok (slice_to days_required normalized).

(** [d[key]] of an output record, [JNull] when there is none. *)
Definition field (key : string) (record : json) : json :=
  match record with
  | JDict items => Dict.get key JNull items
  | _ => JNull
  end.

(** [morning.place_to_visit] with the asterisks removed, trimmed and
    lower-cased. *)
Definition normalized_name (place_to_visit : string) : string :=
  Str.lower (Str.strip (Str.remove_char Str.star place_to_visit)).

(** The row's place contains the (non-empty) normalized name. *)
Definition name_matches (name : string) (p : place_row) : bool :=
  (Str.nonempty name && Str.contains name (db_place p))%bool.

(** *** The image rule, said directly *)

(** [p] is the first row of the catalog whose place contains the name. *)
Definition first_named (name : string) (catalog : list place_row)
  (p : place_row) : Prop :=
  exists before after,
    catalog = (before ++ p :: after)%list /\
    Forall (fun q => name_matches name q = false) before /\
    name_matches name p = true.

(** No row of the catalog contains the name. *)
Definition unnamed (name : string) (catalog : list place_row) : Prop :=
  Forall (fun q => name_matches name q = false) catalog.

(** [p] is the first row of the catalog with an image reference that is
    neither null nor empty. *)
Definition first_with_image (catalog : list place_row) (p : place_row) : Prop :=
  exists before after,
    catalog = (before ++ p :: after)%list /\
    Forall (fun q => some_text (local_image q) = false) before /\
    some_text (local_image p) = true.

(** The first row that contains the name has no usable image. *)
Definition named_without_image (name : string) (catalog : list place_row)
  : Prop :=
  exists p, first_named name catalog p /\ some_text (local_image p) = false.

(** How [day_image] of the record [r] follows from its morning place. *)
Definition image_rule (catalog : list place_row) (r : json) : Prop :=
  exists place_to_visit,
    field "place_to_visit" (field "morning" r) = JStr place_to_visit /\
    let name := normalized_name place_to_visit in
    let day_image := field "day_image" r in
    (forall p, first_named name catalog p ->
               some_text (local_image p) = true ->
               day_image = image_json (local_image p)) /\
    (unnamed name catalog \/ named_without_image name catalog ->
     forall p, first_with_image catalog p ->
               day_image = image_json (local_image p)) /\
    (Forall (fun q => local_image q = None) catalog -> day_image = JNull).

(** When the fallback scan decides [day_image] of the record [r]. *)
Definition fallback_rule (catalog : list place_row) (r : json) : Prop :=
  exists place_to_visit,
    field "place_to_visit" (field "morning" r) = JStr place_to_visit /\
    let name := normalized_name place_to_visit in
    let day_image := field "day_image" r in
    (name = "" -> unnamed name catalog) /\
    (unnamed name catalog \/ named_without_image name catalog \/ name = "" ->
     (forall p, first_with_image catalog p ->
                day_image = image_json (local_image p)) /\
     (day_image = JNull ->
      Forall (fun q => some_text (local_image q) = false) catalog)).

(** The image rule as the specification words it: the first row whose
    place contains the name gives its image reference; only when no row
    does, the first row with a non-null image reference gives it. *)
Definition documented_image (name : string) (catalog : list place_row)
  : option string :=
  match find (fun p => Str.contains name (db_place p)) catalog with
  | Some p => local_image p
  | None =>
      match find (fun p => match local_image p with
                           | Some _ => true
                           | None => false
                           end) catalog with
      | Some p => local_image p
      | None => None
      end
  end.

(** The fallback as the specification words it: the first row with a
    non-null image reference gives it. *)
Definition documented_fallback (catalog : list place_row) : option string :=
  match find (fun p => match local_image p with
                       | Some _ => true
                       | None => false
                       end) catalog with
  | Some p => local_image p
  | None => None
  end.

(** *** Notions used in the proofs *)

Definition morning_full (m : Dict.t json) : Prop :=
  Dict.mem "early_place" m = true /\ Dict.mem "breakfast" m = true /\
  Dict.mem "place_to_visit" m = true /\ Dict.mem "duration" m = true /\
  Dict.mem "transport_to_next" m = true.

Definition block_full (meal : string) (m : Dict.t json) : Prop :=
  Dict.mem meal m = true /\ Dict.mem "place_to_visit" m = true /\
  Dict.mem "duration" m = true /\ Dict.mem "transport_to_next" m = true.

(** The day number of the entry at index [i]. *)
Definition own_or_index (i : nat) (items : Dict.t json) : json :=
  if truthy (Dict.get "day" JNull items) then Dict.get "day" JNull items
  else JInt (Z.of_nat i + 1).

Definition tips_of (items : Dict.t json) : json :=
  if truthy (if truthy (Dict.get "day_tips" JNull items)
             then Dict.get "day_tips" JNull items
             else Dict.get "tips" JNull items)
  then (if truthy (Dict.get "day_tips" JNull items)
        then Dict.get "day_tips" JNull items
        else Dict.get "tips" JNull items)
  else JStr "".

Definition record (day title morning afternoon evening note tips image : json)
  : json :=
  JDict [ ("day", day); ("title", title); ("morning", morning);
          ("afternoon", afternoon); ("evening", evening);
          ("transport_note_if_long", note);
          ("day_tips", tips); ("day_image", image) ].

(** Nothing but itself comes out of normalizing [r]. *)
Definition fixed (places : list place_row) (r : json) : Prop :=
  forall j, normalize_entry j r places = Ok r.

(** The number of placeholders the [while] loop has to add. *)
Definition missing (days_required : Z) (normalized : list json) : nat :=
  Z.to_nat (days_required - Z.of_nat (length normalized)).

(** *** Sample inputs *)

Definition day_five : list json := [JDict [("day", JInt 5)]].

Definition canyon_entry : json :=
  JDict [ ("morning", JDict [("place_to_visit", JStr "**Grand Canyon**")]);
          ("afternoon", JDict []); ("evening", JDict []) ].

Definition lodge_catalog : list place_row :=
  [ {| place := Some "Grand Canyon Lodge"; local_image := Some "img1" |} ].

Definition bare_catalog : list place_row :=
  [ {| place := Some "Grand Canyon"; local_image := None |};
    {| place := Some "Hoover Dam"; local_image := Some "img2" |} ].

(** A catalog whose first row has the empty text as image reference. *)
Definition empty_image_catalog : list place_row :=
  [ {| place := Some "Grand Canyon"; local_image := Some "" |};
    {| place := Some "Hoover Dam"; local_image := Some "img2" |} ].

End Normalize.

(* ================================================================= *)
(** ** Further notions for [extract_json_block] *)

Module ExtractMore.
Import Extract.

(** Lines 107-132 of [extract_json_block] on a text as it stands: the
    search for the opening brace, the scanning loop and the slice. *)
Definition locate (text : string) : result string :=
  match Str.find_char Str.lbrace text with
  | None => Raise NoObjectStartError
  | Some start =>
      match scan (Str.drop start text) start 0 false false with
      | Some i => Ok (Str.slice start (i + 1) text)
      | None => Raise UnbalancedObjectError
      end
  end.

(** [s] holds no closing brace. *)
Definition close_free (s : string) : Prop :=
  Str.find_char Str.rbrace s = None.

(** Every character of [s] is white space. *)
Definition blank (s : string) : Prop := Str.lstrip s = "".

(** The object of the first example of the specification, a [days] key
    with an empty list. *)
Definition days_object : string :=
  String.append "{" (String.append quote (String.append "days"
    (String.append quote ":[]}"))).

End ExtractMore.

(* ================================================================= *)
(** ** Further notions for [parse_extra_sections] *)

Module SectionsMore.

(** [v] is a stretch of consecutive characters of [text]. *)
Definition piece (v text : string) : Prop :=
  exists a b, text = String.append a (String.append v b).

(** [s] does not start with white space. *)
Definition no_lead (s : string) : Prop :=
  match s with
  | EmptyString => True
  | String c _ => Str.isspace c = false
  end.

(** Every value of the mapping in lower case. *)
Definition lower_values (d : Dict.t string) : Dict.t string :=
  map (fun kv => (fst kv, Str.lower (snd kv))) d.

End SectionsMore.

(* ================================================================= *)
(** ** Further notions for [normalize_daywise_schema] *)

Module NormalizeMore.
Import Py Normalize.
Local Open Scope list_scope.

(** [x or y] on values *)
Definition or_value (x y : json) : json := if truthy x then x else y.

Definition is_str (v : json) : bool :=
  match v with
  | JStr _ => true
  | _ => false
  end.

(** The test of line 210 on the keys of an entry. *)
Definition has_blocks (items : Dict.t json) : bool :=
  (Dict.mem "morning" items && Dict.mem "afternoon" items
   && Dict.mem "evening" items)%bool.

(** The five [setdefault] calls on [morning], and the four on the other
    two blocks. *)
Definition fill_morning (m : Dict.t json) : Dict.t json :=
  Dict.setdefault "transport_to_next" (JStr "")
    (Dict.setdefault "duration" (JStr "")
       (Dict.setdefault "place_to_visit" (JStr "")
          (Dict.setdefault "breakfast" (JStr "")
             (Dict.setdefault "early_place" (JStr "") m)))).

Definition fill_block (meal : string) (m : Dict.t json) : Dict.t json :=
  Dict.setdefault "transport_to_next" (JStr "")
    (Dict.setdefault "duration" (JStr "")
       (Dict.setdefault "place_to_visit" (JStr "")
          (Dict.setdefault meal (JStr "") m))).

(** The dict that lines 216-218 bind to [breakfast], [lunch] and
    [dinner]. *)
Definition meal_of (items : Dict.t json) (key : string) : Dict.t json :=
  match Dict.get key JNull items with
  | JDict b => b
  | _ => [("food", Dict.get key (JStr "") items)]
  end.

(** The three dicts of lines 220-238. *)
Definition legacy_morning (items : Dict.t json) : Dict.t json :=
  let breakfast := meal_of items "breakfast" in
  [ ("early_place",
     or_value (or_value (Dict.get "early_place" JNull items)
                        (Dict.get "early_place" JNull breakfast)) (JStr ""));
    ("breakfast", or_value (Dict.get "food" JNull breakfast) (JStr ""));
    ("place_to_visit",
     or_value (or_value (or_value (Dict.get "place" JNull breakfast)
                                  (Dict.get "place_to_visit" JNull breakfast))
                        (Dict.get "place_to_visit" JNull items)) (JStr ""));
    ("duration", or_value (Dict.get "duration" JNull breakfast) (JStr ""));
    ("transport_to_next",
     or_value (Dict.get "transport_to_next" JNull breakfast) (JStr "")) ].

Definition legacy_block (meal : string) (b : Dict.t json) : Dict.t json :=
  [ (meal, or_value (Dict.get "food" JNull b) (JStr ""));
    ("place_to_visit",
     or_value (or_value (Dict.get "place" JNull b)
                        (Dict.get "place_to_visit" JNull b)) (JStr ""));
    ("duration", or_value (Dict.get "duration" JNull b) (JStr ""));
    ("transport_to_next",
     or_value (Dict.get "transport_to_next" JNull b) (JStr "")) ].

(** The block an entry with all three keys gives under [key]:
    [d.get(key) or {}], when that is a dict. *)
Definition given_block (items : Dict.t json) (key : string)
  : option (Dict.t json) :=
  match or_value (Dict.get key JNull items) (JDict []) with
  | JDict m => Some m
  | _ => None
  end.

(** [morning], [afternoon] and [evening] as they stand before line 241,
    when the [setdefault] calls will find dicts. *)
Definition blocks_of (items : Dict.t json)
  : option (Dict.t json * Dict.t json * Dict.t json) :=
  if has_blocks items then
    match given_block items "morning", given_block items "afternoon",
          given_block items "evening" with
    | Some m, Some a, Some e => Some (m, a, e)
    | _, _, _ => None
    end
  else Some (legacy_morning items,
             legacy_block "lunch" (meal_of items "lunch"),
             legacy_block "dinner" (meal_of items "dinner")).

Definition title_of (i : nat) (items : Dict.t json) : json :=
  or_value (or_value (Dict.get "title" JNull items)
                     (Dict.get "day_title" JNull items))
           (JStr (String.append "Day " (str (own_or_index i items)))).

(** The record of the entry [items] at index [i], when there is one. *)
Definition entry_record (i : nat) (items : Dict.t json)
  (places : list place_row) : option json :=
  match blocks_of items with
  | Some (m, a, e) =>
      match Dict.get "place_to_visit" (JStr "") (fill_morning m) with
      | JStr pv =>
          Some (record (own_or_index i items) (title_of i items)
                  (JDict (fill_morning m)) (JDict (fill_block "lunch" a))
                  (JDict (fill_block "dinner" e))
                  (Dict.get "transport_note_if_long" JNull items)
                  (tips_of items)
                  (image_json (select_image (normalized_name pv) places)))
      | _ => None
      end
  | None => None
  end.

(** A value that [morning], [afternoon] or [evening] may have in an
    entry with all three: falsy, or a dict. *)
Definition block_ok (v : json) : bool :=
  (negb (truthy v) || isinstance_dict v)%bool.

(** The value that ends up as [morning.place_to_visit]: line 226 for an
    entry without the three blocks, the entry's own otherwise. *)
Definition morning_visit_legacy (items : Dict.t json) : json :=
  let breakfast := meal_of items "breakfast" in
  or_value (or_value (or_value (Dict.get "place" JNull breakfast)
                               (Dict.get "place_to_visit" JNull breakfast))
                     (Dict.get "place_to_visit" JNull items)) (JStr "").

Definition morning_visit (items : Dict.t json) : json :=
  if has_blocks items then
    match Dict.get "morning" JNull items with
    | JDict m => Dict.get "place_to_visit" (JStr "") m
    | _ => JStr ""
    end
  else morning_visit_legacy items.

(** The entries that the loop body normalizes without raising. *)
Definition accepts (d : json) : bool :=
  match d with
  | JDict items =>
      ((if has_blocks items
        then block_ok (Dict.get "morning" JNull items)
             && block_ok (Dict.get "afternoon" JNull items)
             && block_ok (Dict.get "evening" JNull items)
        else true)
       && is_str (morning_visit items))%bool
  | _ => false
  end.

(** The keys of an entry without all three blocks that the loop body
    reads. *)
Definition legacy_keys : list string :=
  [ "day"; "title"; "day_title"; "breakfast"; "lunch"; "dinner";
    "early_place"; "place_to_visit"; "transport_note_if_long";
    "day_tips"; "tips" ].

(** The keys of every returned record, in their order. *)
Definition record_keys : list string :=
  [ "day"; "title"; "morning"; "afternoon"; "evening";
    "transport_note_if_long"; "day_tips"; "day_image" ].

(** [r] is a record in the shape the template expects. *)
Definition well_formed (r : json) : Prop :=
  exists items m a e,
    r = JDict items /\ Dict.keys items = record_keys /\
    Dict.lookup "morning" items = Some (JDict m) /\
    Dict.lookup "afternoon" items = Some (JDict a) /\
    Dict.lookup "evening" items = Some (JDict e) /\
    morning_full m /\ block_full "lunch" a /\ block_full "dinner" e.

(** Every record but its [day_image]. *)
Definition without_image (r : json) : json :=
  match r with
  | JDict items =>
      JDict (filter (fun kv => negb (String.eqb (fst kv) "day_image")) items)
  | _ => r
  end.

(** A day in the structure that the prompt template prescribes
    (lines 345-368). *)
Definition prompt_entry (day title : json) (m a e : Dict.t json)
  (note tips : json) : json :=
  JDict [ ("day", day); ("title", title); ("morning", JDict m);
          ("afternoon", JDict a); ("evening", JDict e);
          ("transport_note_if_long", note); ("day_tips", tips) ].

(** [d] has that structure: a day number and a title that are not
    falsy, the three blocks with all their subkeys, a text as the
    morning place, and a tip that is not a falsy value other than the
    empty text. *)
Definition conformant (d : json) : Prop :=
  exists day title m a e note tips pv,
    d = prompt_entry day title m a e note tips /\
    truthy day = true /\ truthy title = true /\
    morning_full m /\ block_full "lunch" a /\ block_full "dinner" e /\
    Dict.lookup "place_to_visit" m = Some (JStr pv) /\
    (truthy tips = true \/ tips = JStr "").

(** *** Sample inputs *)

(** The day of the prompt template. *)
Definition prompt_day : json :=
  prompt_entry (JInt 1) (JStr "Day 1 - Caption")
    [ ("early_place", JStr "optional short text");
      ("breakfast", JStr "Food + price");
      ("place_to_visit", JStr "Place Name");
      ("duration", JStr "time");
      ("transport_to_next", JStr "From X to Y, mode, miles, approx cost (one sentence)") ]
    [ ("lunch", JStr "Food + price");
      ("place_to_visit", JStr "Place Name");
      ("duration", JStr "time");
      ("transport_to_next", JStr "From X to Y, mode, miles, approx cost (one sentence)") ]
    [ ("dinner", JStr "Food + price");
      ("place_to_visit", JStr "Place Name");
      ("duration", JStr "time");
      ("transport_to_next", JStr "From X to Y, mode, miles, approx cost (one sentence)") ]
    JNull (JStr "short tip").

Definition three_days : list json := [JDict []; JDict []; JDict []].

(** An entry whose [morning] has a key of its own. *)
Definition guided_entry : json :=
  JDict [ ("morning", JDict [ ("place_to_visit", JStr "Louvre");
                              ("guide", JStr "Ana") ]);
          ("afternoon", JDict []); ("evening", JDict []) ].

(** An entry with [morning] and [afternoon] but no [evening]. *)
Definition two_blocks : Dict.t json :=
  [ ("morning", JDict [("place_to_visit", JStr "Louvre")]);
    ("afternoon", JDict [("lunch", JStr "Bistro")]) ].

End NormalizeMore.

(* ================================================================= *)
(** ** [ensure_local_images] *)

Module Images.
Import Normalize.
Local Open Scope list_scope.

(** [s.replace(x, y)] for two characters *)
Fixpoint replace_char (x y : ascii) (s : string) : string :=
  match s with
  | EmptyString => EmptyString
  | String c s' =>
      String (if Ascii.eqb c x then y else c) (replace_char x y s')
  end.

(** A row of [get_filtered_data] with the two columns that
    [ensure_local_images] reads; [None] is SQL's [NULL]. *)
Record trip_row : Type := {
  trip_place : option string;
  image_url : option string
}.

(** What [requests.get] answers. *)
Record response : Type := {
  status_code : Z;
  content : string
}.

(** ["file:///" + local_path.replace("\\", "/")] *)
Definition file_url (local_path : string) : string :=
  String.append "file:///" (replace_char Str.backslash "/" local_path).

(** The row [p] with its [local_image] set. *)
Definition with_image (p : trip_row) (image : option string) : place_row :=
  {| place := trip_place p; local_image := image |}.

(** A path that [wkhtmltopdf] is given: a file URL with forward slashes. *)
Definition wkhtml_url (s : string) : Prop :=
  Str.prefix "file:///" s = true /\ Str.find_char Str.backslash s = None.

(** The file system and the network, and the library functions that
    read and change them. *)
Record env : Type := {
  world : Type;
  (** [os.makedirs(images_dir, exist_ok=True)]: the world afterwards,
      and [false] when it raises. *)
  makedirs : world -> world * bool;
  (** [os.path.basename(urlparse(url).path)]; [urlparse] raises
      [ValueError] for some texts. *)
  url_basename : string -> result string;
  (** [os.path.join(images_dir, filename)] *)
  join_images_dir : string -> string;
  (** [os.path.exists(path)] *)
  path_exists : world -> string -> bool;
  (** [requests.get(url, timeout=6)]: the world afterwards and the
      response, [None] when the call raises. *)
  requests_get : world -> string -> world * option response;
  (** [with open(path, "wb") as f: f.write(content)]: the world
      afterwards, and [false] when it raises. *)
  write_file : world -> string -> string -> world * bool
}.

(** How a call ends: with the rows, with an exception of the loop, or
    with the [OSError] of [os.makedirs]. *)
Inductive call_outcome : Type :=
| Returned (rows : list place_row)
| Raised (e : exn)
| MakedirsRaised.

Section World.
Variable E : env.

(** Lines 173-177. *)
Definition local_path (p : trip_row) (url : string) : result string :=
  filename <- url_basename E url ;;
  Ok (join_images_dir E
        (if Str.nonempty filename then filename
         else replace_char " " "_"
                (String.append
                   (match trip_place p with Some s => s | None => "None" end)
                   ".jpg"))).

(** The body of the [for p in places] loop: the row with its
    [local_image], or the exception that leaves the loop, and the
    world afterwards. *)
Definition attach (p : trip_row) (w : world E)
  : result place_row * world E :=
  match image_url p with
  | Some url =>
      if Str.nonempty url then
        match local_path p url with
        | Ok path =>
            if path_exists E w path
            then (Ok (with_image p (Some (file_url path))), w)
            else
              match requests_get E w url with
              | (w1, Some resp) =>
                  if status_code resp =? 200 then
                    match write_file E w1 path (content resp) with
                    | (w2, true) =>
                        (Ok (with_image p (Some (file_url path))), w2)
                    | (w2, false) => (Ok (with_image p None), w2)
                    end
                  else (Ok (with_image p (Some (file_url path))), w1)
              | (w1, None) => (Ok (with_image p None), w1)
              end
        | Raise e => (Raise e, w)
        end
      else (Ok (with_image p None), w)
  | None => (Ok (with_image p None), w)
  end.

(** The [for] loop of lines 166-192 and the [return], from the world
    that [os.makedirs] on line 164 has left. *)
Fixpoint ensure_local_images (places : list trip_row) (w : world E)
  : result (list place_row) * world E :=
  match places with
  | [] => (Ok [], w)
  | p :: rest =>
      match attach p w with
      | (Ok q, w1) =>
          match ensure_local_images rest w1 with
          | (Ok qs, w2) => (Ok (q :: qs), w2)
          | (Raise e, w2) => (Raise e, w2)
          end
      | (Raise e, w1) => (Raise e, w1)
      end
  end.

(** The whole call, from line 163 on: [os.makedirs], whose exception
    nothing catches, and then the loop. *)
Definition ensure_local_images_call (places : list trip_row) (w : world E)
  : call_outcome * world E :=
  match makedirs E w with
  | (w0, true) =>
      match ensure_local_images places w0 with
      | (Ok rows, w1) => (Returned rows, w1)
      | (Raise e, w1) => (Raised e, w1)
      end
  | (w0, false) => (MakedirsRaised, w0)
  end.

(** The row has no URL, or its file is there already. *)
Definition cached (w : world E) (p : trip_row) : Prop :=
  forall url, image_url p = Some url -> Str.nonempty url = true ->
              exists path, local_path p url = Ok path /\
                           path_exists E w path = true.

(** What a row becomes when nothing is fetched. *)
Definition cached_row (p : trip_row) : place_row :=
  with_image p
    (match image_url p with
     | Some url =>
         if Str.nonempty url then
           match local_path p url with
           | Ok path => Some (file_url path)
           | Raise _ => None
           end
         else None
     | None => None
     end).

(** How the row [q] of the result comes from the row [p]. *)
Definition attached (p : trip_row) (q : place_row) : Prop :=
  place q = trip_place p /\
  (local_image q = None \/
   exists url path,
     image_url p = Some url /\ Str.nonempty url = true /\
     local_path p url = Ok path /\
     local_image q = Some (file_url path)).
End World.

(** *** A sample world *)

Definition sample_exists (files : list string) (path : string) : bool :=
  existsb (String.eqb path) files.

Definition sample_get (files : list string) (url : string)
  : list string * option response :=
  (files, Some {| status_code := 404; content := "" |}).

Definition sample_write (files : list string) (path data : string)
  : list string * bool :=
  (path :: files, true).

Definition sample_dir : string := "C:\app\static\day_images".

(** The directory is made when it is missing. *)
Definition sample_makedirs (files : list string) : list string * bool :=
  (if sample_exists files sample_dir then files else sample_dir :: files,
   true).

Definition sample_join (filename : string) : string :=
  String.append "C:\app\static\day_images\" filename.

(** The text after the last slash. *)
Fixpoint after_last_slash (url : string) : string :=
  match url with
  | EmptyString => EmptyString
  | String c url' =>
      if Str.contains "/" url' then after_last_slash url'
      else if Ascii.eqb c "/" then url' else url
  end.

(** An opening bracket without its closing one is refused, as by
    [urlparse]. *)
Definition sample_basename (url : string) : result string :=
  if (Str.contains "[" url && negb (Str.contains "]" url))%bool
  then Raise (ValueError "Invalid IPv6 URL")
  else Ok (after_last_slash url).

(** A world given by the files that exist, with a network that answers
    every request with status 404. *)
Definition sample_env : env :=
  {| world := list string;
     makedirs := sample_makedirs;
     url_basename := sample_basename;
     join_images_dir := sample_join;
     path_exists := sample_exists;
     requests_get := sample_get;
     write_file := sample_write |}.

Definition canyon_row : trip_row :=
  {| trip_place := Some "Grand Canyon";
     image_url := Some "http://img.example/canyon.jpg" |}.

Definition dam_row : trip_row :=
  {| trip_place := Some "Hoover Dam"; image_url := None |}.

Definition bracket_row : trip_row :=
  {| trip_place := Some "Zion"; image_url := Some "http://[img/zion.jpg" |}.

Definition sample_rows : list trip_row := [canyon_row; dam_row].

Definition canyon_file : string := "C:\app\static\day_images\canyon.jpg".

End Images.

(* ================================================================= *)
(** ** The queries of [get_regions] and [get_filtered_data] *)

Module Db.
Local Open Scope list_scope.

(** A parameter of a statement: the texts of the form, and the limit. *)
Inductive sql_value : Type :=
| SqlText (s : string)
| SqlInt (n : Z).

(** [sep.join(l)] *)
Fixpoint join (sep : string) (l : list string) : string :=
  match l with
  | [] => ""
  | x :: l' =>
      match l' with
      | [] => x
      | _ :: _ => String.append x (String.append sep (join sep l'))
      end
  end.

(** [",".join(["%s"] * n)] *)
Definition marks (n : nat) : string := join "," (repeat "%s" n).

Definition nl : string := String Str.newline "".

(** Lines 64-65. *)
Definition regions_query (states : list string) : string :=
  String.append "SELECT DISTINCT city_region FROM trips WHERE state IN ("
    (String.append (marks (length states)) ") ORDER BY city_region").

(** Lines 77-85. *)
Definition filtered_query (states regions : list string) : string :=
  String.append nl
 (String.append "        SELECT place, place_desc, city_region, state, rating, duration, area, image_url"
 (String.append nl
 (String.append "        FROM trips"
 (String.append nl
 (String.append "        WHERE state IN ("
 (String.append (marks (length states))
 (String.append ") AND city_region IN ("
 (String.append (marks (length regions))
 (String.append ")"
 (String.append nl
 (String.append "        ORDER BY rating DESC"
 (String.append nl
 (String.append "        LIMIT %s"
 (String.append nl "    ")))))))))))))).

(** [states + regions + [limit]] *)
Definition filtered_params (states regions : list string) (limit : Z)
  : list sql_value :=
  map SqlText states ++ map SqlText regions ++ [SqlInt limit].

(** [get_regions] over a connection that answers: [execute] is
    [cur.execute] followed by [cur.fetchall], a row the tuple of its
    first column and the others. *)
Definition get_regions
  (execute : string -> list sql_value -> list (sql_value * list sql_value))
  (states : list string) : list sql_value :=
  match states with
  | [] => []
  | _ :: _ => map fst (execute (regions_query states) (map SqlText states))
  end.

(** [get_filtered_data], with the rows as the dictionary cursor gives
    them. *)
Definition get_filtered_data {row : Type}
  (execute : string -> list sql_value -> list row)
  (states regions : list string) (limit : Z) : list row :=
  match states, regions with
  | _ :: _, _ :: _ =>
      execute (filtered_query states regions)
              (filtered_params states regions limit)
  | _, _ => []
  end.

(** The number of parameter markers in a statement. *)
Fixpoint count_marks (s : string) : nat :=
  match s with
  | EmptyString => O
  | String _ s' => (if Str.prefix "%s" s then 1 else 0) + count_marks s'
  end.

(** The statement has as many markers as it is given parameters. *)
Definition well_formed_call (query : string) (params : list sql_value) : Prop :=
  count_marks query = length params.

(** A database that answers with the statement it was sent, and one
    that refuses a statement whose markers and parameters differ in
    number. *)
Definition echo (query : string) (params : list sql_value)
  : list (sql_value * list sql_value) :=
  [(SqlText query, params)].

Definition strict_echo (query : string) (params : list sql_value)
  : list (sql_value * list sql_value) :=
  if Nat.eqb (count_marks query) (length params)
  then [(SqlText query, params)]
  else [].

End Db.

(* ================================================================= *)
(** * Properties *)

(** ** Strings *)

Module StrFacts.

Lemma append_empty_r (s : string) : String.append s "" = s.
Proof. induction s as [|c s IH]; simpl; [reflexivity | now rewrite IH]. Qed.

Lemma append_assoc3 (a b c : string) :
  String.append (String.append a b) c = String.append a (String.append b c).
Proof. induction a as [|x a IH]; simpl; [reflexivity | now rewrite IH]. Qed.

Lemma append_length (a b : string) :
  String.length (String.append a b) = (String.length a + String.length b)%nat.
Proof. induction a as [|x a IH]; simpl; [reflexivity | now rewrite IH]. Qed.

Lemma drop_append (a b : string) :
  Str.drop (String.length a) (String.append a b) = b.
Proof. induction a as [|x a IH]; simpl; [now destruct b | exact IH]. Qed.

Lemma take_append (a b : string) :
  Str.take (String.length a) (String.append a b) = a.
Proof.
  induction a as [|x a IH]; simpl; [now destruct b | now rewrite IH].
Qed.

Lemma substring_all (a b : string) :
  String.substring 0 (String.length a) (String.append a b) = a.
Proof.
  induction a as [|x a IH]; simpl; [now destruct b | now rewrite IH].
Qed.

Lemma slice_append (p a b : string) :
  Str.slice (String.length p) (String.length p + String.length a)
    (String.append p (String.append a b)) = a.
Proof.
  unfold Str.slice.
  replace (String.length p + String.length a - String.length p)%nat
    with (String.length a) by lia.
  induction p as [|x p IH]; simpl; [apply substring_all | exact IH].
Qed.

Lemma split_last (s : string) :
  s <> "" -> exists p c, s = String.append p (String c "").
Proof.
  induction s as [|x s IH]; intros Hne; [congruence|].
  destruct s as [|y s].
  - exists "", x. reflexivity.
  - destruct IH as (p & c & E); [congruence|].
    exists (String x p), c. simpl. now rewrite <- E.
Qed.

End StrFacts.

(** ** [extract_json_block] *)

Module ExtractFacts.
Import Extract StrFacts.

Lemma brace_free_tail c p : brace_free (String c p) -> brace_free p.
Proof.
  unfold brace_free. simpl. destruct (Ascii.eqb c Str.lbrace); [discriminate|].
  destruct (Str.find_char Str.lbrace p); [discriminate | reflexivity].
Qed.

Lemma brace_free_head c p : brace_free (String c p) -> Ascii.eqb c Str.lbrace = false.
Proof.
  unfold brace_free. simpl. now destruct (Ascii.eqb c Str.lbrace).
Qed.

Lemma find_frame p m q :
  brace_free p -> Str.find_char Str.lbrace (frame p m q) = Some (String.length p).
Proof.
  unfold frame. induction p as [|c p IH]; intros Hp; simpl.
  - reflexivity.
  - rewrite (brace_free_head _ _ Hp), (IH (brace_free_tail _ _ Hp)). reflexivity.
Qed.

Lemma lstrip_frame p m q :
  brace_free p ->
  exists p', brace_free p' /\ Str.lstrip (frame p m q) = frame p' m q.
Proof.
  unfold frame. induction p as [|c p IH]; intros Hp.
  - exists "". split; [reflexivity | reflexivity].
  - simpl. destruct (Str.isspace c).
    + exact (IH (brace_free_tail _ _ Hp)).
    + exists (String c p). split; [exact Hp | reflexivity].
Qed.

Lemma rstrip_keeps a c q :
  Str.isspace c = false ->
  Str.rstrip (String.append a (String c q))
  = String.append a (String c (Str.rstrip q)).
Proof.
  intros Hc. induction a as [|x a IH]; simpl.
  - rewrite Hc. now destruct (Str.rstrip q).
  - rewrite IH. now destruct a.
Qed.

Lemma rstrip_frame p m q :
  Str.rstrip (frame p m q) = frame p m (Str.rstrip q).
Proof.
  unfold frame.
  change (String Str.lbrace (String.append m (String Str.rbrace q)))
    with (String.append (String Str.lbrace m) (String Str.rbrace q)).
  rewrite <- append_assoc3, rstrip_keeps by reflexivity.
  now rewrite append_assoc3.
Qed.

Lemma strip_frame p m q :
  brace_free p ->
  exists p' q', brace_free p' /\ Str.strip (frame p m q) = frame p' m q'.
Proof.
  intros Hp. destruct (lstrip_frame p m q Hp) as (p' & Hp' & E).
  exists p', (Str.rstrip q). split; [exact Hp'|].
  unfold Str.strip. now rewrite E, rstrip_frame.
Qed.

Lemma drop_fence fence : forall p m q,
  fence_ok fence = true -> brace_free p ->
  Str.prefix_ci fence (frame p m q) = true ->
  exists p', brace_free p' /\
    Str.drop (String.length fence) (frame p m q) = frame p' m q.
Proof.
  unfold frame.
  induction fence as [|f fence IH]; intros p m q Hok Hp Hpre.
  - exists p. split; [exact Hp | now destruct p].
  - cbn [fence_ok] in Hok. apply andb_true_iff in Hok.
    destruct Hok as [Hf Hrest]. apply negb_true_iff in Hf.
    destruct p as [|c p]; cbn [String.append Str.prefix_ci] in Hpre;
      apply andb_true_iff in Hpre; destruct Hpre as [Hc Hpre].
    + congruence.
    + cbn [String.length Str.drop String.append].
      apply IH; [exact Hrest | exact (brace_free_tail _ _ Hp) | exact Hpre].
Qed.

Lemma sub_fence_start_frame fence p m q :
  fence_ok fence = true -> brace_free p ->
  exists p', brace_free p' /\ sub_fence_start fence (frame p m q) = frame p' m q.
Proof.
  intros Hok Hp. unfold sub_fence_start.
  destruct (Str.prefix_ci fence (frame p m q)) eqn:E.
  - now apply drop_fence.
  - now exists p.
Qed.

Lemma fence_end_no_brace s :
  fence_end_here s = true -> Str.find_char Str.rbrace s = None.
Proof.
  unfold fence_end_here. intros H. apply orb_true_iff in H.
  destruct H as [H|H]; apply String.eqb_eq in H; subst s; reflexivity.
Qed.

Lemma find_rbrace a q :
  Str.find_char Str.rbrace (String.append a (String Str.rbrace q)) <> None.
Proof.
  induction a as [|c a IH]; cbn [String.append Str.find_char].
  - rewrite Ascii.eqb_refl. discriminate.
  - destruct (Ascii.eqb c Str.rbrace); [discriminate|].
    destruct (Str.find_char Str.rbrace (String.append a (String Str.rbrace q)));
      [discriminate | congruence].
Qed.

Lemma sub_fence_end_keeps a q :
  sub_fence_end (String.append a (String Str.rbrace q))
  = String.append a (String Str.rbrace (sub_fence_end q)).
Proof.
  induction a as [|c a IH].
  - cbn [String.append sub_fence_end].
    destruct (fence_end_here (String Str.rbrace q)) eqn:E; [|reflexivity].
    apply fence_end_no_brace in E. now destruct (find_rbrace "" q).
  - cbn [String.append sub_fence_end].
    destruct (fence_end_here (String c (String.append a (String Str.rbrace q))))
      eqn:E.
    + apply fence_end_no_brace in E. now destruct (find_rbrace (String c a) q).
    + now rewrite IH.
Qed.

Lemma sub_fence_end_frame p m q :
  sub_fence_end (frame p m q) = frame p m (sub_fence_end q).
Proof.
  unfold frame.
  change (String Str.lbrace (String.append m (String Str.rbrace q)))
    with (String.append (String Str.lbrace m) (String Str.rbrace q)).
  rewrite <- append_assoc3, sub_fence_end_keeps.
  now rewrite append_assoc3.
Qed.

(** The fences and the blanks around them go; the object stays. *)
Lemma strip_fences_frame p m q :
  brace_free p ->
  exists p' q', brace_free p' /\ strip_fences (frame p m q) = frame p' m q'.
Proof.
  intros Hp. unfold strip_fences.
  destruct (strip_frame p m q Hp) as (p1 & q1 & Hp1 & E1). rewrite E1.
  destruct (sub_fence_start_frame "```json" p1 m q1 eq_refl Hp1)
    as (p2 & Hp2 & E2). rewrite E2.
  destruct (strip_frame p2 m q1 Hp2) as (p3 & q3 & Hp3 & E3). rewrite E3.
  destruct (sub_fence_start_frame "```" p3 m q3 eq_refl Hp3)
    as (p4 & Hp4 & E4). rewrite E4.
  destruct (strip_frame p4 m q3 Hp4) as (p5 & q5 & Hp5 & E5). rewrite E5.
  rewrite sub_fence_end_frame.
  destruct (strip_frame p5 m (sub_fence_end q5) Hp5) as (p6 & q6 & Hp6 & E6).
  exists p6, q6. now split.
Qed.

(** *** The scanning loop against the tracker *)

Lemma track_append t a b :
  track t (String.append a b) = track (track t a) b.
Proof. revert t. induction a as [|c a IH]; intros t; simpl; [reflexivity | apply IH]. Qed.

(** One turn of the loop: it returns exactly when the step brings a
    positive depth to zero, and otherwise goes on in the state of
    [track_step]. *)
Lemma scan_step ch rest i t :
  0 < depth t ->
  scan (String ch rest) i (depth t) (in_string t) (escape_pending t)
  = if depth (track_step t ch) =? 0 then Some i
    else scan rest (S i) (depth (track_step t ch))
           (in_string (track_step t ch)) (escape_pending (track_step t ch)).
Proof.
  intros Hpos. destruct t as [d ins esc]. cbn [depth in_string escape_pending] in *.
  unfold track_step. cbn [scan depth in_string escape_pending].
  assert (Hd : (d =? 0) = false) by (apply Z.eqb_neq; lia).
  assert (Hd1 : (d + 1 =? 0) = false) by (apply Z.eqb_neq; lia).
  destruct esc; cbn [depth in_string escape_pending]; [now rewrite Hd|].
  destruct (Ascii.eqb ch Str.backslash); cbn [depth in_string escape_pending];
    [now rewrite Hd|].
  destruct (Ascii.eqb ch Str.dquote); cbn [depth in_string escape_pending];
    [now rewrite Hd|].
  destruct ins; cbn [negb depth in_string escape_pending]; [now rewrite Hd|].
  destruct (Ascii.eqb ch Str.lbrace); cbn [depth in_string escape_pending];
    [now rewrite Hd1|].
  destruct (Ascii.eqb ch Str.rbrace); cbn [depth in_string escape_pending];
    [|now rewrite Hd].
  now destruct (d - 1 =? 0).
Qed.

(** From a positive depth, the loop returns at the last character of the
    shortest stretch that brings the depth to zero. *)
Lemma scan_closes : forall s t i q,
  s <> "" ->
  0 < depth t ->
  depth (track t s) = 0 ->
  (forall a b, s = String.append a b -> a <> "" -> b <> "" ->
               0 < depth (track t a)) ->
  scan (String.append s q) i (depth t) (in_string t) (escape_pending t)
  = Some (i + String.length s - 1)%nat.
Proof.
  induction s as [|c s IH]; intros t i q Hne Hpos Hend Hopen; [congruence|].
  cbn [String.append]. rewrite scan_step by exact Hpos.
  destruct s as [|c' s].
  - cbn [track] in Hend. rewrite Hend. cbn. f_equal. lia.
  - assert (H1 : 0 < depth (track_step t c)).
    { apply (Hopen (String c "") (String c' s)); [reflexivity | congruence | congruence]. }
    replace (depth (track_step t c) =? 0) with false
      by (symmetry; apply Z.eqb_neq; lia).
    rewrite IH; [ | congruence | exact H1 | exact Hend | ].
    + f_equal. cbn [String.length]. lia.
    + intros a b E Ha Hb.
      apply (Hopen (String c a) b); [cbn; now rewrite E | congruence | exact Hb].
Qed.

(** A balanced span is [{m}] for some [m]. *)
Lemma balanced_shape span :
  balanced_span span ->
  exists m, span = String Str.lbrace (String.append m (String Str.rbrace "")).
Proof.
  intros (Hstart & Hend & Hopen).
  destruct span as [|c body]; [discriminate|].
  cbn [Str.prefix] in Hstart. apply andb_true_iff in Hstart.
  destruct Hstart as [Hc _]. apply Ascii.eqb_eq in Hc. subst c.
  destruct body as [|c body]; [cbn in Hend; lia|].
  destruct (split_last (String c body)) as (m & z & E); [congruence|].
  exists m. rewrite E. do 2 f_equal.
  assert (Hm : 0 < depth (track tracker0 (String "{" m))).
  { apply (Hopen (String "{" m) (String z "")); [cbn; now rewrite E | congruence | congruence]. }
  rewrite E in Hend.
  change (String "{" (String.append m (String z "")))
    with (String.append (String "{" m) (String z "")) in Hend.
  rewrite track_append in Hend.
  set (t := track tracker0 (String "{" m)) in *.
  cbn [track] in Hend. unfold track_step in Hend.
  destruct (escape_pending t); cbn [depth] in Hend; [lia|].
  destruct (Ascii.eqb z Str.backslash); cbn [depth] in Hend; [lia|].
  destruct (Ascii.eqb z Str.dquote); cbn [depth] in Hend; [lia|].
  destruct (in_string t); [lia|].
  destruct (Ascii.eqb z Str.lbrace); cbn [depth] in Hend; [lia|].
  destruct (Ascii.eqb z Str.rbrace) eqn:Ez; [|lia].
  apply Ascii.eqb_eq in Ez. now subst z.
Qed.

(** A text that is blank once trimmed stays empty through the fences. *)
Lemma strip_fences_blank raw : Str.strip raw = "" -> strip_fences raw = "".
Proof. intros H. unfold strip_fences. now rewrite H. Qed.

Lemma open_inside_sound : forall s t a b,
  open_inside t s = true -> s = String.append a b -> a <> "" -> b <> "" ->
  0 < depth (track t a).
Proof.
  induction s as [|c s IH]; intros t a b Hopen E Ha Hb.
  - destruct a; [congruence | discriminate].
  - destruct a as [|x a]; [congruence|]. cbn in E. injection E as -> E.
    cbn [open_inside] in Hopen. destruct s as [|c' s].
    + destruct a; [now destruct b | discriminate].
    + apply andb_true_iff in Hopen. destruct Hopen as [H1 H2].
      cbn [track]. destruct a as [|y a].
      * cbn [track]. now apply Z.ltb_lt.
      * apply (IH _ _ b H2 E); [congruence | exact Hb].
Qed.

Lemma balanced_spanb_sound span : balanced_spanb span = true -> balanced_span span.
Proof.
  unfold balanced_spanb. intros H.
  apply andb_true_iff in H. destruct H as [H H3].
  apply andb_true_iff in H. destruct H as [H1 H2].
  split; [exact H1|]. split; [now apply Z.eqb_eq|].
  intros p q E Hp Hq. exact (open_inside_sound _ _ _ _ H3 E Hp Hq).
Qed.

End ExtractFacts.

Module ExtractClaims.
Import Extract StrFacts ExtractFacts.

(** C3.  When the first opening brace of the text starts a balanced span
    (braces counted outside quoted strings only, an escaped character
    never counted, a double backslash arming no further escape),
    [extract_json_block] returns exactly that span: from the brace to the
    first position where the depth is back to zero, inclusive.  For the
    example text, whose string value holds a closing brace, it returns
    the whole outer object, not a cut at the brace inside the string. *)
Theorem extract_json_block_balanced :
  (forall pre span post : string,
      Str.find_char Str.lbrace pre = None ->
      balanced_span span ->
      extract_json_block (String.append pre (String.append span post))
      = Ok span)
  /\ extract_json_block embedded_brace_text = Ok embedded_brace_object.
Proof.
  split; [|reflexivity].
  intros pre span post Hpre Hbal.
  destruct (balanced_shape span Hbal) as (m & E).
  destruct Hbal as (_ & Hend & Hopen).
  assert (Eraw : String.append pre (String.append span post) = frame pre m post).
  { unfold frame. rewrite E. cbn [String.append]. now rewrite append_assoc3. }
  unfold extract_json_block. rewrite Eraw.
  replace (Str.nonempty (frame pre m post)) with true
    by (unfold frame; now destruct pre).
  cbn [negb].
  destruct (strip_fences_frame pre m post Hpre) as (p & q & Hp & Etext).
  rewrite Etext, (find_frame p m q Hp).
  unfold frame at 1. rewrite drop_append.
  cbn [scan]. change (Ascii.eqb Str.lbrace Str.backslash) with false.
  change (Ascii.eqb Str.lbrace Str.dquote) with false.
  cbn [negb]. rewrite Ascii.eqb_refl.
  assert (Hm : String.append m (String Str.rbrace "") <> "") by now destruct m.
  pose proof (scan_closes (String.append m (String Str.rbrace ""))
                {| depth := 0 + 1; in_string := false; escape_pending := false |}
                (S (String.length p)) q Hm) as Hscan.
  cbn [depth in_string escape_pending] in Hscan.
  rewrite append_assoc3 in Hscan. cbn [String.append] in Hscan.
  rewrite Hscan; [ | lia | | ].
  - f_equal.
    replace (S (String.length p) + String.length (String.append m (String Str.rbrace "")) - 1 + 1)%nat
      with (String.length p + String.length span)%nat
      by (rewrite E; cbn [String.length]; lia).
    unfold frame.
    change (String Str.lbrace (String.append m (String Str.rbrace q)))
      with (String.append (String Str.lbrace m) (String.append (String Str.rbrace "") q)).
    rewrite <- (append_assoc3 (String Str.lbrace m)).
    change (String.append (String Str.lbrace m) (String Str.rbrace ""))
      with (String Str.lbrace (String.append m (String Str.rbrace ""))).
    rewrite <- E. apply slice_append.
  - rewrite E in Hend. exact Hend.
  - intros a b Eab Ha Hb.
    apply (Hopen (String Str.lbrace a) b); [ | congruence | exact Hb].
    rewrite E. cbn [String.append]. now rewrite Eab.
Qed.

Lemma extract_json_block_balanced_witness :
  extract_json_block
    (String.append "Here is your plan: "
       (String.append embedded_brace_object " Enjoy!"))
  = Ok embedded_brace_object.
Proof.
  apply (proj1 extract_json_block_balanced).
  - reflexivity.
  - apply balanced_spanb_sound. vm_compute. reflexivity.
Defined.

(** C4, as the code has it.  An empty text raises the empty-input error;
    a text that is not empty but blank once trimmed raises the
    no-object-start error. *)
Theorem extract_json_block_blank (raw_text : string) :
  Str.strip raw_text = "" ->
  extract_json_block raw_text
  = Raise (if Str.nonempty raw_text then NoObjectStartError else EmptyInputError).
Proof.
  intros H. unfold extract_json_block.
  destruct (Str.nonempty raw_text); cbn [negb]; [|reflexivity].
  now rewrite (strip_fences_blank _ H).
Qed.

Lemma extract_json_block_blank_witness :
  extract_json_block "   " = Raise NoObjectStartError.
Proof. apply (extract_json_block_blank "   "). reflexivity. Defined.

(** C4 as stated fails: one blank is empty once trimmed and does not
    raise the empty-input error. *)
Lemma extract_json_block_blank_counterexample :
  ~ (forall raw_text : string,
        Str.strip raw_text = "" ->
        extract_json_block raw_text = Raise EmptyInputError).
Proof.
  intros H. specialize (H " " eq_refl). discriminate H.
Qed.

End ExtractClaims.

(** ** [parse_extra_sections] *)

Module SectionsFacts.
Import Re Sections StrFacts.

Lemma lstrip_idempotent s : Str.lstrip (Str.lstrip s) = Str.lstrip s.
Proof.
  induction s as [|c s IH]; [reflexivity|].
  cbn [Str.lstrip]. destruct (Str.isspace c) eqn:E; [exact IH|].
  cbn [Str.lstrip]. now rewrite E.
Qed.

(** [\s*] in front of a rest [k] that matches behind the blanks. *)
Lemma greedy_space (space : step) k :
  (forall s caps k', space s caps k' = run Space s caps k') ->
  forall s fuel caps c,
    (String.length s <= fuel)%nat ->
    k (Str.lstrip s) caps = Some c ->
    star_greedy space k fuel s caps = Some c.
Proof.
  intros Hstep.
  induction s as [|x s IH]; intros fuel caps c Hfuel Hk.
  - destruct fuel; cbn [star_greedy]; [exact Hk|]. rewrite Hstep. exact Hk.
  - destruct fuel as [|fuel]; [cbn in Hfuel; lia|].
    cbn [star_greedy]. rewrite Hstep. cbn [run]. cbn [Str.lstrip] in Hk.
    destruct (Str.isspace x).
    + cbn [String.length]. rewrite (proj2 (Nat.ltb_lt _ _)) by lia.
      rewrite (IH fuel caps c); [reflexivity | cbn in Hfuel; lia | exact Hk].
    + cbn [first_of]. exact Hk.
Qed.

(** [.*] in front of a rest that matches at the end of the text. *)
Lemma greedy_dot (dot : step) k :
  (forall s caps k', dot s caps k' = run Dot s caps k') ->
  forall s fuel caps c,
    (String.length s <= fuel)%nat ->
    k "" caps = Some c ->
    star_greedy dot k fuel s caps = Some c.
Proof.
  intros Hstep.
  induction s as [|x s IH]; intros fuel caps c Hfuel Hk.
  - destruct fuel; cbn [star_greedy]; [exact Hk|]. rewrite Hstep. exact Hk.
  - destruct fuel as [|fuel]; [cbn in Hfuel; lia|].
    cbn [star_greedy]. rewrite Hstep. cbn [run String.length].
    rewrite (proj2 (Nat.ltb_lt _ _)) by lia.
    rewrite (IH fuel caps c); [reflexivity | cbn in Hfuel; lia | exact Hk].
Qed.

Lemma ends_at_two a b :
  ends_at (Group 2 (Alt (Lit a) (Alt (Lit b) Eos))) [a; b].
Proof.
  intros s caps. unfold stop_here. cbn [existsb run accept].
  destruct (Str.prefix_ci a s); cbn [orb first_of]; [unfold accept; eauto|].
  destruct (Str.prefix_ci b s); cbn [orb first_of]; [unfold accept; eauto|].
  destruct (at_end s); cbn [first_of]; unfold accept; eauto.
Qed.

Lemma ends_at_one a : ends_at (Group 2 (Alt (Lit a) Eos)) [a].
Proof.
  intros s caps. unfold stop_here. cbn [existsb run accept].
  destruct (Str.prefix_ci a s); cbn [orb first_of]; [unfold accept; eauto|].
  destruct (at_end s); cbn [first_of]; unfold accept; eauto.
Qed.

Lemma stop_here_empty phrases s : s = "" -> stop_here phrases s = true.
Proof. intros ->. unfold stop_here. apply orb_true_r. Qed.

(** [(.*?)(?=...)]: group 1 is the text up to the first stop. *)
Lemma lazy_capture (dot ahead : step) phrases :
  (forall s caps k', dot s caps k' = run Dot s caps k') ->
  (forall s caps,
      if stop_here phrases s
      then exists g, ahead s caps accept = Some ((2%nat, g) :: caps)
      else ahead s caps accept = None) ->
  forall s pre fuel,
    (String.length s <= fuel)%nat ->
    exists g,
      star_lazy dot
        (fun s' caps' =>
           ahead s'
             ((1%nat, Str.take (String.length (String.append pre s) - String.length s')
                        (String.append pre s)) :: caps') accept)
        fuel s []
      = Some [(2%nat, g); (1%nat, String.append pre (until_stop phrases s))].
Proof.
  intros Hdot HA.
  induction s as [|x s IH]; intros pre fuel Hfuel.
  - assert (E : Str.take (String.length (String.append pre "") - String.length "")
                  (String.append pre "") = String.append pre "").
    { cbn [String.length]. rewrite Nat.sub_0_r.
      rewrite <- (append_empty_r (String.append pre "")) at 2.
      apply take_append. }
    pose proof (HA "" [(1%nat, String.append pre "")]) as H.
    rewrite (stop_here_empty phrases "" eq_refl) in H. destruct H as (g & H).
    exists g. cbn [until_stop]. rewrite (stop_here_empty phrases "" eq_refl).
    destruct fuel; cbn [star_lazy]; rewrite E, H; reflexivity.
  - destruct fuel as [|fuel]; [cbn in Hfuel; lia|].
    cbn [star_lazy].
    assert (E : Str.take (String.length (String.append pre (String x s))
                          - String.length (String x s))
                  (String.append pre (String x s)) = pre).
    { rewrite append_length.
      replace (String.length pre + String.length (String x s)
               - String.length (String x s))%nat
        with (String.length pre) by lia.
      apply take_append. }
    rewrite E. pose proof (HA (String x s) [(1%nat, pre)]) as H.
    cbn [until_stop]. destruct (stop_here phrases (String x s)).
    + destruct H as (g & H). exists g. rewrite H. cbn [first_of].
      now rewrite append_empty_r.
    + rewrite H. cbn [first_of]. rewrite Hdot. cbn [run String.length].
      rewrite (proj2 (Nat.ltb_lt _ _)) by lia.
      destruct (IH (String.append pre (String x "")) fuel) as (g & Hg);
        [cbn in Hfuel; lia|].
      exists g. rewrite !append_assoc3 in Hg. cbn [String.append] in Hg.
      exact Hg.
Qed.

Lemma lazy_tail_run A phrases (HA : ends_at A phrases) s :
  exists g,
    run (lazy_tail A) s [] accept
    = Some [(2%nat, g); (1%nat, until_stop phrases (Str.lstrip s))].
Proof.
  destruct (lazy_capture (run Dot) (run (Ahead A)) phrases
              (fun _ _ _ => eq_refl) HA (Str.lstrip s) ""
              (String.length (Str.lstrip s)))
    as (g & Hg); [lia|].
  exists g.
  change (run (lazy_tail A) s [] accept)
    with (star_greedy (run Space)
            (fun s' caps' => run (Group 1 (LazyStar Dot) +++ Ahead A) s' caps' accept)
            (String.length s) s []).
  apply greedy_space; [reflexivity | lia | exact Hg].
Qed.

Lemma greedy_tail_run s :
  run greedy_tail s [] accept = Some [(1%nat, Str.lstrip s)].
Proof.
  change (run greedy_tail s [] accept)
    with (star_greedy (run Space)
            (fun s' caps' => run (Group 1 (Star Dot) +++ Eos) s' caps' accept)
            (String.length s) s []).
  apply greedy_space; [reflexivity | lia |].
  change (run (Group 1 (Star Dot) +++ Eos) (Str.lstrip s) [] accept)
    with (star_greedy (run Dot)
            (fun s' caps' =>
               run Eos s'
                 ((1%nat, Str.take (String.length (Str.lstrip s) - String.length s')
                            (Str.lstrip s)) :: caps') accept)
            (String.length (Str.lstrip s)) (Str.lstrip s) []).
  apply greedy_dot; [reflexivity | lia |].
  cbn [run at_end String.eqb orb String.length accept].
  rewrite Nat.sub_0_r. rewrite <- (append_empty_r (Str.lstrip s)) at 2.
  now rewrite take_append.
Qed.

(** [[:\-]] accepts the colon and the dash, and nothing else. *)
Lemma sep_chars c :
  existsb (fun x => Ascii.eqb (Str.lower_char x) (Str.lower_char c))
    [":"%char; "-"%char]
  = (Ascii.eqb c ":" || Ascii.eqb c "-")%bool.
Proof. destruct c as [[] [] [] [] [] [] [] []]; reflexivity. Qed.

Lemma first_of_some a b : a <> None -> first_of a b = a.
Proof. now destruct a. Qed.

Lemma labelled_sep key L T :
  String.eqb key "famous_shopping" = false ->
  label key = L ->
  total T ->
  labelled key (Lit L +++ sep +++ T) T.
Proof.
  intros Hkey HL HT s. unfold label_here. rewrite Hkey, HL.
  change (run (Lit L +++ sep +++ T) s [] accept)
    with (if Str.prefix_ci L s
          then first_of
                 (run (Chars [":"%char; "-"%char])
                    (Str.drop (String.length L) s) []
                    (fun s' caps' => run T s' caps' accept))
                 (run T (Str.drop (String.length L) s) [] accept)
          else None).
  destruct (Str.prefix_ci L s); [|reflexivity].
  destruct (Str.drop (String.length L) s) as [|c rest]; [reflexivity|].
  cbn [run skip_sep]. rewrite sep_chars.
  destruct (Ascii.eqb c ":" || Ascii.eqb c "-")%bool; [|reflexivity].
  apply first_of_some, HT.
Qed.

Lemma labelled_famous T :
  total T ->
  labelled "famous_shopping"
    (Lit "Famous shopping" +++ Opt (Lit " recommendations") +++ Lit ":" +++ T) T.
Proof.
  intros HT s. unfold label_here.
  change (String.eqb "famous_shopping" "famous_shopping") with true.
  change (label "famous_shopping") with "Famous shopping".
  cbv iota.
  set (rest := Str.drop (String.length "Famous shopping") s).
  set (long := Str.drop (String.length " recommendations") rest).
  change (run (Lit "Famous shopping" +++ Opt (Lit " recommendations")
               +++ Lit ":" +++ T) s [] accept)
    with (if Str.prefix_ci "Famous shopping" s
          then first_of
                 (if Str.prefix_ci " recommendations" rest
                  then if Str.prefix_ci ":" long
                       then run T (Str.drop 1 long) [] accept else None
                  else None)
                 (if Str.prefix_ci ":" rest
                  then run T (Str.drop 1 rest) [] accept else None)
          else None).
  destruct (Str.prefix_ci "Famous shopping" s); [|reflexivity].
  destruct (Str.prefix_ci " recommendations" rest); cbn [andb first_of];
    [|now destruct (Str.prefix_ci ":" rest)].
  destruct (Str.prefix_ci ":" long); cbn [first_of];
    [|now destruct (Str.prefix_ci ":" rest)].
  apply first_of_some, HT.
Qed.

(** [re.search] finds the leftmost label. *)
Lemma search_labelled key pat T :
  labelled key pat T -> total T ->
  forall s,
    search pat s
    = match after_label key s with
      | Some rest => run T rest [] accept
      | None => None
      end.
Proof.
  intros Hpat HT. induction s as [|c s IH]; cbn [search after_label];
    rewrite Hpat.
  - destruct (label_here key "") as [rest|]; [|reflexivity].
    specialize (HT rest). now destruct (run T rest [] accept).
  - destruct (label_here key (String c s)) as [rest|]; [|exact IH].
    specialize (HT rest). now destruct (run T rest [] accept).
Qed.

Lemma lazy_tail_total A phrases : ends_at A phrases -> total (lazy_tail A).
Proof.
  intros HA s. destruct (lazy_tail_run A phrases HA s) as (g & E).
  rewrite E. discriminate.
Qed.

Lemma greedy_tail_total : total greedy_tail.
Proof. intros s. rewrite greedy_tail_run. discriminate. Qed.

(** What a star_lazy pattern yields for its key. *)
Lemma captured_lazy key pat A :
  String.eqb key "closing_note" = false ->
  labelled key pat (lazy_tail A) ->
  ends_at A (stops key) ->
  forall text, captured (search pat text) = Ok (section_text key text).
Proof.
  intros Hkey Hpat HA text.
  rewrite (search_labelled key pat _ Hpat (lazy_tail_total A _ HA)).
  unfold section_text. rewrite Hkey.
  destruct (after_label key text) as [rest|]; [|reflexivity].
  destruct (lazy_tail_run A (stops key) HA rest) as (g & E). now rewrite E.
Qed.

Lemma captured_closing text :
  captured (search (Lit "Closing note" +++ sep +++ greedy_tail) text)
  = Ok (section_text "closing_note" text).
Proof.
  rewrite (search_labelled "closing_note" _ greedy_tail
             (labelled_sep "closing_note" "Closing note" greedy_tail
                eq_refl eq_refl greedy_tail_total)
             greedy_tail_total).
  unfold section_text. change (String.eqb "closing_note" "closing_note") with true.
  destruct (after_label "closing_note" text) as [rest|]; [|reflexivity].
  rewrite greedy_tail_run. cbn [captured group Nat.eqb].
  unfold Str.strip. now rewrite lstrip_idempotent.
Qed.

(** All six captures at once. *)
Lemma parse_extra_sections_eq text :
  parse_extra_sections text
  = Ok (map (fun key => (key, section_text key text)) section_keys).
Proof.
  unfold parse_extra_sections. destruct text as [|c text]; [reflexivity|].
  cbn [Str.nonempty negb]. set (t := String c text).
  unfold patterns. cbn [collect].
  rewrite (captured_lazy "famous_shopping" _ _ eq_refl
             (labelled_famous _ (lazy_tail_total _ _ (ends_at_two _ _)))
             (ends_at_two _ _)).
  cbn [bind].
  rewrite (captured_lazy "what_to_pack" _ _ eq_refl
             (labelled_sep "what_to_pack" _ _ eq_refl eq_refl
                (lazy_tail_total _ _ (ends_at_two _ _)))
             (ends_at_two _ _)).
  cbn [bind].
  rewrite (captured_lazy "safety_rules" _ _ eq_refl
             (labelled_sep "safety_rules" _ _ eq_refl eq_refl
                (lazy_tail_total _ _ (ends_at_two _ _)))
             (ends_at_two _ _)).
  cbn [bind].
  rewrite (captured_lazy "extra_travel_tips" _ _ eq_refl
             (labelled_sep "extra_travel_tips" _ _ eq_refl eq_refl
                (lazy_tail_total _ _ (ends_at_two _ _)))
             (ends_at_two _ _)).
  cbn [bind].
  rewrite (captured_lazy "estimated_total_budget" _ _ eq_refl
             (labelled_sep "estimated_total_budget" _ _ eq_refl eq_refl
                (lazy_tail_total _ _ (ends_at_one _)))
             (ends_at_one _)).
  cbn [bind].
  rewrite captured_closing. cbn [bind].
  reflexivity.
Qed.

(** [until_stop] cuts at a stop, and at the first one. *)
Lemma until_stop_cut phrases : forall s,
  exists tail,
    s = String.append (until_stop phrases s) tail /\
    stop_here phrases tail = true /\
    forall a b, until_stop phrases s = String.append a b -> b <> "" ->
                stop_here phrases (String.append b tail) = false.
Proof.
  induction s as [|c s IH]; cbn [until_stop].
  - rewrite (stop_here_empty phrases "" eq_refl). exists "".
    split; [reflexivity|]. split; [now apply stop_here_empty|].
    intros a b E Hb. destruct a; cbn in E; [congruence | discriminate].
  - destruct (stop_here phrases (String c s)) eqn:Hstop.
    + exists (String c s). split; [reflexivity|]. split; [exact Hstop|].
      intros a b E Hb. destruct a; cbn in E; [congruence | discriminate].
    + destruct IH as (tail & E & Htail & Hfirst). exists tail.
      split; [cbn; now rewrite <- E|]. split; [exact Htail|].
      intros a b Eab Hb. destruct a as [|x a]; cbn in Eab.
      * subst b. cbn [String.append]. now rewrite <- E.
      * injection Eab as _ Eab. now apply (Hfirst a b).
Qed.

Lemma lookup_sections text key :
  In key section_keys ->
  Dict.lookup key (map (fun k => (k, section_text k text)) section_keys)
  = Some (section_text key text).
Proof.
  intros Hin. cbn in Hin.
  repeat (destruct Hin as [<-|Hin]; [reflexivity|]). contradiction.
Qed.

Lemma after_label_absent key : forall s,
  occurs (label key) s = false -> after_label key s = None.
Proof.
  induction s as [|c s IH]; cbn [occurs after_label]; intros H;
    apply orb_false_iff in H; destruct H as [H1 H2];
    unfold label_here; rewrite H1; [reflexivity | now apply IH].
Qed.

End SectionsFacts.

Module SectionsClaims.
Import Re Sections SectionsFacts.

(** C5, as the code has it.  For each of the six keys the capture starts
    behind the leftmost label phrase (with its separator and the blanks
    after it) and runs to the first position at which one of the key's
    own stop phrases stands -- the next two labels of the pipeline, the
    next one for the budget, none for the closing note -- or to the end
    of the text; the captured text is trimmed.  A missing label gives
    the empty string. *)
Theorem parse_extra_sections_captures (text key : string) :
  In key section_keys ->
  exists out,
    parse_extra_sections text = Ok out /\
    match after_label key text with
    | None => Dict.lookup key out = Some ""
    | Some rest =>
        if String.eqb key "closing_note"
        then Dict.lookup key out = Some (Str.strip rest)
        else exists body tail,
               Str.lstrip rest = String.append body tail /\
               stop_here (stops key) tail = true /\
               (forall a b, body = String.append a b -> b <> "" ->
                            stop_here (stops key) (String.append b tail) = false) /\
               Dict.lookup key out = Some (Str.strip body)
    end.
Proof.
  intros Hin. eexists. split; [apply parse_extra_sections_eq|].
  rewrite (lookup_sections text key Hin). unfold section_text.
  destruct (after_label key text) as [rest|]; [|reflexivity].
  destruct (String.eqb key "closing_note"); [reflexivity|].
  destruct (until_stop_cut (stops key) (Str.lstrip rest)) as (tail & E & Ht & Hf).
  exists (until_stop (stops key) (Str.lstrip rest)), tail. auto.
Qed.

Lemma parse_extra_sections_captures_witness :
  exists out,
    parse_extra_sections "What to pack: socks Closing note: bye" = Ok out /\
    exists body tail,
      "socks Closing note: bye" = String.append body tail /\
      stop_here (stops "what_to_pack") tail = true /\
      (forall a b, body = String.append a b -> b <> "" ->
                   stop_here (stops "what_to_pack") (String.append b tail) = false) /\
      Dict.lookup "what_to_pack" out = Some (Str.strip body).
Proof.
  apply (parse_extra_sections_captures
           "What to pack: socks Closing note: bye" "what_to_pack").
  cbn. auto.
Defined.

(** C5 as stated fails: the capture of a key can run past a later label.
    Behind [Famous shopping:] only [What to pack] and [Safety rules]
    end the capture, so a following [Closing note] is swallowed. *)
Lemma parse_extra_sections_captures_counterexample :
  ~ (forall text key out captured later,
        In key section_keys ->
        parse_extra_sections text = Ok out ->
        Dict.lookup key out = Some captured ->
        In later (later_labels key) ->
        occurs later captured = false).
Proof.
  intros H.
  specialize (H "Famous shopping: A Closing note: B" "famous_shopping"
                _ "A Closing note: B" "Closing note"
                (or_introl eq_refl) eq_refl eq_refl).
  cbn in H. discriminate H. do 4 right. now left.
Qed.

(** C9.  Whatever the text, the empty one included, the result is a
    mapping with exactly the six keys, each bound to a string, and a key
    whose label phrase occurs nowhere in the text is bound to the empty
    string. *)
Theorem parse_extra_sections_total (text : string) :
  exists out,
    parse_extra_sections text = Ok out /\
    Dict.keys out = section_keys /\
    forall key, In key section_keys ->
      (exists v : string, Dict.lookup key out = Some v) /\
      (occurs (label key) text = false -> Dict.lookup key out = Some "").
Proof.
  eexists. split; [apply parse_extra_sections_eq|]. split; [reflexivity|].
  intros key Hin. rewrite (lookup_sections text key Hin). split; [eauto|].
  intros Habs. unfold section_text. now rewrite (after_label_absent key text Habs).
Qed.

Lemma parse_extra_sections_total_witness :
  exists out,
    parse_extra_sections "Safety rules: stay on the marked trails" = Ok out /\
    Dict.keys out = section_keys /\
    Dict.lookup "closing_note" out = Some "".
Proof.
  destruct (parse_extra_sections_total "Safety rules: stay on the marked trails")
    as (out & Hout & Hkeys & Hall).
  exists out. split; [exact Hout|]. split; [exact Hkeys|].
  apply (Hall "closing_note"); [cbn; auto 7 | reflexivity].
Defined.

End SectionsClaims.

(** ** [normalize_daywise_schema] *)

Module NormalizeFacts.
Import Py Normalize.
Local Open Scope list_scope.

(** *** The error monad *)

Lemma bind_ok {A B : Type} (m : result A) (f : A -> result B) (b : B) :
  bind m f = Ok b -> exists a, m = Ok a /\ f a = Ok b.
Proof. destruct m as [a|e]; cbn; [eauto | discriminate]. Qed.

Lemma or_else_ok (x y : json) :
  or_else (Ok x) (Ok y) = Ok (if truthy x then x else y).
Proof. unfold or_else. cbn. now destruct (truthy x). Qed.

(** *** Dicts *)

Lemma mem_set {V : Type} key (v : V) d : Dict.mem key (Dict.set key v d) = true.
Proof.
  unfold Dict.mem. induction d as [|[k w] d IH]; cbn.
  - now rewrite String.eqb_refl.
  - destruct (String.eqb k key) eqn:E; cbn; rewrite E; [reflexivity | exact IH].
Qed.

Lemma lookup_set_other {V : Type} key key' (v : V) d :
  String.eqb key key' = false ->
  Dict.lookup key' (Dict.set key v d) = Dict.lookup key' d.
Proof.
  intros Hne. induction d as [|[k w] d IH]; cbn.
  - rewrite Hne. reflexivity.
  - destruct (String.eqb k key) eqn:E; cbn.
    + apply String.eqb_eq in E. subst k. now rewrite Hne.
    + destruct (String.eqb k key'); [reflexivity | exact IH].
Qed.

Lemma setdefault_present {V : Type} key (v : V) d :
  Dict.mem key d = true -> Dict.setdefault key v d = d.
Proof. unfold Dict.setdefault. now intros ->. Qed.

Lemma mem_setdefault {V : Type} key (v : V) d :
  Dict.mem key (Dict.setdefault key v d) = true.
Proof.
  unfold Dict.setdefault. destruct (Dict.mem key d) eqn:E; [exact E | apply mem_set].
Qed.

Lemma mem_setdefault_keeps {V : Type} key key' (v : V) d :
  Dict.mem key' d = true -> Dict.mem key' (Dict.setdefault key v d) = true.
Proof.
  unfold Dict.setdefault. intros H. destruct (Dict.mem key d); [exact H|].
  destruct (String.eqb key key') eqn:E.
  - apply String.eqb_eq in E. subst key'. apply mem_set.
  - unfold Dict.mem in *. now rewrite lookup_set_other.
Qed.

Lemma mem_nonempty {V : Type} key (d : Dict.t V) :
  Dict.mem key d = true -> d <> [].
Proof. now destruct d. Qed.

(** *** The time blocks *)

Lemma ensure_morning_ok v r :
  ensure_morning v = Ok r ->
  exists m, r = JDict m /\ morning_full m.
Proof.
  destruct v; try discriminate. unfold ensure_morning.
  cbn [setdefault bind]. intros H. injection H as <-.
  eexists. split; [reflexivity|]. unfold morning_full.
  repeat split; repeat first [apply mem_setdefault | apply mem_setdefault_keeps].
Qed.

Lemma ensure_block_ok meal v r :
  ensure_block meal v = Ok r ->
  exists m, r = JDict m /\ block_full meal m.
Proof.
  destruct v; try discriminate. unfold ensure_block.
  cbn [setdefault bind]. intros H. injection H as <-.
  eexists. split; [reflexivity|]. unfold block_full.
  repeat split; repeat first [apply mem_setdefault | apply mem_setdefault_keeps].
Qed.

Lemma ensure_morning_full m :
  morning_full m -> ensure_morning (JDict m) = Ok (JDict m).
Proof.
  intros (H1 & H2 & H3 & H4 & H5). unfold ensure_morning. cbn [setdefault bind].
  now rewrite (setdefault_present _ _ _ H1), (setdefault_present _ _ _ H2),
    (setdefault_present _ _ _ H3), (setdefault_present _ _ _ H4),
    (setdefault_present _ _ _ H5).
Qed.

Lemma ensure_block_full meal m :
  block_full meal m -> ensure_block meal (JDict m) = Ok (JDict m).
Proof.
  intros (H1 & H2 & H3 & H4). unfold ensure_block. cbn [setdefault bind].
  now rewrite (setdefault_present _ _ _ H1), (setdefault_present _ _ _ H2),
    (setdefault_present _ _ _ H3), (setdefault_present _ _ _ H4).
Qed.

Lemma legacy_meal_dict items key :
  exists b, legacy_meal (JDict items) key = Ok (JDict b).
Proof.
  unfold legacy_meal. cbn [isinstance_dict get get_default bind].
  destruct (Dict.get key JNull items); cbn [isinstance_dict bind]; eauto.
Qed.

(** *** One entry *)

Ltac bind_inv H x Hx :=
  apply bind_ok in H; destruct H as (x & Hx & H).

Lemma truthy_or x y :
  truthy y = true -> truthy (if truthy x then x else y) = true.
Proof. intros Hy. now destruct (truthy x) eqn:E. Qed.

Lemma mem_lookup {V : Type} key (d : Dict.t V) :
  Dict.mem key d = true -> exists v, Dict.lookup key d = Some v.
Proof. unfold Dict.mem. destruct (Dict.lookup key d); [eauto | discriminate]. Qed.

Lemma replace_star_ok v t :
  replace_star v = Ok t -> exists s, v = JStr s /\ t = Str.remove_char Str.star s.
Proof. destruct v; try discriminate. cbn. intros H. injection H as <-. eauto. Qed.

(** What a returned entry looks like. *)
Lemma normalize_entry_shape i d places r :
  normalize_entry i d places = Ok r ->
  exists items title m a e pv,
    d = JDict items /\
    r = record (own_or_index i items) title (JDict m) (JDict a) (JDict e)
          (Dict.get "transport_note_if_long" JNull items) (tips_of items)
          (image_json (select_image (normalized_name pv) places)) /\
    truthy title = true /\
    morning_full m /\ block_full "lunch" a /\ block_full "dinner" e /\
    Dict.lookup "place_to_visit" m = Some (JStr pv).
Proof.
  intros H. destruct d as [| | | | | |items]; try (lazy in H; discriminate H).
  exists items. unfold normalize_entry in H.
  cbn [isinstance_dict get get_default bind] in H.
  replace (if truthy (Dict.get "day" JNull items)
           then Ok (Dict.get "day" JNull items)
           else Ok (JInt (Z.of_nat i + 1)))
    with (Ok (own_or_index i items)) in H
    by (unfold own_or_index; now destruct (truthy (Dict.get "day" JNull items))).
  cbn [bind] in H. rewrite !or_else_ok in H. cbn [bind] in H.
  fold (tips_of items) in H.
  bind_inv H blocks Hblocks. destruct blocks as [[mo af] ev].
  bind_inv H m1 Hm. bind_inv H a1 Ha. bind_inv H e1 He.
  destruct (ensure_morning_ok _ _ Hm) as (m & -> & Hmf).
  destruct (ensure_block_ok _ _ _ Ha) as (a & -> & Haf).
  destruct (ensure_block_ok _ _ _ He) as (e & -> & Hef).
  cbn [get_default bind] in H. bind_inv H starless Hstar.
  destruct (replace_star_ok _ _ Hstar) as (pv & Hpv & ->).
  injection H as <-.
  eexists _, m, a, e, pv. split; [reflexivity|]. split; [reflexivity|].
  split; [apply truthy_or; reflexivity|].
  split; [exact Hmf|]. split; [exact Haf|]. split; [exact Hef|].
  destruct Hmf as (_ & _ & Hp & _). destruct (mem_lookup _ _ Hp) as (v & Hv).
  unfold Dict.get in Hpv. rewrite Hv in Hpv. now subst v.
Qed.

Lemma own_or_index_truthy i items : truthy (own_or_index i items) = true.
Proof.
  unfold own_or_index. destruct (truthy (Dict.get "day" JNull items)) eqn:E;
    [exact E|]. cbn. apply negb_true_iff, Z.eqb_neq. lia.
Qed.

Lemma tips_of_cases items :
  truthy (tips_of items) = true \/ tips_of items = JStr "".
Proof.
  unfold tips_of.
  destruct (truthy (if truthy (Dict.get "day_tips" JNull items)
                    then Dict.get "day_tips" JNull items
                    else Dict.get "tips" JNull items)) eqn:E; auto.
Qed.

Lemma truthy_full_morning m : morning_full m -> truthy (JDict m) = true.
Proof. intros (H & _). now destruct m. Qed.

Lemma truthy_full_block meal m : block_full meal m -> truthy (JDict m) = true.
Proof. intros (H & _). now destruct m. Qed.

(** A record in the output shape normalizes to itself, at any index. *)
Lemma record_fixed j day title m a e note tips pv image places :
  truthy day = true -> truthy title = true ->
  morning_full m -> block_full "lunch" a -> block_full "dinner" e ->
  Dict.lookup "place_to_visit" m = Some (JStr pv) ->
  truthy tips = true \/ tips = JStr "" ->
  image = image_json (select_image (normalized_name pv) places) ->
  normalize_entry j (record day title (JDict m) (JDict a) (JDict e) note tips image)
    places
  = Ok (record day title (JDict m) (JDict a) (JDict e) note tips image).
Proof.
  intros Hday Htitle Hm Ha He Hpv Htips Himage.
  unfold normalize_entry, record.
  cbn [isinstance_dict get get_default bind].
  change (Dict.get "day" JNull _) with day.
  change (Dict.get "title" JNull _) with title.
  change (Dict.get "morning" JNull _) with (JDict m).
  change (Dict.get "afternoon" JNull _) with (JDict a).
  change (Dict.get "evening" JNull _) with (JDict e).
  change (Dict.get "transport_note_if_long" JNull _) with note.
  change (Dict.get "day_tips" JNull _) with tips.
  change (Dict.get "tips" JNull _) with JNull.
  change (Dict.mem "morning" _) with true.
  change (Dict.mem "afternoon" _) with true.
  change (Dict.mem "evening" _) with true.
  rewrite Hday. cbn [bind andb]. rewrite !or_else_ok. cbn [bind].
  rewrite Htitle, (truthy_full_morning m Hm), (truthy_full_block _ a Ha),
    (truthy_full_block _ e He).
  rewrite (ensure_morning_full m Hm), (ensure_block_full _ a Ha),
    (ensure_block_full _ e He).
  cbn [bind get_default]. unfold Dict.get at 1. rewrite Hpv.
  cbn [replace_star bind]. fold (normalized_name pv). rewrite <- Himage.
  cbv iota. rewrite Htitle.
  destruct Htips as [Ht | ->]; [|reflexivity].
  rewrite Ht. cbv iota. now rewrite Ht.
Qed.

Lemma normalize_entry_fixed i d places r :
  normalize_entry i d places = Ok r -> fixed places r.
Proof.
  intros H j.
  destruct (normalize_entry_shape _ _ _ _ H)
    as (items & title & m & a & e & pv & _ & -> & Ht & Hm & Ha & He & Hpv).
  apply (record_fixed j _ _ _ _ _ _ _ pv); auto using own_or_index_truthy, tips_of_cases.
Qed.

(** *** The loops *)

(** The [for] loop returns the entries' records behind [normalized], in
    the order of the entries. *)
Lemma normalize_entries_ok places : forall days_list i normalized out,
  normalize_entries i days_list places normalized = Ok out ->
  exists records,
    out = normalized ++ records /\
    length records = length days_list /\
    forall j d, nth_error days_list j = Some d ->
      exists r, nth_error records j = Some r /\
                normalize_entry (i + j) d places = Ok r.
Proof.
  induction days_list as [|d0 ds IH]; intros i acc out H; cbn [normalize_entries] in H.
  - injection H as <-. exists []. rewrite app_nil_r. split; [reflexivity|].
    split; [reflexivity|]. intros [|j] d Hd; discriminate Hd.
  - bind_inv H r0 Hr0. destruct (IH _ _ _ H) as (rs & -> & Hlen & Hnth).
    exists (r0 :: rs). rewrite <- app_assoc. split; [reflexivity|].
    split; [cbn; now rewrite Hlen|].
    intros [|j] d Hd; cbn [nth_error] in *.
    + injection Hd as <-. exists r0. rewrite Nat.add_0_r. now split.
    + destruct (Hnth j d Hd) as (r & Hr & Hn). exists r. split; [exact Hr|].
      now replace (i + S j)%nat with (S i + j)%nat by lia.
Qed.

Lemma normalize_entries_fixed places : forall l i normalized,
  Forall (fixed places) l ->
  normalize_entries i l places normalized = Ok (normalized ++ l).
Proof.
  induction l as [|r l IH]; intros i acc Hall; cbn [normalize_entries].
  - now rewrite app_nil_r.
  - inversion Hall as [|? ? Hr Hl]; subst. rewrite (Hr i). cbn [bind].
    rewrite (IH _ _ Hl), <- app_assoc. reflexivity.
Qed.

Lemma fill_missing_eq days_required : forall fuel normalized,
  (missing days_required normalized <= fuel)%nat ->
  fill_missing fuel days_required normalized
  = normalized ++ map placeholder (seq (length normalized)
                                     (missing days_required normalized)).
Proof.
  unfold missing.
  induction fuel as [|fuel IH]; intros l Hfuel; cbn [fill_missing].
  - replace (Z.to_nat (days_required - Z.of_nat (length l))) with O by lia.
    cbn. now rewrite app_nil_r.
  - destruct (Z.of_nat (length l) <? days_required) eqn:E.
    + apply Z.ltb_lt in E. rewrite IH by (rewrite length_app; cbn; lia).
      rewrite length_app. cbn [length].
      replace (Z.to_nat (days_required - Z.of_nat (length l)))
        with (S (Z.to_nat (days_required - Z.of_nat (length l + 1)))) by lia.
      cbn [seq map]. rewrite <- app_assoc. cbn [app].
      now replace (length l + 1)%nat with (S (length l)) by lia.
    + apply Z.ltb_ge in E.
      replace (Z.to_nat (days_required - Z.of_nat (length l))) with O by lia.
      cbn. now rewrite app_nil_r.
Qed.

(** With [days_required] units of fuel the [while] loop stops at its own
    test, not for lack of fuel. *)
Lemma fill_missing_exits days_required normalized :
  (Z.of_nat (length (fill_missing (Z.to_nat days_required) days_required
                       normalized)) <? days_required) = false.
Proof.
  rewrite fill_missing_eq by (unfold missing; lia).
  apply Z.ltb_ge. rewrite length_app, length_map, length_seq. unfold missing. lia.
Qed.

(** The whole function, when it returns. *)
Lemma normalize_ok days_list days_required places out :
  0 <= days_required ->
  normalize_daywise_schema days_list days_required places = Ok out ->
  exists records,
    normalize_entries 0 days_list places [] = Ok records /\
    length records = length days_list /\
    out = firstn (Z.to_nat days_required)
            (records ++ map placeholder
                          (seq (length records) (missing days_required records))).
Proof.
  intros HN H. unfold normalize_daywise_schema in H. bind_inv H records Hr.
  injection H as <-. exists records. split; [exact Hr|].
  destruct (normalize_entries_ok _ _ _ _ _ Hr) as (rs & E & Hlen & _).
  cbn [app] in E. subst rs. split; [exact Hlen|].
  unfold slice_to. replace (days_required <? 0) with false
    by (symmetry; apply Z.ltb_ge; lia).
  now rewrite fill_missing_eq by (unfold missing; lia).
Qed.

Lemma normalize_length days_list days_required places out :
  0 <= days_required ->
  normalize_daywise_schema days_list days_required places = Ok out ->
  length out = Z.to_nat days_required.
Proof.
  intros HN H. destruct (normalize_ok _ _ _ _ HN H) as (rs & _ & _ & ->).
  rewrite length_firstn, length_app, length_map, length_seq. unfold missing. lia.
Qed.

(** Below the length of the input, the output holds the entry's record. *)
Lemma normalize_nth_entry days_list days_required places out i d :
  0 <= days_required ->
  normalize_daywise_schema days_list days_required places = Ok out ->
  nth_error days_list i = Some d ->
  Z.of_nat i < days_required ->
  normalize_entry i d places = Ok (nth i out JNull).
Proof.
  intros HN H Hd Hi. destruct (normalize_ok _ _ _ _ HN H) as (rs & Hrs & Hlen & ->).
  destruct (normalize_entries_ok _ _ _ _ _ Hrs) as (rs' & E & _ & Hnth).
  cbn [app] in E. subst rs'. destruct (Hnth i d Hd) as (r & Hr & Hn).
  cbn [Nat.add] in Hn. rewrite Hn. f_equal.
  assert (Hlt : (i < length rs)%nat) by (apply nth_error_Some; congruence).
  symmetry. apply nth_error_nth. rewrite nth_error_firstn.
  replace (i <? Z.to_nat days_required)%nat with true
    by (symmetry; apply Nat.ltb_lt; lia).
  now rewrite nth_error_app1 by lia.
Qed.

(** From the length of the input on, it holds placeholders. *)
Lemma normalize_nth_placeholder days_list days_required places out i :
  0 <= days_required ->
  normalize_daywise_schema days_list days_required places = Ok out ->
  (length days_list <= i)%nat ->
  Z.of_nat i < days_required ->
  nth i out JNull = placeholder i.
Proof.
  intros HN H Hk Hi. destruct (normalize_ok _ _ _ _ HN H) as (rs & _ & Hlen & ->).
  apply nth_error_nth.
  rewrite nth_error_firstn. replace (i <? Z.to_nat days_required)%nat with true
    by (symmetry; apply Nat.ltb_lt; lia).
  rewrite nth_error_app2 by lia.
  rewrite nth_error_map, nth_error_seq.
  replace (i - length rs <? missing days_required rs)%nat with true
    by (symmetry; apply Nat.ltb_lt; unfold missing; lia).
  cbn. do 2 f_equal. lia.
Qed.

Lemma normalize_entries_all_fixed places : forall days_list i normalized out,
  Forall (fixed places) normalized ->
  normalize_entries i days_list places normalized = Ok out ->
  Forall (fixed places) out.
Proof.
  induction days_list as [|d ds IH]; intros i acc out Hacc H;
    cbn [normalize_entries] in H.
  - now injection H as <-.
  - bind_inv H r Hr. apply (IH (S i) (acc ++ [r]) out); [|exact H].
    apply Forall_app. split; [exact Hacc|].
    constructor; [exact (normalize_entry_fixed _ _ _ _ Hr) | constructor].
Qed.

(** *** The image *)

Lemma match_place_hit name day_image : forall before p after,
  Forall (fun q => name_matches name q = false) before ->
  name_matches name p = true ->
  match_place name (before ++ p :: after) day_image = local_image p.
Proof.
  unfold name_matches.
  induction before as [|q before IH]; intros p after Hb Hp; cbn [app match_place].
  - now rewrite Hp.
  - inversion Hb as [|? ? Hq Hb']; subst. rewrite Hq. now apply IH.
Qed.

Lemma match_place_miss name day_image : forall catalog,
  unnamed name catalog -> match_place name catalog day_image = day_image.
Proof.
  unfold unnamed, name_matches.
  induction catalog as [|q catalog IH]; intros H; cbn [match_place];
    [reflexivity|].
  inversion H as [|? ? Hq H']; subst. rewrite Hq. now apply IH.
Qed.

Lemma first_available_hit day_image : forall before p after,
  Forall (fun q => some_text (local_image q) = false) before ->
  some_text (local_image p) = true ->
  first_available (before ++ p :: after) day_image = local_image p.
Proof.
  induction before as [|q before IH]; intros p after Hb Hp;
    cbn [app first_available].
  - now rewrite Hp.
  - inversion Hb as [|? ? Hq Hb']; subst. rewrite Hq. now apply IH.
Qed.

Lemma first_available_none : forall catalog day_image,
  first_available catalog day_image = None ->
  Forall (fun q => some_text (local_image q) = false) catalog.
Proof.
  induction catalog as [|q catalog IH]; intros di H; [constructor|].
  cbn [first_available] in H.
  destruct (some_text (local_image q)) eqn:E.
  - rewrite H in E. discriminate E.
  - constructor; [exact E | exact (IH _ H)].
Qed.

Lemma select_by_name name catalog p :
  first_named name catalog p -> some_text (local_image p) = true ->
  select_image name catalog = local_image p.
Proof.
  intros (before & after & -> & Hb & Hp) Himg. unfold select_image.
  rewrite (match_place_hit name None before p after Hb Hp), Himg. reflexivity.
Qed.

Lemma select_fallback name catalog p :
  unnamed name catalog \/ named_without_image name catalog ->
  first_with_image catalog p ->
  select_image name catalog = local_image p.
Proof.
  intros Hname (before & after & E & Hb & Hp). unfold select_image.
  assert (Hfalse : some_text (match_place name catalog None) = false).
  { destruct Hname as [Hno | (q & (b' & a' & -> & Hb' & Hq) & Himg)].
    - now rewrite (match_place_miss name None catalog Hno).
    - now rewrite (match_place_hit name None b' q a' Hb' Hq). }
  rewrite Hfalse. cbn [negb]. subst catalog. now apply first_available_hit.
Qed.

Lemma select_no_image name : forall catalog,
  Forall (fun q => local_image q = None) catalog ->
  select_image name catalog = None.
Proof.
  intros catalog Hall. unfold select_image.
  assert (H1 : forall di, di = None -> match_place name catalog di = None).
  { induction Hall as [|q catalog Hq _ IH]; intros di ->; cbn [match_place];
      [reflexivity|].
    destruct (Str.nonempty name && Str.contains name (db_place q))%bool;
      [exact Hq | now apply IH]. }
  rewrite (H1 None eq_refl). cbn [some_text negb]. clear H1.
  induction Hall as [|q catalog Hq _ IH]; cbn [first_available]; [reflexivity|].
  rewrite Hq. cbn [some_text]. exact IH.
Qed.

Lemma select_none name catalog :
  select_image name catalog = None ->
  Forall (fun q => some_text (local_image q) = false) catalog.
Proof.
  unfold select_image. intros H.
  destruct (some_text (match_place name catalog None)) eqn:E; cbn [negb] in H.
  - rewrite H in E. discriminate E.
  - exact (first_available_none _ _ H).
Qed.

Lemma unnamed_empty catalog : unnamed "" catalog.
Proof. unfold unnamed. induction catalog; constructor; [reflexivity | assumption]. Qed.

Lemma image_json_null x : image_json x = JNull -> x = None.
Proof. now destruct x. Qed.

(** The image of a returned entry comes from its own morning place. *)
Lemma entry_image i d places r :
  normalize_entry i d places = Ok r ->
  exists pv,
    field "place_to_visit" (field "morning" r) = JStr pv /\
    field "day_image" r = image_json (select_image (normalized_name pv) places).
Proof.
  intros H.
  destruct (normalize_entry_shape _ _ _ _ H)
    as (items & title & m & a & e & pv & _ & -> & _ & _ & _ & _ & Hpv).
  exists pv. split; [|reflexivity].
  change (field "morning" (record _ _ _ _ _ _ _ _)) with (JDict m).
  cbn [field]. unfold Dict.get. now rewrite Hpv.
Qed.

Lemma entry_day i items places r :
  normalize_entry i (JDict items) places = Ok r ->
  field "day" r = own_or_index i items.
Proof.
  intros H.
  destruct (normalize_entry_shape _ _ _ _ H)
    as (items' & title & m & a & e & pv & E & -> & _).
  injection E as <-. reflexivity.
Qed.

Lemma placeholder_fixed places idx :
  Forall (fun q => local_image q = None) places -> fixed places (placeholder idx).
Proof.
  intros Hall j. unfold placeholder.
  apply (record_fixed j _ _ _ _ _ _ _ "**Local**").
  - cbn. apply negb_true_iff, Z.eqb_neq. lia.
  - reflexivity.
  - repeat split; reflexivity.
  - repeat split; reflexivity.
  - repeat split; reflexivity.
  - reflexivity.
  - now right.
  - now rewrite select_no_image.
Qed.

Lemma Forall_prefix {A : Type} (P : A -> Prop) : forall n l,
  Forall P l -> Forall P (firstn n l).
Proof.
  induction n as [|n IH]; intros l H; [constructor|].
  destruct H as [|x l Hx Hl]; cbn [firstn]; constructor; auto.
Qed.

(** A list of fixed records of the required length is returned as it is. *)
Lemma normalize_fixed out days_required places :
  Forall (fixed places) out ->
  Z.of_nat (length out) = days_required ->
  normalize_daywise_schema out days_required places = Ok out.
Proof.
  intros Hall Hlen. unfold normalize_daywise_schema.
  rewrite (normalize_entries_fixed places out 0 [] Hall). cbn [bind app].
  rewrite fill_missing_eq by (unfold missing; lia).
  replace (missing days_required out) with O by (unfold missing; lia).
  cbn [seq map]. rewrite app_nil_r. unfold slice_to.
  replace (days_required <? 0) with false by (symmetry; apply Z.ltb_ge; lia).
  replace (Z.to_nat days_required) with (length out) by lia.
  now rewrite firstn_all.
Qed.

End NormalizeFacts.

Module NormalizeClaims.
Import Py Normalize NormalizeFacts.
Local Open Scope list_scope.

(** When no entry raises, the function returns, and what it returns has
    exactly the required length: the records of the first entries in
    their order, then placeholders. *)
Lemma normalize_returns days_list days_required places :
  0 <= days_required ->
  (forall i d, nth_error days_list i = Some d ->
               exists r, normalize_entry i d places = Ok r) ->
  exists out,
    normalize_daywise_schema days_list days_required places = Ok out /\
    length out = Z.to_nat days_required /\
    (forall i d, nth_error days_list i = Some d -> Z.of_nat i < days_required ->
                 normalize_entry i d places = Ok (nth i out JNull)) /\
    (forall i, (length days_list <= i)%nat -> Z.of_nat i < days_required ->
               nth i out JNull = placeholder i).
Proof.
  intros HN Hall.
  assert (Hrun : forall ds i acc,
             (forall j d, nth_error ds j = Some d ->
                          exists r, normalize_entry (i + j) d places = Ok r) ->
             exists rs, normalize_entries i ds places acc = Ok rs).
  { induction ds as [|d ds IH]; intros i acc Hds; cbn [normalize_entries];
      [eauto|].
    destruct (Hds O d eq_refl) as (r & Hr). rewrite Nat.add_0_r in Hr.
    rewrite Hr. cbn [bind]. apply IH. intros j d' Hd'.
    replace (S i + j)%nat with (i + S j)%nat by lia. now apply Hds. }
  destruct (Hrun days_list O [] Hall) as (rs & Hrs).
  assert (Hout : normalize_daywise_schema days_list days_required places
                 = Ok (slice_to days_required
                         (fill_missing (Z.to_nat days_required) days_required rs))).
  { unfold normalize_daywise_schema. now rewrite Hrs. }
  eexists. split; [exact Hout|]. split; [exact (normalize_length _ _ _ _ HN Hout)|].
  split.
  - intros i d Hd Hi. exact (normalize_nth_entry _ _ _ _ _ _ HN Hout Hd Hi).
  - intros i Hk Hi. exact (normalize_nth_placeholder _ _ _ _ _ HN Hout Hk Hi).
Qed.

(** C1, where the code departs from it.  One empty object normalizes to
    one record; with a text entry behind it, which the required count of
    one should discard, the call raises instead of returning one record:
    the loop normalizes every entry before the result is cut. *)
Theorem normalize_trailing_entry_raises :
  (exists r, normalize_daywise_schema [JDict []] 1 [] = Ok [r]) /\
  normalize_daywise_schema [JDict []; JStr "oops"] 1 []
  = Raise (AttributeError "str" "get").
Proof. split; [eexists|]; reflexivity. Qed.

(** C2, where the code departs from it.  An entry that is not an object
    makes the call raise: its [title] is read with [d.get] before any
    [isinstance] test protects it. *)
Theorem normalize_raises_on_non_dict d rest days_required places :
  isinstance_dict d = false ->
  normalize_daywise_schema (d :: rest) days_required places
  = Raise (AttributeError (type_name d) "get").
Proof.
  intros Hd. destruct d; try discriminate Hd; reflexivity.
Qed.

Lemma normalize_raises_on_non_dict_witness :
  normalize_daywise_schema [JStr "Day one: the old town"] 1 []
  = Raise (AttributeError "str" "get").
Proof.
  apply (normalize_raises_on_non_dict (JStr "Day one: the old town") [] 1 []).
  reflexivity.
Defined.

(** Objects raise as well when a block or the morning place has the
    wrong type: a text for [morning], a null [place_to_visit]. *)
Example normalize_raises_on_text_morning :
  normalize_daywise_schema
    [JDict [ ("morning", JStr "Old town walk"); ("afternoon", JDict []);
             ("evening", JDict []) ]] 1 []
  = Raise (AttributeError "str" "setdefault").
Proof. reflexivity. Qed.

Example normalize_raises_on_null_place :
  normalize_daywise_schema
    [JDict [ ("morning", JDict [("place_to_visit", JNull)]);
             ("afternoon", JDict []); ("evening", JDict []) ]] 1 []
  = Raise (AttributeError "NoneType" "replace").
Proof. reflexivity. Qed.

(** C8, as the code has it.  Whenever the call returns, the record at
    index [i] below the required count carries the day number [i+1] if
    it is a placeholder or its entry has no truthy [day] of its own, and
    the entry's own [day] otherwise. *)
Theorem normalize_day_numbers days_list days_required places out i :
  0 <= days_required ->
  normalize_daywise_schema days_list days_required places = Ok out ->
  Z.of_nat i < days_required ->
  field "day" (nth i out JNull)
  = match nth_error days_list i with
    | Some d => if truthy (field "day" d) then field "day" d
                else JInt (Z.of_nat i + 1)
    | None => JInt (Z.of_nat i + 1)
    end.
Proof.
  intros HN H Hi. destruct (nth_error days_list i) as [d|] eqn:Hd.
  - pose proof (normalize_nth_entry _ _ _ _ _ _ HN H Hd Hi) as Hr.
    destruct (normalize_entry_shape _ _ _ _ Hr) as (items & _ & _ & _ & _ & _ & -> & _).
    now rewrite (entry_day _ _ _ _ Hr).
  - apply nth_error_None in Hd.
    now rewrite (normalize_nth_placeholder _ _ _ _ _ HN H Hd Hi).
Qed.

Lemma normalize_day_numbers_witness :
  exists out,
    normalize_daywise_schema day_five 2 [] = Ok out /\
    field "day" (nth 0 out JNull) = JInt 5 /\
    field "day" (nth 1 out JNull) = JInt 2.
Proof.
  eexists. split; [reflexivity|]. split.
  - apply (normalize_day_numbers day_five 2 [] _ 0); [lia | reflexivity | lia].
  - apply (normalize_day_numbers day_five 2 [] _ 1); [lia | reflexivity | lia].
Defined.

(** C8 as stated fails: an entry with a [day] of its own keeps it. *)
Lemma normalize_day_numbers_counterexample :
  ~ (forall days_list days_required places out i,
        normalize_daywise_schema days_list days_required places = Ok out ->
        Z.of_nat i < days_required ->
        field "day" (nth i out JNull) = JInt (Z.of_nat i + 1)).
Proof.
  intros H. specialize (H day_five 1 [] _ O eq_refl eq_refl). discriminate H.
Qed.

Lemma image_rule_of_entry i d places r :
  normalize_entry i d places = Ok r -> image_rule places r.
Proof.
  intros H. destruct (entry_image _ _ _ _ H) as (pv & Hpv & Himg).
  exists pv. split; [exact Hpv|]. cbv zeta. rewrite Himg. split; [|split].
  - intros p Hp Hi. now rewrite (select_by_name _ _ _ Hp Hi).
  - intros Hname p Hp. now rewrite (select_fallback _ _ _ Hname Hp).
  - intros Hall. now rewrite (select_no_image _ _ Hall).
Qed.

(** C6, as the code has it.  For every entry of a call that returns, the
    name is the record's morning place without asterisks, trimmed and
    lower-cased.  If the first catalog row whose place contains the
    (non-empty) name has an image reference that is neither null nor
    empty, [day_image] is that reference.  If no row contains the name,
    or the first that does has no such reference, [day_image] is the
    reference of the first row that has one, whatever its name.  If no
    row has an image reference, [day_image] is null. *)
Theorem normalize_image_rule days_list days_required places out i d :
  0 <= days_required ->
  normalize_daywise_schema days_list days_required places = Ok out ->
  nth_error days_list i = Some d ->
  Z.of_nat i < days_required ->
  image_rule places (nth i out JNull).
Proof.
  intros HN H Hd Hi.
  exact (image_rule_of_entry _ _ _ _ (normalize_nth_entry _ _ _ _ _ _ HN H Hd Hi)).
Qed.

Lemma normalize_image_rule_witness :
  exists out,
    normalize_daywise_schema [canyon_entry] 1 lodge_catalog = Ok out /\
    image_rule lodge_catalog (nth 0 out JNull).
Proof.
  eexists. split; [reflexivity|].
  apply (normalize_image_rule [canyon_entry] 1 lodge_catalog _ 0 canyon_entry);
    [lia | reflexivity | reflexivity | lia].
Defined.

(** C6 as stated fails: the first row that contains the name has no
    image, and the fallback runs although a name matched. *)
Lemma normalize_image_rule_counterexample :
  ~ (forall days_list days_required places out i d place_to_visit,
        normalize_daywise_schema days_list days_required places = Ok out ->
        nth_error days_list i = Some d ->
        Z.of_nat i < days_required ->
        field "place_to_visit" (field "morning" (nth i out JNull))
        = JStr place_to_visit ->
        field "day_image" (nth i out JNull)
        = image_json (documented_image (normalized_name place_to_visit) places)).
Proof.
  intros H.
  specialize (H [canyon_entry] 1 bare_catalog _ O canyon_entry
                "**Grand Canyon**" eq_refl eq_refl eq_refl eq_refl).
  discriminate H.
Qed.

(** C10, as the code has it.  For every entry of a call that returns:
    an empty name matches no row; and when no row contains the name, or
    the first row that does has a null or empty image reference, or the
    name is empty, [day_image] is the reference of the first row whose
    reference is neither null nor empty, an empty reference being
    passed over like a null one; and [day_image] is null only if no row
    has a reference that is neither null nor empty. *)
Theorem normalize_image_fallback days_list days_required places out i d :
  0 <= days_required ->
  normalize_daywise_schema days_list days_required places = Ok out ->
  nth_error days_list i = Some d ->
  Z.of_nat i < days_required ->
  fallback_rule places (nth i out JNull).
Proof.
  intros HN H Hd Hi.
  pose proof (normalize_nth_entry _ _ _ _ _ _ HN H Hd Hi) as Hr.
  destruct (entry_image _ _ _ _ Hr) as (pv & Hpv & Himg).
  exists pv. split; [exact Hpv|]. cbv zeta. rewrite Himg. split.
  - intros ->. apply unnamed_empty.
  - intros Hname.
    assert (Hfall : unnamed (normalized_name pv) places
                    \/ named_without_image (normalized_name pv) places).
    { destruct Hname as [Hn | [Hn | Hn]]; [now left | now right |].
      left. rewrite Hn. apply unnamed_empty. }
    split.
    + intros p Hp. now rewrite (select_fallback _ _ _ Hfall Hp).
    + intros Hnull. apply image_json_null in Hnull. exact (select_none _ _ Hnull).
Qed.

Lemma normalize_image_fallback_witness :
  exists out,
    normalize_daywise_schema [JDict []] 1 empty_image_catalog = Ok out /\
    fallback_rule empty_image_catalog (nth 0 out JNull).
Proof.
  eexists. split; [reflexivity|].
  apply (normalize_image_fallback [JDict []] 1 empty_image_catalog _ 0 (JDict []));
    [lia | reflexivity | reflexivity | lia].
Defined.

(** C10 as stated fails: with an empty name the fallback passes over a
    first row whose image reference is the empty text, which is not
    null, and takes the reference of the second row. *)
Lemma normalize_image_fallback_counterexample :
  ~ (forall days_list days_required places out i d place_to_visit,
        normalize_daywise_schema days_list days_required places = Ok out ->
        nth_error days_list i = Some d ->
        Z.of_nat i < days_required ->
        field "place_to_visit" (field "morning" (nth i out JNull))
        = JStr place_to_visit ->
        normalized_name place_to_visit = "" ->
        field "day_image" (nth i out JNull)
        = image_json (documented_fallback places)).
Proof.
  intros H.
  specialize (H [JDict []] 1 empty_image_catalog _ O (JDict []) ""
                eq_refl eq_refl eq_refl eq_refl eq_refl).
  discriminate H.
Qed.

(** C7, as the code has it.  When no placeholder had to be added (at
    least as many entries as required days), or when no catalog row has
    an image reference, normalizing the returned list again, with the
    same count and catalog, returns it unchanged. *)
Theorem normalize_idempotent days_list days_required places out :
  0 <= days_required ->
  days_required <= Z.of_nat (length days_list)
  \/ Forall (fun q => local_image q = None) places ->
  normalize_daywise_schema days_list days_required places = Ok out ->
  normalize_daywise_schema out days_required places = Ok out.
Proof.
  intros HN Hcase H.
  pose proof (normalize_length _ _ _ _ HN H) as Hlen.
  apply normalize_fixed; [|lia].
  destruct (normalize_ok _ _ _ _ HN H) as (rs & Hrs & Hk & ->).
  apply Forall_prefix, Forall_app. split.
  - exact (normalize_entries_all_fixed _ _ _ _ _ (Forall_nil _) Hrs).
  - destruct Hcase as [Hfull | Hbare].
    + replace (missing days_required rs) with O by (unfold missing; lia).
      constructor.
    + apply Forall_map, Forall_forall. intros idx _.
      now apply placeholder_fixed.
Qed.

Lemma normalize_idempotent_witness :
  exists out,
    normalize_daywise_schema [canyon_entry] 1 lodge_catalog = Ok out /\
    normalize_daywise_schema out 1 lodge_catalog = Ok out.
Proof.
  eexists. split; [reflexivity|].
  apply (normalize_idempotent [canyon_entry] 1 lodge_catalog);
    [lia | left; cbn; lia | reflexivity].
Defined.

(** C7 as stated fails: a placeholder has no image, but normalized again
    it gets the first image of the catalog. *)
Lemma normalize_idempotent_counterexample :
  (out <- normalize_daywise_schema [] 1 lodge_catalog ;;
   normalize_daywise_schema out 1 lodge_catalog)
  <> normalize_daywise_schema [] 1 lodge_catalog.
Proof. vm_compute. discriminate. Qed.

End NormalizeClaims.

(** ** The examples of the specification *)

Module SpecExamples.
Import Extract Normalize.
Local Open Scope list_scope.

(** Example 1: prose, a labelled fence, the object, a bare fence. *)
Example fenced_plan :
  extract_json_block
    (String.append "Here is your plan:"
       (String Str.newline
          (String.append "```json"
             (String Str.newline
                (String.append "{" (String.append quote (String.append "days"
                   (String.append quote (String.append ":[]}"
                      (String Str.newline "```"))))))))))
  = Ok (String.append "{" (String.append quote (String.append "days"
          (String.append quote ":[]}")))).
Proof. reflexivity. Qed.

(** Example 2: no entries, three days, no catalog. *)
Example three_placeholders :
  normalize_daywise_schema [] 3 [] = Ok [placeholder 0; placeholder 1; placeholder 2].
Proof. reflexivity. Qed.

(** Example 3: the place matches under markup and letter case. *)
Example canyon_image :
  exists out,
    normalize_daywise_schema [canyon_entry] 1 lodge_catalog = Ok out /\
    field "day_image" (nth 0 out JNull) = JStr "img1".
Proof. eexists. split; reflexivity. Qed.

(** Example 4: a bare breakfast text in the older shape. *)
Example pancakes :
  exists out,
    normalize_daywise_schema [JDict [("breakfast", JStr "Pancakes $5")]] 1 []
    = Ok out /\
    field "morning" (nth 0 out JNull)
    = JDict [ ("early_place", JStr ""); ("breakfast", JStr "Pancakes $5");
              ("place_to_visit", JStr ""); ("duration", JStr "");
              ("transport_to_next", JStr "") ].
Proof. eexists. split; reflexivity. Qed.

End SpecExamples.

(** ** More on [extract_json_block] *)

Module ExtractMoreFacts.
Import Extract StrFacts ExtractFacts ExtractMore.

Lemma find_char_app_some x a b n :
  Str.find_char x a = Some n ->
  Str.find_char x (String.append a b) = Some n.
Proof.
  revert n. induction a as [|c a IH]; intros n H; [discriminate|].
  cbn [String.append Str.find_char] in *.
  destruct (Ascii.eqb c x); [exact H|].
  destruct (Str.find_char x a) as [m|]; [|discriminate].
  now rewrite (IH m eq_refl).
Qed.

Lemma find_char_app_none x a b :
  Str.find_char x a = None ->
  Str.find_char x (String.append a b)
  = option_map (Nat.add (String.length a)) (Str.find_char x b).
Proof.
  induction a as [|c a IH]; intros H; cbn [String.append Str.find_char] in *.
  - now destruct (Str.find_char x b).
  - destruct (Ascii.eqb c x); [discriminate|].
    destruct (Str.find_char x a); [discriminate|].
    rewrite (IH eq_refl). now destruct (Str.find_char x b).
Qed.

Lemma find_char_bound x : forall s n,
  Str.find_char x s = Some n -> (n < String.length s)%nat.
Proof.
  induction s as [|c s IH]; intros n H; [discriminate|].
  cbn [Str.find_char String.length] in *.
  destruct (Ascii.eqb c x); [injection H as <-; lia|].
  destruct (Str.find_char x s) as [m|]; [|discriminate].
  injection H as <-. specialize (IH m eq_refl). lia.
Qed.

(** The text splits at the index that [find] returns. *)
Lemma find_char_split x : forall s n,
  Str.find_char x s = Some n ->
  exists pre rest,
    s = String.append pre (String x rest) /\
    String.length pre = n /\ Str.find_char x pre = None.
Proof.
  induction s as [|c s IH]; intros n H; [discriminate|].
  cbn [Str.find_char] in H. destruct (Ascii.eqb c x) eqn:E.
  - injection H as <-. apply Ascii.eqb_eq in E. subst c.
    exists "", s. now repeat split.
  - destruct (Str.find_char x s) as [m|]; [|discriminate].
    injection H as <-. destruct (IH m eq_refl) as (pre & rest & -> & Hl & Hn).
    exists (String c pre), rest. repeat split; [now cbn; rewrite Hl|].
    cbn [Str.find_char]. now rewrite E, Hn.
Qed.

Lemma drop_app_le : forall n a b,
  (n <= String.length a)%nat ->
  Str.drop n (String.append a b) = String.append (Str.drop n a) b.
Proof.
  induction n as [|n IH]; intros a b H; [reflexivity|].
  destruct a as [|c a]; [cbn in H; lia|].
  cbn [String.append Str.drop]. apply IH. cbn in H. lia.
Qed.

Lemma drop_length : forall n s,
  String.length (Str.drop n s) = (String.length s - n)%nat.
Proof.
  induction n as [|n IH]; intros s; [cbn; lia|].
  destruct s as [|c s]; [reflexivity|]. cbn [Str.drop String.length]. apply IH.
Qed.

Lemma substring_app_le : forall n m a b,
  (n + m <= String.length a)%nat ->
  String.substring n m (String.append a b) = String.substring n m a.
Proof.
  induction n as [|n IH]; intros m a b H.
  - revert a H. induction m as [|m IHm]; intros a H.
    + now destruct a; destruct b.
    + destruct a as [|c a]; [cbn in H; lia|].
      cbn [String.append String.substring]. f_equal. apply IHm. cbn in H. lia.
  - destruct a as [|c a]; [cbn in H; lia|].
    cbn [String.append String.substring]. apply IH. cbn in H. lia.
Qed.

Lemma substring_shift : forall a n m s,
  String.substring (String.length a + n) m (String.append a s)
  = String.substring n m s.
Proof. induction a as [|c a IH]; intros n m s; [reflexivity | exact (IH n m s)]. Qed.

(** *** The loop *)

(** The loop's index only counts: started [k] later it returns [k] later. *)
Lemma scan_shift k : forall rest i d ins esc,
  scan rest (k + i) d ins esc
  = option_map (Nat.add k) (scan rest i d ins esc).
Proof.
  induction rest as [|c rest IH]; intros i d ins esc; [reflexivity|].
  cbn [scan]. replace (S (k + i)) with (k + S i)%nat by lia.
  destruct esc; [apply IH|].
  destruct (Ascii.eqb c Str.backslash); [apply IH|].
  destruct (Ascii.eqb c Str.dquote); [apply IH|].
  destruct (negb ins); [|apply IH].
  destruct (Ascii.eqb c Str.lbrace); [apply IH|].
  destruct (Ascii.eqb c Str.rbrace); [|apply IH].
  destruct (d - 1 =? 0); [reflexivity | apply IH].
Qed.

(** The loop returns at a closing brace only. *)
Lemma scan_no_close : forall t i d ins esc,
  close_free t -> scan t i d ins esc = None.
Proof.
  unfold close_free.
  induction t as [|c t IH]; intros i d ins esc H; [reflexivity|].
  cbn [Str.find_char] in H. destruct (Ascii.eqb c Str.rbrace) eqn:E; [discriminate|].
  assert (Ht : Str.find_char Str.rbrace t = None)
    by (destruct (Str.find_char Str.rbrace t); [discriminate | reflexivity]).
  cbn [scan]. rewrite E.
  destruct esc; [now apply IH|].
  destruct (Ascii.eqb c Str.backslash); [now apply IH|].
  destruct (Ascii.eqb c Str.dquote); [now apply IH|].
  destruct (negb ins); [|now apply IH].
  destruct (Ascii.eqb c Str.lbrace); now apply IH.
Qed.

(** Text without a closing brace behind the scanned text changes nothing. *)
Lemma scan_tail t : close_free t -> forall r i d ins esc,
  scan (String.append r t) i d ins esc = scan r i d ins esc.
Proof.
  intros Ht. induction r as [|c r IH]; intros i d ins esc.
  - cbn [String.append scan]. now apply scan_no_close.
  - cbn [String.append scan].
    destruct esc; [apply IH|].
    destruct (Ascii.eqb c Str.backslash); [apply IH|].
    destruct (Ascii.eqb c Str.dquote); [apply IH|].
    destruct (negb ins); [|apply IH].
    destruct (Ascii.eqb c Str.lbrace); [apply IH|].
    destruct (Ascii.eqb c Str.rbrace); [|apply IH].
    destruct (d - 1 =? 0); [reflexivity | apply IH].
Qed.

Lemma scan_bound : forall r i d ins esc j,
  scan r i d ins esc = Some j -> (i <= j < i + String.length r)%nat.
Proof.
  induction r as [|c r IH]; intros i d ins esc j H; [discriminate|].
  cbn [scan] in H. cbn [String.length].
  assert (Hrec : forall d' ins' esc', scan r (S i) d' ins' esc' = Some j ->
                                      (i <= j < i + S (String.length r))%nat).
  { intros d' ins' esc' H'. specialize (IH _ _ _ _ _ H'). lia. }
  destruct esc; [now apply Hrec in H|].
  destruct (Ascii.eqb c Str.backslash); [now apply Hrec in H|].
  destruct (Ascii.eqb c Str.dquote); [now apply Hrec in H|].
  destruct (negb ins); [|now apply Hrec in H].
  destruct (Ascii.eqb c Str.lbrace); [now apply Hrec in H|].
  destruct (Ascii.eqb c Str.rbrace); [|now apply Hrec in H].
  destruct (d - 1 =? 0); [injection H as <-; lia | now apply Hrec in H].
Qed.

Lemma track_step_depth t c : depth t - 1 <= depth (track_step t c).
Proof.
  unfold track_step.
  destruct (escape_pending t); cbn [depth]; [lia|].
  destruct (Ascii.eqb c Str.backslash); cbn [depth]; [lia|].
  destruct (Ascii.eqb c Str.dquote); cbn [depth]; [lia|].
  destruct (in_string t); [lia|].
  destruct (Ascii.eqb c Str.lbrace); cbn [depth]; [lia|].
  destruct (Ascii.eqb c Str.rbrace); cbn [depth]; lia.
Qed.

(** Where the loop returns, the depth is back to zero for the first time. *)
Lemma scan_returns : forall r t i j,
  0 < depth t ->
  scan r i (depth t) (in_string t) (escape_pending t) = Some j ->
  exists sp post,
    r = String.append sp post /\ sp <> "" /\
    j = (i + String.length sp - 1)%nat /\
    depth (track t sp) = 0 /\
    forall a b, sp = String.append a b -> a <> "" -> b <> "" ->
                0 < depth (track t a).
Proof.
  induction r as [|c r IH]; intros t i j Hpos H; [discriminate|].
  rewrite scan_step in H by exact Hpos.
  destruct (depth (track_step t c) =? 0) eqn:E.
  - injection H as <-. apply Z.eqb_eq in E.
    exists (String c ""), r. repeat split; [discriminate | cbn; lia | exact E |].
    intros a b Eab Ha Hb. destruct a as [|x a]; [congruence|].
    cbn in Eab. injection Eab as _ Eab.
    destruct a; cbn in Eab; [congruence | discriminate].
  - apply Z.eqb_neq in E. pose proof (track_step_depth t c) as Hd.
    destruct (IH (track_step t c) (S i) j) as (sp & post & -> & Hne & -> & Hend & Hopen);
      [lia | exact H |].
    exists (String c sp), post. repeat split; [discriminate | | exact Hend |].
    + cbn [String.length]. destruct sp; [congruence | cbn; lia].
    + intros a b Eab Ha Hb. destruct a as [|x a]; [congruence|].
      cbn in Eab. injection Eab as -> Eab. cbn [track].
      destruct a as [|y a]; [cbn [track]; lia|].
      apply (Hopen (String y a) b Eab); [discriminate | exact Hb].
Qed.

(** *** Blanks and fences *)

Lemma space_not_brace c :
  Str.isspace c = true ->
  Ascii.eqb c Str.lbrace = false /\ Ascii.eqb c Str.rbrace = false.
Proof.
  intros H. split.
  - destruct (Ascii.eqb c Str.lbrace) eqn:E; [|reflexivity].
    apply Ascii.eqb_eq in E. subst c. discriminate H.
  - destruct (Ascii.eqb c Str.rbrace) eqn:E; [|reflexivity].
    apply Ascii.eqb_eq in E. subst c. discriminate H.
Qed.

Lemma blank_cons c s : blank (String c s) <-> Str.isspace c = true /\ blank s.
Proof.
  unfold blank. cbn [Str.lstrip]. destruct (Str.isspace c); split.
  - auto.
  - now intros [_ H].
  - discriminate.
  - now intros [H _].
Qed.

Lemma blank_free s : blank s -> brace_free s /\ close_free s.
Proof.
  unfold brace_free, close_free.
  induction s as [|c s IH]; intros H; [now split|].
  apply blank_cons in H. destruct H as [Hc Hs].
  destruct (space_not_brace c Hc) as [E1 E2]. destruct (IH Hs) as [H1 H2].
  cbn [Str.find_char]. now rewrite E1, E2, H1, H2.
Qed.

Lemma lstrip_split s :
  exists a, s = String.append a (Str.lstrip s) /\ blank a.
Proof.
  induction s as [|c s IH]; [now exists ""|].
  cbn [Str.lstrip]. destruct (Str.isspace c) eqn:E.
  - destruct IH as (a & Ea & Ha). exists (String c a).
    split; [cbn; now rewrite <- Ea | now apply blank_cons].
  - now exists "".
Qed.

Lemma rstrip_split s :
  exists b, s = String.append (Str.rstrip s) b /\ blank b.
Proof.
  induction s as [|c s IH]; [now exists ""|].
  destruct IH as (b & Eb & Hb). cbn [Str.rstrip].
  destruct (Str.rstrip s) as [|x r] eqn:Er.
  - cbn [String.append] in Eb. subst b. destruct (Str.isspace c) eqn:E.
    + exists (String c s). split; [reflexivity | now apply blank_cons].
    + now exists s.
  - exists b. split; [|exact Hb].
    cbn [String.append] in *. now rewrite <- Eb.
Qed.

Lemma fence_prefix_free fence : forall s,
  fence_ok fence = true -> Str.prefix_ci fence s = true ->
  exists a, s = String.append a (Str.drop (String.length fence) s)
            /\ brace_free a.
Proof.
  induction fence as [|f fence IH]; intros s Hok Hpre.
  - exists "". split; [now destruct s | reflexivity].
  - cbn [fence_ok] in Hok. apply andb_true_iff in Hok. destruct Hok as [Hf Hok].
    apply negb_true_iff in Hf.
    destruct s as [|c s]; [discriminate|].
    cbn [Str.prefix_ci] in Hpre. apply andb_true_iff in Hpre.
    destruct Hpre as [Hc Hpre]. apply Ascii.eqb_eq in Hc.
    destruct (IH s Hok Hpre) as (a & Ea & Ha).
    exists (String c a). cbn [String.length Str.drop String.append].
    split; [now rewrite <- Ea|]. unfold brace_free in *. cbn [Str.find_char].
    destruct (Ascii.eqb c Str.lbrace) eqn:E; [|now rewrite Ha].
    apply Ascii.eqb_eq in E. subst c. rewrite Hc, Ascii.eqb_refl in Hf.
    discriminate Hf.
Qed.

(** [sub_fence_end] only exchanges a tail without braces for another. *)
Lemma sub_fence_end_tail : forall s,
  exists x t t',
    s = String.append x t /\ sub_fence_end s = String.append x t' /\
    (brace_free t /\ close_free t) /\ (brace_free t' /\ close_free t').
Proof.
  induction s as [|c s IH].
  - exists "", "", "". now repeat split.
  - cbn [sub_fence_end]. destruct (fence_end_here (String c s)) eqn:E.
    + exists "", (String c s), (Str.drop 3 (String c s)).
      split; [reflexivity|]. split; [reflexivity|].
      unfold fence_end_here in E. apply orb_true_iff in E.
      destruct E as [E|E]; apply String.eqb_eq in E; rewrite E;
        now repeat split.
    + destruct IH as (x & t & t' & Es & Er & Ht & Ht').
      exists (String c x), t, t'. cbn [String.append].
      now rewrite <- Es, <- Er.
Qed.

(** *** [locate] under changes around the object *)

Lemma drop_app_add : forall a n s,
  Str.drop (String.length a + n) (String.append a s) = Str.drop n s.
Proof. induction a as [|c a IH]; intros n s; [reflexivity | exact (IH n s)]. Qed.

Lemma locate_pre a s : brace_free a -> locate (String.append a s) = locate s.
Proof.
  intros Ha. unfold locate. rewrite (find_char_app_none _ a s Ha).
  destruct (Str.find_char Str.lbrace s) as [n|] eqn:En; cbn [option_map];
    [|reflexivity].
  rewrite drop_app_add, scan_shift.
  destruct (scan (Str.drop n s) n 0 false false) as [i|]; cbn [option_map];
    [|reflexivity].
  f_equal. unfold Str.slice.
  replace (String.length a + i + 1 - (String.length a + n))%nat
    with (i + 1 - n)%nat by lia.
  apply substring_shift.
Qed.

Lemma locate_post x t :
  close_free t ->
  Str.find_char Str.lbrace x <> None \/ brace_free t ->
  locate (String.append x t) = locate x.
Proof.
  intros Ht Hcase. unfold locate.
  destruct (Str.find_char Str.lbrace x) as [n|] eqn:En.
  - rewrite (find_char_app_some _ _ t _ En).
    pose proof (find_char_bound _ _ _ En) as Hn.
    rewrite drop_app_le by lia. rewrite (scan_tail t Ht).
    destruct (scan (Str.drop n x) n 0 false false) as [i|] eqn:Ei; [|reflexivity].
    apply scan_bound in Ei. rewrite drop_length in Ei.
    f_equal. unfold Str.slice. apply substring_app_le. lia.
  - destruct Hcase as [H|H]; [congruence|].
    rewrite (find_char_app_none _ x t En). unfold brace_free in H. now rewrite H.
Qed.

Lemma locate_lstrip s : locate (Str.lstrip s) = locate s.
Proof.
  destruct (lstrip_split s) as (a & Ea & Ha).
  pose proof (locate_pre a (Str.lstrip s) (proj1 (blank_free a Ha))) as H.
  rewrite <- Ea in H. now symmetry.
Qed.

Lemma locate_rstrip s : locate (Str.rstrip s) = locate s.
Proof.
  destruct (rstrip_split s) as (b & Eb & Hb).
  pose proof (locate_post (Str.rstrip s) b (proj2 (blank_free b Hb))
                (or_intror (proj1 (blank_free b Hb)))) as H.
  rewrite <- Eb in H. now symmetry.
Qed.

Lemma locate_strip s : locate (Str.strip s) = locate s.
Proof. unfold Str.strip. now rewrite locate_rstrip, locate_lstrip. Qed.

Lemma locate_fence_start fence s :
  fence_ok fence = true -> locate (sub_fence_start fence s) = locate s.
Proof.
  intros Hok. unfold sub_fence_start.
  destruct (Str.prefix_ci fence s) eqn:E; [|reflexivity].
  destruct (fence_prefix_free fence s Hok E) as (a & Ea & Ha).
  pose proof (locate_pre a (Str.drop (String.length fence) s) Ha) as H.
  rewrite <- Ea in H. now symmetry.
Qed.

Lemma locate_fence_end s : locate (sub_fence_end s) = locate s.
Proof.
  destruct (sub_fence_end_tail s) as (x & t & t' & Es & Er & [Ht1 Ht2] & [Ht1' Ht2']).
  rewrite Er, (locate_post x t' Ht2' (or_intror Ht1')).
  pose proof (locate_post x t Ht2 (or_intror Ht1)) as H.
  rewrite <- Es in H. now symmetry.
Qed.

(** Trimming and removing the fences changes nothing for the search. *)
Lemma locate_strip_fences raw : locate (strip_fences raw) = locate raw.
Proof.
  unfold strip_fences.
  rewrite locate_strip, locate_fence_end, locate_strip.
  rewrite (locate_fence_start "```" _ eq_refl), locate_strip.
  rewrite (locate_fence_start "```json" _ eq_refl). apply locate_strip.
Qed.

Lemma extract_locate raw :
  extract_json_block raw
  = if Str.nonempty raw then locate raw else Raise EmptyInputError.
Proof.
  unfold extract_json_block. destruct (Str.nonempty raw); cbn [negb]; [|reflexivity].
  exact (locate_strip_fences raw).
Qed.

(** The span that [locate] returns. *)
Lemma locate_ok text s :
  locate text = Ok s ->
  exists pre post,
    text = String.append pre (String.append s post) /\
    brace_free pre /\ balanced_span s.
Proof.
  unfold locate. intros H.
  destruct (Str.find_char Str.lbrace text) as [n|] eqn:En; [|discriminate].
  destruct (find_char_split _ _ _ En) as (pre & rest & -> & Hlen & Hpre).
  rewrite <- Hlen, drop_append in H.
  destruct (scan (String Str.lbrace rest) (String.length pre) 0 false false)
    as [i|] eqn:Ei; [|discriminate].
  injection H as <-.
  cbn [scan] in Ei. change (Ascii.eqb Str.lbrace Str.backslash) with false in Ei.
  change (Ascii.eqb Str.lbrace Str.dquote) with false in Ei.
  cbn [negb] in Ei. rewrite Ascii.eqb_refl in Ei.
  destruct (scan_returns rest
              {| depth := 0 + 1; in_string := false; escape_pending := false |}
              (S (String.length pre)) i ltac:(cbn; lia) Ei)
    as (sp & post & -> & Hne & -> & Hend & Hopen).
  exists pre, post.
  assert (Espan : Str.slice (String.length pre)
                    (S (String.length pre) + String.length sp - 1 + 1)
                    (String.append pre (String Str.lbrace (String.append sp post)))
                  = String Str.lbrace sp).
  { replace (S (String.length pre) + String.length sp - 1 + 1)%nat
      with (String.length pre + String.length (String Str.lbrace sp))%nat
      by (cbn [String.length]; destruct sp; [congruence | cbn; lia]).
    exact (slice_append pre (String Str.lbrace sp) post). }
  rewrite Espan. split; [reflexivity|]. split; [exact Hpre|].
  split; [reflexivity|]. split; [exact Hend|].
  intros a b Eab Ha Hb. destruct a as [|x a]; [congruence|].
  cbn in Eab. injection Eab as <- Eab. cbn [track].
  destruct a as [|y a]; [cbn; lia|].
  apply (Hopen (String y a) b Eab); [discriminate | exact Hb].
Qed.

(** A balanced span behind text without an opening brace is found. *)
Lemma locate_balanced pre span post :
  brace_free pre -> balanced_span span ->
  locate (String.append pre (String.append span post)) = Ok span.
Proof.
  intros Hpre Hbal. rewrite (locate_pre pre _ Hpre).
  destruct (balanced_shape span Hbal) as (m & E).
  destruct Hbal as (_ & Hend & Hopen). unfold locate.
  rewrite E. cbn [String.append Str.find_char]. rewrite Ascii.eqb_refl.
  cbn [Str.drop scan]. change (Ascii.eqb Str.lbrace Str.backslash) with false.
  change (Ascii.eqb Str.lbrace Str.dquote) with false.
  cbn [negb]. rewrite Ascii.eqb_refl.
  assert (Hm : String.append m (String Str.rbrace "") <> "") by now destruct m.
  pose proof (scan_closes (String.append m (String Str.rbrace ""))
                {| depth := 0 + 1; in_string := false; escape_pending := false |}
                1%nat post Hm) as Hscan.
  cbn [depth in_string escape_pending] in Hscan. rewrite Hscan; [ | lia | | ].
  - f_equal.
    replace (1 + String.length (String.append m (String Str.rbrace "")) - 1 + 1)%nat
      with (0 + String.length (String Str.lbrace (String.append m (String Str.rbrace ""))))%nat
      by (cbn [String.length]; lia).
    exact (slice_append "" (String Str.lbrace (String.append m (String Str.rbrace ""))) post).
  - rewrite E in Hend. exact Hend.
  - intros a b Eab Ha Hb.
    apply (Hopen (String Str.lbrace a) b); [ | congruence | exact Hb].
    rewrite E. cbn [String.append]. now rewrite Eab.
Qed.

Lemma extract_json_block_sound_aux raw s :
  extract_json_block raw = Ok s -> balanced_span s.
Proof.
  rewrite extract_locate. destruct (Str.nonempty raw); [|discriminate].
  intros H. now destruct (locate_ok _ _ H) as (_ & _ & _ & _ & Hbal).
Qed.

Lemma nonempty_app_brace a t b :
  Str.find_char Str.lbrace t <> None ->
  Str.nonempty (String.append a (String.append t b)) = true
  /\ Str.nonempty t = true.
Proof.
  intros H. destruct t as [|c t]; [now cbn in H|]. split; [|reflexivity].
  now destruct a.
Qed.

End ExtractMoreFacts.

Module ExtractExtras.
Import Extract StrFacts ExtractFacts ExtractMore ExtractMoreFacts.

(** X1.  Whatever [extract_json_block] returns is a piece of the text
    it was given: the text is [pre ++ s ++ post], there is no opening
    brace in [pre], and [s] is a balanced span (it starts with an
    opening brace, and its depth is back to zero at its last character
    and not before). *)
Theorem extract_json_block_sound (raw_text s : string) :
  extract_json_block raw_text = Ok s ->
  exists pre post,
    raw_text = String.append pre (String.append s post) /\
    Str.find_char Str.lbrace pre = None /\
    balanced_span s.
Proof.
  rewrite extract_locate. destruct (Str.nonempty raw_text); [|discriminate].
  apply locate_ok.
Qed.

Lemma extract_json_block_sound_witness :
  exists pre post,
    String.append "Plan: " (String.append embedded_brace_text " (end)")
    = String.append pre (String.append embedded_brace_object post) /\
    Str.find_char Str.lbrace pre = None /\
    balanced_span embedded_brace_object.
Proof.
  apply (extract_json_block_sound
           (String.append "Plan: " (String.append embedded_brace_text " (end)"))).
  reflexivity.
Defined.

(** X2.  A text that is not empty and holds no opening brace raises the
    no-object-start error, whatever fences and blanks it has. *)
Theorem extract_json_block_no_brace (raw_text : string) :
  Str.nonempty raw_text = true ->
  Str.find_char Str.lbrace raw_text = None ->
  extract_json_block raw_text = Raise NoObjectStartError.
Proof.
  intros Hne Hfree. rewrite extract_locate, Hne. unfold locate. now rewrite Hfree.
Qed.

Lemma extract_json_block_no_brace_witness :
  extract_json_block "```json Sorry, no plan today. ```"
  = Raise NoObjectStartError.
Proof.
  apply extract_json_block_no_brace; reflexivity.
Defined.

(** X3.  The unbalanced-object error is raised exactly when the text has
    an opening brace and no stretch of text starting at the first one is
    a balanced span. *)
Theorem extract_json_block_unbalanced (raw_text : string) :
  extract_json_block raw_text = Raise UnbalancedObjectError
  <-> exists pre rest,
        raw_text = String.append pre (String Str.lbrace rest) /\
        Str.find_char Str.lbrace pre = None /\
        forall span post,
          String Str.lbrace rest = String.append span post ->
          ~ balanced_span span.
Proof.
  rewrite extract_locate. split.
  - destruct (Str.nonempty raw_text); [|discriminate]. intros H.
    assert (Hfind : exists n, Str.find_char Str.lbrace raw_text = Some n).
    { unfold locate in H.
      destruct (Str.find_char Str.lbrace raw_text); [eauto | discriminate]. }
    destruct Hfind as (n & Hn).
    destruct (find_char_split _ _ _ Hn) as (pre & rest & -> & _ & Hpre).
    exists pre, rest. split; [reflexivity|]. split; [exact Hpre|].
    intros span post E Hbal.
    rewrite E, (locate_balanced pre span post Hpre Hbal) in H. discriminate H.
  - intros (pre & rest & -> & Hpre & Hnone).
    replace (Str.nonempty (String.append pre (String Str.lbrace rest))) with true
      by now destruct pre.
    rewrite (locate_pre pre _ Hpre).
    destruct (locate (String Str.lbrace rest)) as [s|e] eqn:E.
    + destruct (locate_ok _ _ E) as (pre' & post' & E' & Hpre' & Hbal).
      destruct pre' as [|c pre'].
      * now destruct (Hnone s post' E').
      * cbn in E'. injection E' as <- _. discriminate Hpre'.
    + unfold locate in E. cbn [Str.find_char] in E.
      rewrite Ascii.eqb_refl in E.
      destruct (scan (Str.drop 0 (String Str.lbrace rest)) 0 0 false false);
        [discriminate | now symmetry].
Qed.

(** X4.  Text without an opening brace in front of a text that has one,
    and text without a closing brace behind it, change nothing: prose,
    fences and blanks around the object are ignored, in the result and
    in the error alike. *)
Theorem extract_json_block_surroundings (before text after : string) :
  Str.find_char Str.lbrace before = None ->
  Str.find_char Str.lbrace text <> None ->
  Str.find_char Str.rbrace after = None ->
  extract_json_block (String.append before (String.append text after))
  = extract_json_block text.
Proof.
  intros Hb Ht Ha. rewrite !extract_locate.
  destruct (nonempty_app_brace before text after Ht) as [-> ->].
  rewrite (locate_pre before _ Hb). apply locate_post; [exact Ha | now left].
Qed.

Lemma extract_json_block_surroundings_witness :
  extract_json_block
    (String.append "Here is your plan: ```json "
       (String.append days_object " ``` Have a nice trip!"))
  = extract_json_block days_object.
Proof.
  apply extract_json_block_surroundings; [reflexivity | discriminate | reflexivity].
Defined.

(** X5.  What [extract_json_block] returns is returned unchanged when it
    is extracted again. *)
Theorem extract_json_block_idempotent (raw_text s : string) :
  extract_json_block raw_text = Ok s ->
  extract_json_block s = Ok s.
Proof.
  intros H. pose proof (extract_json_block_sound_aux raw_text s H) as Hbal.
  rewrite extract_locate.
  replace (Str.nonempty s) with true
    by (destruct Hbal as (Hp & _); now destruct s).
  pose proof (locate_balanced "" s "" eq_refl Hbal) as Hl.
  cbn [String.append] in Hl. now rewrite append_empty_r in Hl.
Qed.

Lemma extract_json_block_idempotent_witness :
  extract_json_block embedded_brace_object = Ok embedded_brace_object.
Proof.
  apply (extract_json_block_idempotent embedded_brace_text). reflexivity.
Defined.

(** X24.  Trimming the text and removing the code fences (lines
    101-105) never changes the outcome: the result, or the error, is
    that of the search for the brace and of the scan on the text as it
    was given. *)
Theorem extract_json_block_fences_idle (raw_text : string) :
  extract_json_block raw_text
  = if Str.nonempty raw_text then locate raw_text else Raise EmptyInputError.
Proof.
  unfold extract_json_block.
  destruct (Str.nonempty raw_text); cbn [negb]; [|reflexivity].
  exact (locate_strip_fences raw_text).
Qed.

End ExtractExtras.

(** ** More on [parse_extra_sections] *)

Module SectionsMoreFacts.
Import Re Sections StrFacts SectionsFacts SectionsMore.
Import ExtractMore ExtractMoreFacts.

(** *** Trimming *)

Lemma lstrip_no_lead s : no_lead (Str.lstrip s).
Proof.
  induction s as [|c s IH]; [exact I|].
  cbn [Str.lstrip]. destruct (Str.isspace c) eqn:E; [exact IH | exact E].
Qed.

Lemma no_lead_lstrip s : no_lead s -> Str.lstrip s = s.
Proof. destruct s as [|c s]; [reflexivity|]. cbn. now intros ->. Qed.

Lemma rstrip_no_lead s : no_lead s -> no_lead (Str.rstrip s).
Proof.
  destruct s as [|c s]; [exact id|]. cbn [no_lead Str.rstrip]. intros Hc.
  destruct (Str.rstrip s); [now rewrite Hc | exact Hc].
Qed.

Lemma rstrip_idempotent s : Str.rstrip (Str.rstrip s) = Str.rstrip s.
Proof.
  induction s as [|c s IH]; [reflexivity|].
  cbn [Str.rstrip]. destruct (Str.rstrip s) as [|x r] eqn:Er.
  - destruct (Str.isspace c) eqn:E; [reflexivity|]. cbn. now rewrite E.
  - cbn [Str.rstrip] in *. now rewrite IH.
Qed.

Lemma strip_idempotent s : Str.strip (Str.strip s) = Str.strip s.
Proof.
  unfold Str.strip.
  rewrite (no_lead_lstrip _ (rstrip_no_lead _ (lstrip_no_lead s))).
  apply rstrip_idempotent.
Qed.

Lemma append_same_length a s b :
  s = String.append a (String.append s b) -> a = "" /\ b = "".
Proof.
  intros E. apply (f_equal String.length) in E.
  rewrite !append_length in E.
  destruct a; destruct b; cbn in E; try lia. now split.
Qed.

(** A trimmed text has no blank at either end. *)
Lemma strip_fixed s :
  Str.strip s = s -> Str.lstrip s = s /\ Str.rstrip s = s.
Proof.
  intros H. unfold Str.strip in H.
  destruct (lstrip_split s) as (a & Ea & _).
  destruct (rstrip_split (Str.lstrip s)) as (b & Eb & _).
  rewrite H in Eb. rewrite Eb in Ea.
  destruct (append_same_length _ _ _ Ea) as [-> ->].
  rewrite append_empty_r in Eb. split; [exact Eb|].
  rewrite Eb in H. exact H.
Qed.

(** *** Pieces of a text *)

Lemma piece_refl s : piece s s.
Proof. exists "", "". cbn. now rewrite append_empty_r. Qed.

Lemma piece_trans a b c : piece a b -> piece b c -> piece a c.
Proof.
  intros (x & y & ->) (u & v & ->).
  exists (String.append u x), (String.append y v).
  now rewrite !append_assoc3.
Qed.

Lemma piece_suffix a s : piece s (String.append a s).
Proof. exists a, "". now rewrite append_empty_r. Qed.

Lemma piece_prefix s b : piece s (String.append s b).
Proof. now exists "", b. Qed.

Lemma piece_empty s : piece "" s.
Proof. now exists "", s. Qed.

Lemma piece_lstrip s : piece (Str.lstrip s) s.
Proof.
  destruct (lstrip_split s) as (a & E & _). rewrite E at 2. apply piece_suffix.
Qed.

Lemma piece_rstrip s : piece (Str.rstrip s) s.
Proof.
  destruct (rstrip_split s) as (b & E & _). rewrite E at 2. apply piece_prefix.
Qed.

Lemma piece_strip s : piece (Str.strip s) s.
Proof.
  unfold Str.strip. exact (piece_trans _ _ _ (piece_rstrip _) (piece_lstrip s)).
Qed.

Lemma piece_drop : forall n s, piece (Str.drop n s) s.
Proof.
  induction n as [|n IH]; intros s; [apply piece_refl|].
  destruct s as [|c s]; [apply piece_refl|]. cbn [Str.drop].
  apply (piece_trans _ s); [apply IH|]. exact (piece_suffix (String c "") s).
Qed.

Lemma piece_skip_sep s : piece (skip_sep s) s.
Proof.
  destruct s as [|c s]; [apply piece_refl|]. cbn [skip_sep].
  destruct (Ascii.eqb c ":" || Ascii.eqb c "-")%bool; [|apply piece_refl].
  exact (piece_suffix (String c "") s).
Qed.

Lemma piece_label_here key s rest :
  label_here key s = Some rest -> piece rest s.
Proof.
  unfold label_here. destruct (Str.prefix_ci (label key) s); [|discriminate].
  cbv zeta.
  set (r := Str.drop (String.length (label key)) s).
  set (long := Str.drop (String.length " recommendations") r).
  assert (Hr : piece r s) by apply piece_drop.
  assert (Hlong : piece long s) by (apply (piece_trans _ r); [apply piece_drop | exact Hr]).
  destruct (String.eqb key "famous_shopping").
  - destruct (Str.prefix_ci " recommendations" r && Str.prefix_ci ":" long)%bool.
    + intros H. injection H as <-.
      apply (piece_trans _ long); [exact (piece_drop 1 long) | exact Hlong].
    + destruct (Str.prefix_ci ":" r); [|discriminate].
      intros H. injection H as <-.
      apply (piece_trans _ r); [exact (piece_drop 1 r) | exact Hr].
  - intros H. injection H as <-.
    apply (piece_trans _ r); [apply piece_skip_sep | exact Hr].
Qed.

Lemma piece_after_label key : forall s rest,
  after_label key s = Some rest -> piece rest s.
Proof.
  induction s as [|c s IH]; intros rest H; cbn [after_label] in H.
  - destruct (label_here key "") eqn:E; [|discriminate].
    injection H as <-. exact (piece_label_here _ _ _ E).
  - destruct (label_here key (String c s)) eqn:E.
    + injection H as <-. exact (piece_label_here _ _ _ E).
    + apply (piece_trans _ s); [now apply IH|].
      exact (piece_suffix (String c "") s).
Qed.

Lemma piece_until_stop phrases s : piece (until_stop phrases s) s.
Proof.
  destruct (until_stop_cut phrases s) as (tail & E & _).
  rewrite E at 2. apply piece_prefix.
Qed.

Lemma piece_section_text key text : piece (section_text key text) text.
Proof.
  unfold section_text.
  destruct (after_label key text) as [rest|] eqn:E; [|apply piece_empty].
  apply (piece_trans _ rest); [|exact (piece_after_label _ _ _ E)].
  destruct (String.eqb key "closing_note"); [apply piece_strip|].
  eapply piece_trans; [apply piece_strip|].
  eapply piece_trans; [apply piece_until_stop | apply piece_lstrip].
Qed.

Lemma strip_section_text key text :
  Str.strip (section_text key text) = section_text key text.
Proof.
  unfold section_text. destruct (after_label key text); [|reflexivity].
  destruct (String.eqb key "closing_note"); apply strip_idempotent.
Qed.

Lemma lookup_map_value {V : Type} (f : string -> V) key v : forall keys,
  Dict.lookup key (map (fun k => (k, f k)) keys) = Some v -> v = f key.
Proof.
  induction keys as [|k keys IH]; [discriminate|]. cbn [map Dict.lookup].
  destruct (String.eqb k key) eqn:E; [|exact IH].
  apply String.eqb_eq in E. subst k. intros H. now injection H as <-.
Qed.

(** *** A section read back *)

Lemma occurs_tail p c s : occurs p (String c s) = false -> occurs p s = false.
Proof. cbn [occurs]. intros H. now apply orb_false_iff in H. Qed.

Lemma occurs_head p s : occurs p s = false -> Str.prefix_ci p s = false.
Proof. destruct s; cbn [occurs]; intros H; now apply orb_false_iff in H. Qed.

Lemma rstrip_tail c s : Str.rstrip (String c s) = String c s -> Str.rstrip s = s.
Proof.
  cbn [Str.rstrip]. destruct (Str.rstrip s) as [|x r] eqn:E.
  - destruct (Str.isspace c); [discriminate|]. intros H. now injection H as <-.
  - intros H. now injection H as <-.
Qed.

(** Without a stop phrase inside and without a blank at its end, a text
    is taken whole. *)
Lemma until_stop_all phrases : forall body,
  Str.rstrip body = body ->
  (forall p, In p phrases -> occurs p body = false) ->
  until_stop phrases body = body.
Proof.
  induction body as [|c body IH]; intros Hr Hfree;
    [cbn [until_stop]; now destruct (stop_here phrases "")|].
  cbn [until_stop].
  assert (Hstop : stop_here phrases (String c body) = false).
  { unfold stop_here. apply orb_false_iff. split.
    - clear IH Hr. induction phrases as [|p ps IHp]; [reflexivity|].
      cbn [existsb]. rewrite (occurs_head p _ (Hfree p (or_introl eq_refl))).
      apply IHp. intros q Hq. apply Hfree. now right.
    - unfold at_end. cbn [String.eqb orb].
      destruct (Ascii.eqb c Str.newline) eqn:E; [|reflexivity].
      destruct body as [|d body]; [|reflexivity].
      apply Ascii.eqb_eq in E. subst c. discriminate Hr. }
  rewrite Hstop. f_equal. apply IH; [exact (rstrip_tail _ _ Hr)|].
  intros p Hp. exact (occurs_tail p c body (Hfree p Hp)).
Qed.

(** *** Letter case *)

Lemma lower_char_idempotent c :
  Str.lower_char (Str.lower_char c) = Str.lower_char c.
Proof. destruct c as [[] [] [] [] [] [] [] []]; reflexivity. Qed.

Lemma isspace_lower c : Str.isspace (Str.lower_char c) = Str.isspace c.
Proof. destruct c as [[] [] [] [] [] [] [] []]; reflexivity. Qed.

Lemma newline_lower c :
  Ascii.eqb (Str.lower_char c) Str.newline = Ascii.eqb c Str.newline.
Proof. destruct c as [[] [] [] [] [] [] [] []]; reflexivity. Qed.

Lemma sep_lower c :
  (Ascii.eqb (Str.lower_char c) ":" || Ascii.eqb (Str.lower_char c) "-")%bool
  = (Ascii.eqb c ":" || Ascii.eqb c "-")%bool.
Proof. destruct c as [[] [] [] [] [] [] [] []]; reflexivity. Qed.

Lemma prefix_ci_lower p : forall s,
  Str.prefix_ci p (Str.lower s) = Str.prefix_ci p s.
Proof.
  induction p as [|a p IH]; intros s; [reflexivity|].
  destruct s as [|c s]; [reflexivity|].
  cbn [Str.lower Str.prefix_ci]. now rewrite lower_char_idempotent, IH.
Qed.

Lemma drop_lower : forall n s, Str.drop n (Str.lower s) = Str.lower (Str.drop n s).
Proof.
  induction n as [|n IH]; intros s; [reflexivity|].
  destruct s as [|c s]; [reflexivity|]. cbn [Str.lower Str.drop]. apply IH.
Qed.

Lemma lstrip_lower s : Str.lstrip (Str.lower s) = Str.lower (Str.lstrip s).
Proof.
  induction s as [|c s IH]; [reflexivity|].
  cbn [Str.lower Str.lstrip]. rewrite isspace_lower.
  destruct (Str.isspace c); [exact IH | reflexivity].
Qed.

Lemma rstrip_lower s : Str.rstrip (Str.lower s) = Str.lower (Str.rstrip s).
Proof.
  induction s as [|c s IH]; [reflexivity|].
  cbn [Str.lower Str.rstrip]. rewrite IH, isspace_lower.
  destruct (Str.rstrip s); cbn [Str.lower]; [|reflexivity].
  now destruct (Str.isspace c).
Qed.

Lemma strip_lower s : Str.strip (Str.lower s) = Str.lower (Str.strip s).
Proof. unfold Str.strip. now rewrite lstrip_lower, rstrip_lower. Qed.

Lemma at_end_lower s : at_end (Str.lower s) = at_end s.
Proof.
  unfold at_end. destruct s as [|c [|d s]]; cbn [Str.lower String.eqb orb];
    rewrite ?newline_lower; reflexivity.
Qed.

Lemma stop_here_lower phrases s :
  stop_here phrases (Str.lower s) = stop_here phrases s.
Proof.
  unfold stop_here. rewrite at_end_lower. f_equal.
  induction phrases as [|p ps IH]; [reflexivity|].
  cbn [existsb]. now rewrite prefix_ci_lower, IH.
Qed.

Lemma until_stop_lower phrases : forall s,
  until_stop phrases (Str.lower s) = Str.lower (until_stop phrases s).
Proof.
  induction s as [|c s IH].
  - cbn [Str.lower until_stop]. now destruct (stop_here phrases "").
  - change (Str.lower (String c s)) with (String (Str.lower_char c) (Str.lower s)).
    cbn [until_stop].
    change (String (Str.lower_char c) (Str.lower s)) with (Str.lower (String c s)).
    rewrite stop_here_lower. destruct (stop_here phrases (String c s)); [reflexivity|].
    cbn [Str.lower]. now rewrite IH.
Qed.

Lemma skip_sep_lower s : skip_sep (Str.lower s) = Str.lower (skip_sep s).
Proof.
  destruct s as [|c s]; [reflexivity|]. cbn [Str.lower skip_sep].
  rewrite sep_lower. now destruct (Ascii.eqb c ":" || Ascii.eqb c "-")%bool.
Qed.

Lemma label_here_lower key s :
  label_here key (Str.lower s) = option_map Str.lower (label_here key s).
Proof.
  unfold label_here. rewrite prefix_ci_lower.
  destruct (Str.prefix_ci (label key) s); [|reflexivity]. cbv zeta.
  rewrite (drop_lower (String.length (label key)) s).
  set (r := Str.drop (String.length (label key)) s).
  rewrite (drop_lower (String.length " recommendations") r).
  set (long := Str.drop (String.length " recommendations") r).
  rewrite (drop_lower 1 long), (drop_lower 1 r), skip_sep_lower.
  rewrite (prefix_ci_lower " recommendations" r), (prefix_ci_lower ":" long),
    (prefix_ci_lower ":" r).
  destruct (String.eqb key "famous_shopping"); [|reflexivity].
  destruct (Str.prefix_ci " recommendations" r && Str.prefix_ci ":" long)%bool;
    [reflexivity|].
  now destruct (Str.prefix_ci ":" r).
Qed.

Lemma after_label_lower key : forall s,
  after_label key (Str.lower s) = option_map Str.lower (after_label key s).
Proof.
  induction s as [|c s IH].
  - change (Str.lower "") with "". cbn [after_label].
    pose proof (label_here_lower key "") as H. cbn [Str.lower] in H.
    destruct (label_here key "") as [rest|]; [|reflexivity].
    cbn [option_map] in *. exact H.
  - change (Str.lower (String c s)) with (String (Str.lower_char c) (Str.lower s)).
    cbn [after_label].
    change (String (Str.lower_char c) (Str.lower s)) with (Str.lower (String c s)).
    rewrite label_here_lower.
    destruct (label_here key (String c s)); [reflexivity | exact IH].
Qed.

Lemma section_text_lower key text :
  section_text key (Str.lower text) = Str.lower (section_text key text).
Proof.
  unfold section_text. rewrite after_label_lower.
  destruct (after_label key text) as [rest|]; [|reflexivity]. cbn [option_map].
  destruct (String.eqb key "closing_note"); [apply strip_lower|].
  now rewrite lstrip_lower, until_stop_lower, strip_lower.
Qed.

End SectionsMoreFacts.

Module SectionsExtras.
Import Re Sections StrFacts SectionsFacts SectionsMore SectionsMoreFacts.

(** X6.  Every value of the returned mapping is a stretch of consecutive
    characters of the text, with no white space at either end: nothing
    is returned that the text does not hold. *)
Theorem parse_extra_sections_values (text : string) (out : Dict.t string)
  (key v : string) :
  parse_extra_sections text = Ok out ->
  Dict.lookup key out = Some v ->
  piece v text /\ Str.strip v = v.
Proof.
  rewrite parse_extra_sections_eq. intros H Hv. injection H as <-.
  apply (lookup_map_value (fun k => section_text k text) key v section_keys) in Hv.
  subst v.
  split; [apply piece_section_text | apply strip_section_text].
Qed.

Lemma parse_extra_sections_values_witness :
  piece "sun hat" "What to pack:  sun hat  Safety rules: none"
  /\ Str.strip "sun hat" = "sun hat".
Proof.
  eapply (parse_extra_sections_values
            "What to pack:  sun hat  Safety rules: none" _ "what_to_pack");
    [vm_compute; reflexivity | reflexivity].
Defined.

(** X7.  A section written as its label, a colon, a blank and a body is
    read back as that body, provided the body has no white space at its
    ends and mentions none of the stop phrases of its key. *)
Theorem parse_extra_sections_reads_back (key body : string) :
  In key section_keys ->
  Str.strip body = body ->
  (forall p, In p (stops key) -> occurs p body = false) ->
  exists out,
    parse_extra_sections
      (String.append (label key) (String.append ": " body)) = Ok out /\
    Dict.lookup key out = Some body.
Proof.
  intros Hin Hstrip Hfree.
  destruct (strip_fixed body Hstrip) as [Hl Hr].
  eexists. split; [apply parse_extra_sections_eq|].
  rewrite (lookup_sections _ key Hin). f_equal. unfold section_text.
  assert (Hafter : after_label key (String.append (label key) (String.append ": " body))
                   = Some (String " " body)).
  { cbn in Hin.
    repeat (destruct Hin as [<-|Hin]; [reflexivity|]). contradiction. }
  rewrite Hafter.
  destruct (String.eqb key "closing_note").
  - unfold Str.strip. cbn [Str.lstrip]. change (Str.isspace " ") with true.
    cbv iota. exact Hstrip.
  - cbn [Str.lstrip]. change (Str.isspace " ") with true. cbv iota.
    now rewrite Hl, (until_stop_all _ body Hr Hfree).
Qed.

Lemma parse_extra_sections_reads_back_witness :
  exists out,
    parse_extra_sections "Safety rules: carry water; Closing note applies" = Ok out /\
    Dict.lookup "safety_rules" out = Some "carry water; Closing note applies".
Proof.
  apply (parse_extra_sections_reads_back "safety_rules"
           "carry water; Closing note applies").
  - cbn. auto.
  - reflexivity.
  - intros p [<-|[<-|[]]]; reflexivity.
Defined.

(** X8.  For a text of code points below U+0100, where [str.lower] maps
    character by character: letter case plays no part in finding labels
    and stop phrases, and for the text in lower case the mapping holds
    the same captures in lower case. *)
Theorem parse_extra_sections_lower (text : string) :
  parse_extra_sections (Str.lower text)
  = (out <- parse_extra_sections text ;; Ok (lower_values out)).
Proof.
  rewrite !parse_extra_sections_eq. cbn [bind]. f_equal.
  unfold lower_values, section_keys. cbn [map fst snd].
  now rewrite !section_text_lower.
Qed.

End SectionsExtras.

(* ================================================================= *)
(** ** More about [normalize_daywise_schema] *)

Module NormalizeMoreFacts.
Import Py Normalize NormalizeFacts NormalizeMore.
Local Open Scope list_scope.

(** *** The [setdefault] calls *)

Lemma ensure_morning_dict m :
  ensure_morning (JDict m) = Ok (JDict (fill_morning m)).
Proof. reflexivity. Qed.

Lemma ensure_block_dict meal m :
  ensure_block meal (JDict m) = Ok (JDict (fill_block meal m)).
Proof. reflexivity. Qed.

Lemma lookup_setdefault_keeps {V : Type} key key' (v w : V) d :
  Dict.lookup key' d = Some w ->
  Dict.lookup key' (Dict.setdefault key v d) = Some w.
Proof.
  intros H. unfold Dict.setdefault. destruct (Dict.mem key d) eqn:Hm; [exact H|].
  destruct (String.eqb key key') eqn:E.
  - apply String.eqb_eq in E. subst key'. unfold Dict.mem in Hm.
    rewrite H in Hm. discriminate Hm.
  - now rewrite (lookup_set_other _ _ v d E).
Qed.

Lemma lookup_set_same {V : Type} key (v : V) d :
  Dict.mem key d = false -> Dict.lookup key (Dict.set key v d) = Some v.
Proof.
  unfold Dict.mem. induction d as [|[k w] d IH]; cbn.
  - now rewrite String.eqb_refl.
  - destruct (String.eqb k key) eqn:E; [discriminate|]. cbn. rewrite E. exact IH.
Qed.

(** [d.setdefault(key, v)] followed by [d.get(key, v)] is [d.get(key, v)]. *)
Lemma get_setdefault_same {V : Type} key (v : V) d :
  Dict.get key v (Dict.setdefault key v d) = Dict.get key v d.
Proof.
  unfold Dict.setdefault. destruct (Dict.mem key d) eqn:Hm; [reflexivity|].
  unfold Dict.get. rewrite (lookup_set_same _ v _ Hm).
  unfold Dict.mem in Hm. now destruct (Dict.lookup key d).
Qed.

Lemma get_setdefault_other {V : Type} key key' (v w : V) d :
  String.eqb key key' = false ->
  Dict.get key' w (Dict.setdefault key v d) = Dict.get key' w d.
Proof.
  intros E. unfold Dict.setdefault. destruct (Dict.mem key d); [reflexivity|].
  unfold Dict.get. now rewrite (lookup_set_other _ _ v d E).
Qed.

Lemma fill_morning_keeps m key w :
  Dict.lookup key m = Some w -> Dict.lookup key (fill_morning m) = Some w.
Proof.
  intros H. unfold fill_morning. now repeat apply lookup_setdefault_keeps.
Qed.

Lemma fill_block_keeps meal m key w :
  Dict.lookup key m = Some w -> Dict.lookup key (fill_block meal m) = Some w.
Proof.
  intros H. unfold fill_block. now repeat apply lookup_setdefault_keeps.
Qed.

Lemma fill_morning_visit m :
  Dict.get "place_to_visit" (JStr "") (fill_morning m)
  = Dict.get "place_to_visit" (JStr "") m.
Proof.
  unfold fill_morning.
  rewrite !(get_setdefault_other _ "place_to_visit") by reflexivity.
  rewrite get_setdefault_same.
  now rewrite !(get_setdefault_other _ "place_to_visit") by reflexivity.
Qed.

(** *** The loop body in closed form *)

Lemma legacy_meal_eq items key :
  legacy_meal (JDict items) key = Ok (JDict (meal_of items key)).
Proof.
  unfold legacy_meal, meal_of. cbn [isinstance_dict get get_default bind].
  destruct (Dict.get key JNull items) eqn:E; cbn [isinstance_dict bind];
    try reflexivity.
Qed.

Lemma normalize_entry_dict i items places :
  match entry_record i items places with
  | Some r => normalize_entry i (JDict items) places = Ok r
  | None => exists t a,
      normalize_entry i (JDict items) places = Raise (AttributeError t a)
  end.
Proof.
  unfold normalize_entry.
  cbn [isinstance_dict get get_default bind].
  replace (if truthy (Dict.get "day" JNull items)
           then Ok (Dict.get "day" JNull items)
           else Ok (JInt (Z.of_nat i + 1)))
    with (Ok (own_or_index i items))
    by (unfold own_or_index; now destruct (truthy (Dict.get "day" JNull items))).
  cbn [bind]. rewrite !or_else_ok. cbn [bind].
  fold (tips_of items).
  unfold entry_record, blocks_of, title_of, or_value.
  fold (has_blocks items). destruct (has_blocks items).
  - unfold given_block, or_value. cbn [bind].
    destruct (if truthy (Dict.get "morning" JNull items)
              then Dict.get "morning" JNull items else JDict []) as [| | | | | |m];
      try solve [cbn [ensure_morning setdefault no_attribute bind]; eauto].
    destruct (if truthy (Dict.get "afternoon" JNull items)
              then Dict.get "afternoon" JNull items else JDict []) as [| | | | | |a];
      try solve [rewrite ensure_morning_dict; cbn [ensure_block setdefault no_attribute bind]; eauto].
    destruct (if truthy (Dict.get "evening" JNull items)
              then Dict.get "evening" JNull items else JDict []) as [| | | | | |e];
      try solve [rewrite ensure_morning_dict; cbn [ensure_block setdefault no_attribute bind]; eauto].
    rewrite ensure_morning_dict. cbn [bind].
    rewrite !ensure_block_dict. cbn [bind get_default].
    destruct (Dict.get "place_to_visit" (JStr "") (fill_morning m));
      cbn [replace_star no_attribute bind]; eauto.
  - cbn [bind]. rewrite !legacy_meal_eq. cbn [bind get get_default].
    rewrite !or_else_ok. cbn [bind].
    rewrite ensure_morning_dict. cbn [bind].
    rewrite !ensure_block_dict. cbn [bind get_default].
    unfold legacy_morning, legacy_block, or_value.
    destruct (Dict.get "place_to_visit" (JStr "") (fill_morning _));
      cbn [replace_star no_attribute bind]; eauto.
Qed.

Lemma entry_record_ok i items places r :
  normalize_entry i (JDict items) places = Ok r <->
  entry_record i items places = Some r.
Proof.
  pose proof (normalize_entry_dict i items places) as H.
  destruct (entry_record i items places) as [r'|].
  - rewrite H. split; intros E; injection E as <-; reflexivity.
  - destruct H as (t & a & ->). split; discriminate.
Qed.

(** *** Which entries are normalized *)

Lemma given_block_cases items key :
  (block_ok (Dict.get key JNull items) = true /\
   given_block items key
   = Some (match Dict.get key JNull items with JDict m => m | _ => [] end))
  \/ (block_ok (Dict.get key JNull items) = false /\
      given_block items key = None).
Proof.
  unfold given_block, block_ok, or_value.
  destruct (Dict.get key JNull items) as [|b|n|r|s|l|m];
    cbn [truthy isinstance_dict negb orb].
  - left; auto.
  - destruct b; cbn; auto.
  - destruct (n =? 0); cbn; auto.
  - destruct (String.eqb r "0.0" || String.eqb r "-0.0")%bool; cbn; auto.
  - destruct s; cbn; auto.
  - destruct l; cbn; auto.
  - destruct m; cbn; auto.
Qed.

Lemma given_block_dict items key b :
  Dict.lookup key items = Some (JDict b) -> given_block items key = Some b.
Proof.
  intros H. unfold given_block, or_value, Dict.get. rewrite H.
  now destruct b.
Qed.

Lemma legacy_morning_visit items :
  Dict.get "place_to_visit" (JStr "") (legacy_morning items)
  = morning_visit_legacy items.
Proof. reflexivity. Qed.

Lemma accepts_record i items places :
  accepts (JDict items)
  = match entry_record i items places with Some _ => true | None => false end.
Proof.
  unfold accepts, entry_record, blocks_of, morning_visit.
  destruct (has_blocks items).
  - destruct (given_block_cases items "morning") as [[Hm Gm]|[Hm Gm]];
      destruct (given_block_cases items "afternoon") as [[Ha Ga]|[Ha Ga]];
      destruct (given_block_cases items "evening") as [[He Ge]|[He Ge]];
      rewrite ?Hm, ?Ha, ?He, ?Gm, ?Ga, ?Ge; cbn [andb]; try reflexivity.
    rewrite fill_morning_visit.
    destruct (Dict.get "morning" JNull items) as [| | | | | |m]; try reflexivity.
    now destruct (Dict.get "place_to_visit" (JStr "") m).
  - cbn [andb]. rewrite fill_morning_visit, legacy_morning_visit.
    now destruct (morning_visit_legacy items).
Qed.

Lemma normalize_entry_accepts i d places :
  (exists r, normalize_entry i d places = Ok r) <-> accepts d = true.
Proof.
  destruct d as [| | | | | |items];
    try (split; [intros (r & H); lazy in H; discriminate H | discriminate]).
  rewrite (accepts_record i items places).
  pose proof (normalize_entry_dict i items places) as H.
  destruct (entry_record i items places) as [r|].
  - split; eauto.
  - destruct H as (t & a & H).
    split; [intros (r & Hr); congruence | discriminate].
Qed.

Lemma normalize_entries_accepts places : forall l i acc,
  (exists out, normalize_entries i l places acc = Ok out)
  <-> forallb accepts l = true.
Proof.
  induction l as [|d l IH]; intros i acc; cbn [normalize_entries forallb].
  - split; eauto.
  - rewrite andb_true_iff, <- (normalize_entry_accepts i d places). split.
    + intros (out & H). bind_inv H r Hr. split; [eauto|].
      apply (IH (S i) (acc ++ [r])). eauto.
    + intros ((r & Hr) & Hl). rewrite Hr. cbn [bind]. now apply IH.
Qed.

(** *** What holds of every returned record *)

Lemma normalize_entries_all (P : json -> Prop) places : forall l i acc out,
  (forall j d r, normalize_entry j d places = Ok r -> P r) ->
  Forall P acc ->
  normalize_entries i l places acc = Ok out -> Forall P out.
Proof.
  induction l as [|d l IH]; intros i acc out HP Hacc H; cbn [normalize_entries] in H.
  - now injection H as <-.
  - bind_inv H r Hr. apply (IH _ _ _ HP) in H; [exact H|].
    apply Forall_app. split; [exact Hacc|]. constructor; [|constructor].
    exact (HP _ _ _ Hr).
Qed.

Lemma fill_missing_all (P : json -> Prop) n : forall fuel acc,
  (forall idx, P (placeholder idx)) ->
  Forall P acc -> Forall P (fill_missing fuel n acc).
Proof.
  induction fuel as [|fuel IH]; intros acc HP Hacc; cbn [fill_missing];
    [exact Hacc|].
  destruct (Z.of_nat (length acc) <? n); [|exact Hacc].
  apply IH; [exact HP|]. apply Forall_app. split; [exact Hacc|].
  constructor; [apply HP | constructor].
Qed.

Lemma slice_to_all {A : Type} (P : A -> Prop) n l :
  Forall P l -> Forall P (slice_to n l).
Proof. intros H. unfold slice_to. destruct (n <? 0); now apply Forall_prefix. Qed.

Lemma normalize_all (P : json -> Prop) l n places out :
  (forall j d r, normalize_entry j d places = Ok r -> P r) ->
  (forall idx, P (placeholder idx)) ->
  normalize_daywise_schema l n places = Ok out -> Forall P out.
Proof.
  intros HP Hph H. unfold normalize_daywise_schema in H. bind_inv H rs Hrs.
  injection H as <-. apply slice_to_all, fill_missing_all; [exact Hph|].
  exact (normalize_entries_all P places _ _ _ _ HP (Forall_nil _) Hrs).
Qed.

Lemma entry_well_formed i d places r :
  normalize_entry i d places = Ok r -> well_formed r.
Proof.
  intros H.
  destruct (normalize_entry_shape _ _ _ _ H)
    as (items & title & m & a & e & pv & _ & -> & _ & Hm & Ha & He & _).
  unfold record. eexists _, m, a, e.
  split; [reflexivity|]. split; [reflexivity|].
  split; [reflexivity|]. split; [reflexivity|]. split; [reflexivity|].
  auto.
Qed.

Lemma placeholder_well_formed idx : well_formed (placeholder idx).
Proof.
  unfold placeholder. eexists _, _, _, _.
  split; [reflexivity|]. split; [reflexivity|].
  split; [reflexivity|]. split; [reflexivity|]. split; [reflexivity|].
  repeat split.
Qed.

(** *** Where a [day_image] comes from *)

Lemma match_place_in name : forall places d,
  match_place name places d = d \/
  exists p, In p places /\ match_place name places d = local_image p.
Proof.
  induction places as [|q places IH]; intros d; cbn [match_place]; [now left|].
  destruct (Str.nonempty name && Str.contains name (db_place q))%bool.
  - right. exists q. split; [now left | reflexivity].
  - destruct (IH d) as [E|(p & Hp & E)]; [now left|].
    right. exists p. split; [now right | exact E].
Qed.

Lemma first_available_in : forall places d,
  first_available places d = d \/
  exists p, In p places /\ first_available places d = local_image p.
Proof.
  induction places as [|q places IH]; intros d; cbn [first_available]; [now left|].
  destruct (some_text (local_image q)).
  - right. exists q. split; [now left | reflexivity].
  - destruct (IH d) as [E|(p & Hp & E)]; [now left|].
    right. exists p. split; [now right | exact E].
Qed.

Lemma select_image_in name places :
  select_image name places = None \/
  exists p, In p places /\ select_image name places = local_image p.
Proof.
  unfold select_image.
  destruct (match_place_in name places None) as [E|(p & Hp & E)];
    rewrite E.
  - cbn [some_text negb].
    destruct (first_available_in places None) as [E'|(p & Hp & E')];
      rewrite E'; eauto.
  - destruct (negb (some_text (local_image p))); [|eauto].
    destruct (first_available_in places (local_image p)) as [E'|(p' & Hp' & E')];
      rewrite E'; eauto.
Qed.

(** *** The catalog and the rest of the record *)

Lemma entry_record_catalog i items places places' r :
  entry_record i items places = Some r ->
  exists r', entry_record i items places' = Some r' /\
             without_image r' = without_image r.
Proof.
  unfold entry_record. destruct (blocks_of items) as [[[m a] e]|]; [|discriminate].
  destruct (Dict.get "place_to_visit" (JStr "") (fill_morning m));
    try discriminate.
  intros H. injection H as <-. eexists. split; reflexivity.
Qed.

Lemma normalize_entry_catalog i d places places' r :
  normalize_entry i d places = Ok r ->
  exists r', normalize_entry i d places' = Ok r' /\
             without_image r' = without_image r.
Proof.
  intros H. destruct d as [| | | | | |items]; try (lazy in H; discriminate H).
  apply entry_record_ok in H.
  destruct (entry_record_catalog _ _ _ places' _ H) as (r' & Hr' & E).
  exists r'. split; [now apply entry_record_ok | exact E].
Qed.

Lemma normalize_entries_catalog places places' : forall l i acc acc' out,
  map without_image acc' = map without_image acc ->
  normalize_entries i l places acc = Ok out ->
  exists out', normalize_entries i l places' acc' = Ok out' /\
               map without_image out' = map without_image out.
Proof.
  induction l as [|d l IH]; intros i acc acc' out Hacc H;
    cbn [normalize_entries] in *.
  - injection H as <-. eauto.
  - bind_inv H r Hr.
    destruct (normalize_entry_catalog _ _ _ places' _ Hr) as (r' & Hr' & E).
    rewrite Hr'. cbn [bind]. apply (IH _ _ _ _ ) with (2 := H).
    rewrite !map_app, Hacc. cbn [map]. now rewrite E.
Qed.

Lemma fill_missing_catalog n : forall fuel acc acc',
  map without_image acc' = map without_image acc ->
  map without_image (fill_missing fuel n acc')
  = map without_image (fill_missing fuel n acc).
Proof.
  induction fuel as [|fuel IH]; intros acc acc' H; cbn [fill_missing]; [exact H|].
  assert (Hlen : length acc' = length acc).
  { rewrite <- (length_map without_image acc'), H. apply length_map. }
  rewrite Hlen. destruct (Z.of_nat (length acc) <? n); [|exact H].
  apply IH. now rewrite !map_app, H.
Qed.

Lemma slice_to_map {A B : Type} (f : A -> B) n l :
  map f (slice_to n l) = slice_to n (map f l).
Proof.
  unfold slice_to. rewrite length_map. destruct (n <? 0); symmetry; apply firstn_map.
Qed.

(** *** Entries without the three blocks *)

Lemma normalize_entry_legacy i items items' places :
  has_blocks items = false -> has_blocks items' = false ->
  (forall k, In k legacy_keys -> Dict.lookup k items = Dict.lookup k items') ->
  normalize_entry i (JDict items) places = normalize_entry i (JDict items') places.
Proof.
  intros H1 H2 Hk. unfold normalize_entry, legacy_meal.
  cbn [isinstance_dict get get_default bind].
  fold (has_blocks items) (has_blocks items'). rewrite H1, H2.
  unfold Dict.get.
  rewrite (Hk "day"), (Hk "title"), (Hk "day_title"), (Hk "breakfast"),
    (Hk "lunch"), (Hk "dinner"), (Hk "early_place"), (Hk "place_to_visit"),
    (Hk "transport_note_if_long"), (Hk "day_tips"), (Hk "tips")
    by (cbn; tauto).
  reflexivity.
Qed.

Lemma normalize_entries_replace places d d' post : forall pre i acc,
  (forall j, normalize_entry j d places = normalize_entry j d' places) ->
  normalize_entries i (pre ++ d :: post) places acc
  = normalize_entries i (pre ++ d' :: post) places acc.
Proof.
  induction pre as [|x pre IH]; intros i acc H; cbn [app normalize_entries].
  - now rewrite H.
  - destruct (normalize_entry i x places); cbn [bind]; [|reflexivity].
    now apply IH.
Qed.

(** *** A negative count *)

Lemma normalize_negative l n places out :
  n < 0 ->
  normalize_daywise_schema l n places = Ok out ->
  exists rs, normalize_entries 0 l places [] = Ok rs /\
             length rs = length l /\
             out = firstn (Z.to_nat (Z.of_nat (length rs) + n)) rs.
Proof.
  intros Hn H. unfold normalize_daywise_schema in H. bind_inv H rs Hrs.
  injection H as <-. exists rs. split; [exact Hrs|].
  destruct (normalize_entries_ok _ _ _ _ _ Hrs) as (rs' & E & Hlen & _).
  cbn [app] in E. subst rs'. split; [exact Hlen|].
  replace (Z.to_nat n) with O by lia. cbn [fill_missing].
  unfold slice_to. now replace (n <? 0) with true by (symmetry; apply Z.ltb_lt; lia).
Qed.

Lemma field_morning d t m a e n ti im :
  field "morning" (record d t m a e n ti im) = m.
Proof. reflexivity. Qed.

Lemma field_afternoon d t m a e n ti im :
  field "afternoon" (record d t m a e n ti im) = a.
Proof. reflexivity. Qed.

Lemma field_evening d t m a e n ti im :
  field "evening" (record d t m a e n ti im) = e.
Proof. reflexivity. Qed.

Lemma field_lookup key b v :
  Dict.lookup key b = Some v -> field key (JDict b) = v.
Proof. intros H. unfold field, Dict.get. now rewrite H. Qed.

Lemma entry_keeps_blocks i items places r key b k v :
  normalize_entry i (JDict items) places = Ok r ->
  has_blocks items = true ->
  In key ["morning"; "afternoon"; "evening"] ->
  Dict.lookup key items = Some (JDict b) ->
  Dict.lookup k b = Some v ->
  field k (field key r) = v.
Proof.
  intros H Hhas Hkey Hb Hv. apply entry_record_ok in H.
  unfold entry_record, blocks_of in H. rewrite Hhas in H.
  destruct (given_block items "morning") as [m|] eqn:Gm; [|discriminate].
  destruct (given_block items "afternoon") as [a|] eqn:Ga; [|discriminate].
  destruct (given_block items "evening") as [e|] eqn:Ge; [|discriminate].
  destruct (Dict.get "place_to_visit" (JStr "") (fill_morning m));
    try discriminate.
  injection H as <-.
  destruct Hkey as [<-|[<-|[<-|[]]]];
    rewrite (given_block_dict _ _ _ Hb) in *.
  - injection Gm as <-. rewrite field_morning.
    apply field_lookup, fill_morning_keeps, Hv.
  - injection Ga as <-. rewrite field_afternoon.
    apply field_lookup, fill_block_keeps, Hv.
  - injection Ge as <-. rewrite field_evening.
    apply field_lookup, fill_block_keeps, Hv.
Qed.

(** *** Entries in the structure of the prompt *)

Lemma fill_morning_id m : morning_full m -> fill_morning m = m.
Proof.
  intros (H1 & H2 & H3 & H4 & H5). unfold fill_morning.
  now rewrite (setdefault_present "early_place" _ m H1),
    (setdefault_present "breakfast" _ m H2),
    (setdefault_present "place_to_visit" _ m H3),
    (setdefault_present "duration" _ m H4),
    (setdefault_present "transport_to_next" _ m H5).
Qed.

Lemma fill_block_id meal m : block_full meal m -> fill_block meal m = m.
Proof.
  intros (H1 & H2 & H3 & H4). unfold fill_block.
  now rewrite (setdefault_present meal _ m H1),
    (setdefault_present "place_to_visit" _ m H2),
    (setdefault_present "duration" _ m H3),
    (setdefault_present "transport_to_next" _ m H4).
Qed.

Lemma prompt_entry_record i day title m a e note tips pv places :
  truthy day = true -> truthy title = true ->
  morning_full m -> block_full "lunch" a -> block_full "dinner" e ->
  Dict.lookup "place_to_visit" m = Some (JStr pv) ->
  truthy tips = true \/ tips = JStr "" ->
  normalize_entry i (prompt_entry day title m a e note tips) places
  = Ok (record day title (JDict m) (JDict a) (JDict e) note tips
          (image_json (select_image (normalized_name pv) places))).
Proof.
  intros Hday Htitle Hm Ha He Hpv Htips. unfold prompt_entry.
  apply entry_record_ok. unfold entry_record, blocks_of.
  change (has_blocks _) with true. cbv iota.
  unfold given_block, or_value.
  change (Dict.get "morning" JNull _) with (JDict m).
  change (Dict.get "afternoon" JNull _) with (JDict a).
  change (Dict.get "evening" JNull _) with (JDict e).
  rewrite (truthy_full_morning m Hm), (truthy_full_block "lunch" a Ha),
    (truthy_full_block "dinner" e He).
  rewrite (fill_morning_id m Hm), (fill_block_id "lunch" a Ha),
    (fill_block_id "dinner" e He).
  unfold Dict.get at 1. rewrite Hpv.
  unfold own_or_index, title_of, tips_of, or_value.
  change (Dict.get "day" JNull _) with day.
  change (Dict.get "title" JNull _) with title.
  change (Dict.get "day_title" JNull _) with JNull.
  change (Dict.get "day_tips" JNull _) with tips.
  change (Dict.get "tips" JNull _) with JNull.
  change (Dict.get "transport_note_if_long" JNull _) with note.
  rewrite Hday, Htitle. cbn [truthy]. rewrite Htitle.
  destruct Htips as [Ht| ->]; [now rewrite !Ht | reflexivity].
Qed.

Lemma conformant_entry i d places :
  conformant d ->
  exists r, normalize_entry i d places = Ok r /\ without_image r = d.
Proof.
  intros (day & title & m & a & e & note & tips & pv & -> & Hday & Htitle
          & Hm & Ha & He & Hpv & Htips).
  eexists. split.
  - exact (prompt_entry_record i _ _ _ _ _ _ _ _ places
             Hday Htitle Hm Ha He Hpv Htips).
  - reflexivity.
Qed.

Lemma conformant_entries places : forall l i acc,
  Forall conformant l ->
  exists rs, normalize_entries i l places acc = Ok (acc ++ rs) /\
             map without_image rs = l.
Proof.
  induction l as [|d l IH]; intros i acc H; cbn [normalize_entries].
  - exists []. now rewrite app_nil_r.
  - inversion H as [|? ? Hd Hl]; subst.
    destruct (conformant_entry i d places Hd) as (r & -> & Er).
    cbn [bind]. destruct (IH (S i) (acc ++ [r]) Hl) as (rs & -> & Ers).
    exists (r :: rs). rewrite <- app_assoc. cbn [app map].
    now rewrite Er, Ers.
Qed.

End NormalizeMoreFacts.

Module NormalizeExtras.
Import Py Normalize NormalizeFacts NormalizeMore NormalizeMoreFacts.
Local Open Scope list_scope.

(** X9.  A negative count is a slice from the end: the call returns the
    records of the entries but the last [-days_required] of them, and
    no placeholder. *)
Theorem normalize_negative_count (days_list : list json) (days_required : Z)
  (places : list place_row) (out : list json) :
  days_required < 0 ->
  normalize_daywise_schema days_list days_required places = Ok out ->
  length out = Z.to_nat (Z.of_nat (length days_list) + days_required) /\
  forall j d, nth_error days_list j = Some d -> (j < length out)%nat ->
              normalize_entry j d places = Ok (nth j out JNull).
Proof.
  intros Hn H.
  destruct (normalize_negative _ _ _ _ Hn H) as (rs & Hrs & Hlen & ->).
  assert (Hl : length (firstn (Z.to_nat (Z.of_nat (length rs) + days_required)) rs)
               = Z.to_nat (Z.of_nat (length days_list) + days_required)).
  { rewrite length_firstn, Hlen. lia. }
  split; [exact Hl|]. rewrite Hl. intros j d Hd Hj.
  destruct (normalize_entries_ok _ _ _ _ _ Hrs) as (rs' & E & _ & Hnth).
  cbn [app] in E. subst rs'. destruct (Hnth j d Hd) as (r & Hr & Hn').
  cbn [Nat.add] in Hn'. rewrite Hn'. f_equal. symmetry.
  apply nth_error_nth. rewrite nth_error_firstn, Hlen.
  now replace (j <? Z.to_nat (Z.of_nat (length days_list) + days_required))%nat
    with true by (symmetry; apply Nat.ltb_lt; lia).
Qed.

Lemma normalize_negative_count_witness :
  exists out,
    normalize_daywise_schema three_days (-1) [] = Ok out /\
    length out = 2%nat.
Proof.
  eexists. split; [reflexivity|].
  exact (proj1 (normalize_negative_count three_days (-1) [] _
                  ltac:(lia) eq_refl)).
Defined.

(** X10.  Whatever the count, every returned record has the eight keys
    of the template in their order, and its three blocks are dicts with
    all their subkeys. *)
Theorem normalize_well_formed (days_list : list json) (days_required : Z)
  (places : list place_row) (out : list json) :
  normalize_daywise_schema days_list days_required places = Ok out ->
  Forall well_formed out.
Proof.
  apply normalize_all.
  - exact (fun j d r => entry_well_formed j d places r).
  - exact placeholder_well_formed.
Qed.

Lemma normalize_well_formed_witness :
  exists out,
    normalize_daywise_schema [guided_entry] 2 [] = Ok out /\
    Forall well_formed out.
Proof.
  eexists. split; [reflexivity|].
  exact (normalize_well_formed [guided_entry] 2 [] _ eq_refl).
Defined.

(** X11.  A [day_image] is never made up: it is null, or the
    [local_image] of a row of the catalog. *)
Theorem normalize_image_from_catalog (days_list : list json)
  (days_required : Z) (places : list place_row) (out : list json) (r : json) :
  normalize_daywise_schema days_list days_required places = Ok out ->
  In r out ->
  field "day_image" r = JNull \/
  exists p, In p places /\ field "day_image" r = image_json (local_image p).
Proof.
  intros H. revert r. apply Forall_forall. revert H. apply normalize_all.
  - intros j d r Hr. destruct (entry_image _ _ _ _ Hr) as (pv & _ & ->).
    destruct (select_image_in (normalized_name pv) places) as [->|(p & Hp & ->)];
      [now left | right; eauto].
  - intros idx. now left.
Qed.

Lemma normalize_image_from_catalog_witness :
  exists out r,
    normalize_daywise_schema [canyon_entry] 1 lodge_catalog = Ok out /\
    In r out /\
    (field "day_image" r = JNull \/
     exists p, In p lodge_catalog /\
               field "day_image" r = image_json (local_image p)).
Proof.
  eexists _, _. split; [reflexivity|]. split; [left; reflexivity|].
  apply (normalize_image_from_catalog [canyon_entry] 1 lodge_catalog _ _ eq_refl).
  left. reflexivity.
Defined.

(** X12.  The catalog decides [day_image] and nothing else: with another
    catalog the call returns as well, and the records differ in their
    [day_image] at most. *)
Theorem normalize_catalog_only_image (days_list : list json)
  (days_required : Z) (places places' : list place_row) (out : list json) :
  normalize_daywise_schema days_list days_required places = Ok out ->
  exists out',
    normalize_daywise_schema days_list days_required places' = Ok out' /\
    map without_image out' = map without_image out.
Proof.
  intros H. unfold normalize_daywise_schema in *. bind_inv H rs Hrs.
  injection H as <-.
  destruct (normalize_entries_catalog places places' _ _ [] [] _ eq_refl Hrs)
    as (rs' & -> & E).
  cbn [bind]. eexists. split; [reflexivity|].
  rewrite !slice_to_map. f_equal. now apply fill_missing_catalog.
Qed.

Lemma normalize_catalog_only_image_witness :
  exists out out',
    normalize_daywise_schema [canyon_entry] 2 lodge_catalog = Ok out /\
    normalize_daywise_schema [canyon_entry] 2 bare_catalog = Ok out' /\
    map without_image out' = map without_image out.
Proof.
  destruct (normalize_catalog_only_image [canyon_entry] 2 lodge_catalog
              bare_catalog _ eq_refl) as (out' & H & E).
  eexists _, out'. split; [reflexivity|]. split; [exact H | exact E].
Defined.

(** X13.  The call returns exactly when every entry of the list, also
    those beyond the count, is an object whose morning place is a text
    and, if it has all three blocks, whose blocks are falsy or
    objects. *)
Theorem normalize_returns_iff (days_list : list json) (days_required : Z)
  (places : list place_row) :
  (exists out, normalize_daywise_schema days_list days_required places = Ok out)
  <-> forallb accepts days_list = true.
Proof.
  rewrite <- (normalize_entries_accepts places days_list 0 []).
  unfold normalize_daywise_schema. split.
  - intros (out & H). bind_inv H rs Hrs. eauto.
  - intros (rs & ->). cbn [bind]. eauto.
Qed.

(** X14.  A block that the entry brings is never overwritten: whatever
    it binds, also keys the template does not know, is in the record. *)
Theorem normalize_keeps_block_values (days_list : list json)
  (days_required : Z) (places : list place_row) (out : list json)
  (i : nat) (items b : Dict.t json) (key k : string) (v : json) :
  normalize_daywise_schema days_list days_required places = Ok out ->
  nth_error days_list i = Some (JDict items) ->
  Z.of_nat i < days_required ->
  has_blocks items = true ->
  In key ["morning"; "afternoon"; "evening"] ->
  Dict.lookup key items = Some (JDict b) ->
  Dict.lookup k b = Some v ->
  field k (field key (nth i out JNull)) = v.
Proof.
  intros H Hd Hi Hhas Hkey Hb Hv.
  assert (HN : 0 <= days_required) by lia.
  pose proof (normalize_nth_entry _ _ _ _ _ _ HN H Hd Hi) as Hr.
  exact (entry_keeps_blocks _ _ _ _ _ _ _ _ Hr Hhas Hkey Hb Hv).
Qed.

Lemma normalize_keeps_block_values_witness :
  exists out,
    normalize_daywise_schema [guided_entry] 1 [] = Ok out /\
    field "guide" (field "morning" (nth 0 out JNull)) = JStr "Ana".
Proof.
  eexists. split; [reflexivity|].
  eapply (normalize_keeps_block_values [guided_entry] 1 [] _ 0 _ _ "morning");
    [reflexivity | reflexivity | lia | reflexivity | now left
    | reflexivity | reflexivity].
Defined.

(** X15.  Of an entry that lacks one of the three blocks only eleven
    keys are read; what it has under [morning], [afternoon] or
    [evening] is dropped. *)
Theorem normalize_legacy_keys (before after : list json)
  (items items' : Dict.t json) (days_required : Z) (places : list place_row) :
  has_blocks items = false ->
  has_blocks items' = false ->
  (forall k, In k legacy_keys -> Dict.lookup k items = Dict.lookup k items') ->
  normalize_daywise_schema (before ++ JDict items :: after) days_required places
  = normalize_daywise_schema (before ++ JDict items' :: after) days_required places.
Proof.
  intros H1 H2 Hk. unfold normalize_daywise_schema.
  rewrite (normalize_entries_replace places (JDict items) (JDict items') after
             before 0 []); [reflexivity|].
  intros j. now apply normalize_entry_legacy.
Qed.

Lemma normalize_legacy_keys_witness :
  normalize_daywise_schema [JDict two_blocks] 1 []
  = normalize_daywise_schema [JDict []] 1 [].
Proof.
  apply (normalize_legacy_keys [] [] two_blocks [] 1 []);
    [reflexivity | reflexivity |].
  intros k Hk. cbn in Hk.
  repeat (destruct Hk as [<-|Hk]; [reflexivity|]). contradiction.
Defined.

(** X16.  Days in the structure that the prompt prescribes pass
    through: asked for as many days as there are, the call returns
    them as they are, each with a [day_image] added behind. *)
Theorem normalize_prompt_days (days_list : list json)
  (places : list place_row) :
  Forall conformant days_list ->
  exists out,
    normalize_daywise_schema days_list (Z.of_nat (length days_list)) places
    = Ok out /\
    map without_image out = days_list.
Proof.
  intros H. destruct (conformant_entries places days_list 0 [] H)
    as (rs & Hrs & E).
  cbn [app] in Hrs. exists rs. split; [|exact E].
  assert (Hlen : length rs = length days_list)
    by (rewrite <- E; symmetry; apply length_map).
  unfold normalize_daywise_schema. rewrite Hrs. cbn [bind]. f_equal.
  rewrite fill_missing_eq by (unfold missing; lia).
  replace (missing (Z.of_nat (length days_list)) rs) with O
    by (unfold missing; lia).
  cbn [seq map]. rewrite app_nil_r. unfold slice_to.
  replace (Z.of_nat (length days_list) <? 0) with false
    by (symmetry; apply Z.ltb_ge; lia).
  rewrite Nat2Z.id, <- Hlen. apply firstn_all.
Qed.

Lemma normalize_prompt_days_witness :
  exists out,
    normalize_daywise_schema [prompt_day] 1 lodge_catalog = Ok out /\
    map without_image out = [prompt_day].
Proof.
  apply (normalize_prompt_days [prompt_day] lodge_catalog).
  constructor; [|constructor].
  unfold conformant, prompt_day. eexists _, _, _, _, _, _, _, _.
  split; [reflexivity|]. repeat split. left. reflexivity.
Defined.

End NormalizeExtras.

(* ================================================================= *)
(** ** [ensure_local_images], and the catalog it hands to
       [normalize_daywise_schema] *)

Module ImagesFacts.
Import Py Normalize NormalizeFacts NormalizeMoreFacts ExtractMoreFacts Images.
Local Open Scope list_scope.

Lemma replace_char_free x y s :
  Ascii.eqb y x = false -> Str.find_char x (replace_char x y s) = None.
Proof.
  intros H. induction s as [|c s IH]; cbn [replace_char Str.find_char];
    [reflexivity|].
  destruct (Ascii.eqb c x) eqn:E; [rewrite H | rewrite E]; now rewrite IH.
Qed.

Lemma file_url_wkhtml path : wkhtml_url (file_url path).
Proof.
  split; [reflexivity|]. unfold file_url.
  rewrite find_char_app_none by reflexivity.
  now rewrite replace_char_free.
Qed.

Section World.
Variable E : env.

Lemma attach_attached p w q w1 :
  attach E p w = (Ok q, w1) -> attached E p q.
Proof.
  unfold attach, attached.
  destruct (image_url p) as [url|] eqn:Hu;
    [|intros H; injection H as <- _; cbn; auto].
  destruct (Str.nonempty url) eqn:Hn;
    [|intros H; injection H as <- _; cbn; auto].
  destruct (local_path E p url) as [path|e] eqn:Hp; [|discriminate].
  destruct (path_exists E w path);
    [intros H; injection H as <- _; cbn; eauto 8|].
  destruct (requests_get E w url) as [w' [resp|]];
    [|intros H; injection H as <- _; cbn; auto].
  destruct (status_code resp =? 200);
    [|intros H; injection H as <- _; cbn; eauto 8].
  destruct (write_file E w' path (content resp)) as [w2 []];
    intros H; injection H as <- _; cbn; eauto 8.
Qed.

Lemma images_attached : forall places w out w',
  ensure_local_images E places w = (Ok out, w') ->
  Forall2 (attached E) places out.
Proof.
  induction places as [|p rest IH]; intros w out w' H;
    cbn [ensure_local_images] in H.
  - injection H as <- _. constructor.
  - destruct (attach E p w) as [[q|e] w1] eqn:Ha; [|discriminate].
    destruct (ensure_local_images E rest w1) as [[qs|e] w2] eqn:Hr;
      [|discriminate].
    injection H as <- _. constructor.
    + exact (attach_attached _ _ _ _ Ha).
    + exact (IH _ _ _ Hr).
Qed.

Lemma attached_url p q s :
  attached E p q -> local_image q = Some s -> wkhtml_url s.
Proof.
  intros (_ & [H|(url & path & _ & _ & _ & H)]) Hs; rewrite H in Hs;
    [discriminate|].
  injection Hs as <-. apply file_url_wkhtml.
Qed.

Lemma images_urls places w out w' :
  ensure_local_images E places w = (Ok out, w') ->
  Forall (fun q => forall s, local_image q = Some s -> wkhtml_url s) out.
Proof.
  intros H. apply images_attached in H.
  induction H as [|p q ps qs Hpq _ IH]; constructor; [|exact IH].
  intros s. exact (attached_url p q s Hpq).
Qed.

Lemma attach_cached p w :
  cached E w p -> attach E p w = (Ok (cached_row E p), w).
Proof.
  intros H. unfold attach, cached_row, cached in *.
  destruct (image_url p) as [url|]; [|reflexivity].
  destruct (Str.nonempty url) eqn:Hn; [|reflexivity].
  destruct (H url eq_refl Hn) as (path & -> & ->). reflexivity.
Qed.

Lemma images_app : forall before after w,
  ensure_local_images E (before ++ after) w
  = match ensure_local_images E before w with
    | (Ok qs, w1) =>
        match ensure_local_images E after w1 with
        | (Ok rs, w2) => (Ok (qs ++ rs), w2)
        | (Raise e, w2) => (Raise e, w2)
        end
    | (Raise e, w1) => (Raise e, w1)
    end.
Proof.
  induction before as [|p before IH]; intros after w;
    cbn [app ensure_local_images].
  - now destruct (ensure_local_images E after w) as [[rs|e] w2].
  - destruct (attach E p w) as [[q|e] w1]; [|reflexivity]. rewrite IH.
    destruct (ensure_local_images E before w1) as [[qs|e] w2]; [|reflexivity].
    now destruct (ensure_local_images E after w2) as [[rs|e] w3].
Qed.

Lemma attach_bad_status p w url path resp w1 :
  image_url p = Some url -> Str.nonempty url = true ->
  local_path E p url = Ok path ->
  path_exists E w path = false ->
  requests_get E w url = (w1, Some resp) ->
  status_code resp <> 200 ->
  attach E p w = (Ok (with_image p (Some (file_url path))), w1).
Proof.
  intros Hu Hn Hp He Hg Hs. unfold attach. rewrite Hu, Hn, Hp, He, Hg.
  now replace (status_code resp =? 200) with false
    by (symmetry; apply Z.eqb_neq; exact Hs).
Qed.

Lemma attach_bad_url p w url e :
  image_url p = Some url -> Str.nonempty url = true ->
  url_basename E url = Raise e ->
  attach E p w = (Raise e, w).
Proof.
  intros Hu Hn Hb. unfold attach, local_path. now rewrite Hu, Hn, Hb.
Qed.
End World.

End ImagesFacts.

Module ImagesExtras.
Import Py Normalize NormalizeFacts NormalizeMoreFacts Images ImagesFacts.
Local Open Scope list_scope.

(** X17.  What [ensure_local_images] returns has one row for each row
    it was given, in the same order and with the same place; a row
    without a URL gets no [local_image], and a [local_image] that is set
    is the file URL of the row's own path, with the three slashes in
    front and no backslash in it. *)
Theorem ensure_local_images_rows (E : env) (places : list trip_row)
  (w w' : world E) (out : list place_row) :
  ensure_local_images E places w = (Ok out, w') ->
  Forall2 (attached E) places out /\
  Forall (fun q => forall s, local_image q = Some s -> wkhtml_url s) out.
Proof.
  intros H. split; [exact (images_attached E _ _ _ _ H)|].
  exact (images_urls E _ _ _ _ H).
Qed.

Lemma ensure_local_images_rows_witness :
  Forall2 (attached sample_env) sample_rows (map (cached_row sample_env) sample_rows)
  /\ Forall (fun q => forall s, local_image q = Some s -> wkhtml_url s)
            (map (cached_row sample_env) sample_rows).
Proof.
  apply (ensure_local_images_rows sample_env sample_rows [canyon_file]
           [canyon_file]).
  reflexivity.
Defined.

(** X18.  When [os.makedirs] returns and, in the world it leaves, every
    row has no URL or has its file already, the call returns and
    nothing is requested and no file is written: the world is as
    [os.makedirs] left it, and each row with a URL gets the file URL of
    its path. *)
Theorem ensure_local_images_cached (E : env) (places : list trip_row)
  (w w0 : world E) :
  makedirs E w = (w0, true) ->
  Forall (cached E w0) places ->
  ensure_local_images_call E places w
  = (Returned (map (cached_row E) places), w0).
Proof.
  intros Hdir H. unfold ensure_local_images_call. rewrite Hdir.
  assert (Hloop : ensure_local_images E places w0
                  = (Ok (map (cached_row E) places), w0)).
  { clear Hdir. revert H. generalize w0 as v.
    induction places as [|p rest IH]; intros v H;
      cbn [ensure_local_images map]; [reflexivity|].
    inversion H as [|? ? Hp Hrest]; subst.
    now rewrite (attach_cached E p v Hp), (IH v Hrest). }
  now rewrite Hloop.
Qed.

Lemma ensure_local_images_cached_witness :
  ensure_local_images_call sample_env [dam_row; canyon_row] [canyon_file]
  = (Returned (map (cached_row sample_env) [dam_row; canyon_row]),
     [sample_dir; canyon_file]).
Proof.
  apply (ensure_local_images_cached sample_env [dam_row; canyon_row]
           [canyon_file] [sample_dir; canyon_file]); [reflexivity|].
  repeat constructor; intros url Hu Hn.
  - discriminate Hu.
  - injection Hu as <-. exists canyon_file. split; reflexivity.
Defined.

(** X19.  A response with a status other than 200 does not count as a
    failure: nothing is written, and the row still gets the file URL of
    the path where the file would be. *)
Theorem ensure_local_images_bad_status (E : env)
  (before after : list trip_row) (p : trip_row) (w w1 w2 : world E)
  (rows : list place_row) (url path : string) (resp : response) :
  ensure_local_images E before w = (Ok rows, w1) ->
  image_url p = Some url ->
  Str.nonempty url = true ->
  local_path E p url = Ok path ->
  path_exists E w1 path = false ->
  requests_get E w1 url = (w2, Some resp) ->
  status_code resp <> 200 ->
  ensure_local_images E (before ++ p :: after) w
  = match ensure_local_images E after w2 with
    | (Ok rest, w3) =>
        (Ok (rows ++ with_image p (Some (file_url path)) :: rest), w3)
    | (Raise e, w3) => (Raise e, w3)
    end.
Proof.
  intros Hb Hu Hn Hp He Hg Hs. rewrite images_app, Hb.
  cbn [ensure_local_images].
  rewrite (attach_bad_status E p w1 url path resp w2 Hu Hn Hp He Hg Hs).
  now destruct (ensure_local_images E after w2) as [[rest|e] w3].
Qed.

Lemma ensure_local_images_bad_status_witness :
  ensure_local_images sample_env sample_rows []
  = (Ok [ {| place := Some "Grand Canyon";
             local_image := Some "file:///C:/app/static/day_images/canyon.jpg" |};
          {| place := Some "Hoover Dam"; local_image := None |} ],
     []).
Proof.
  apply (ensure_local_images_bad_status sample_env [] [dam_row] canyon_row
           [] [] [] [] "http://img.example/canyon.jpg" canyon_file
           {| status_code := 404; content := "" |});
    try reflexivity.
  discriminate.
Defined.

(** X20.  A URL that [urlparse] refuses is not caught: the call raises
    at that row, with the world as the rows before have left it, and
    the rows behind are not looked at. *)
Theorem ensure_local_images_bad_url (E : env)
  (before after : list trip_row) (p : trip_row) (w w1 : world E)
  (rows : list place_row) (url : string) (e : exn) :
  ensure_local_images E before w = (Ok rows, w1) ->
  image_url p = Some url ->
  Str.nonempty url = true ->
  url_basename E url = Raise e ->
  ensure_local_images E (before ++ p :: after) w = (Raise e, w1).
Proof.
  intros Hb Hu Hn He. rewrite images_app, Hb. cbn [ensure_local_images].
  now rewrite (attach_bad_url E p w1 url e Hu Hn He).
Qed.

Lemma ensure_local_images_bad_url_witness :
  ensure_local_images sample_env [dam_row; bracket_row; canyon_row] []
  = (Raise (ValueError "Invalid IPv6 URL"), []).
Proof.
  apply (ensure_local_images_bad_url sample_env [dam_row] [canyon_row]
           bracket_row [] [] [with_image dam_row None] "http://[img/zion.jpg");
    reflexivity.
Defined.

(** X21.  With the catalog that [ensure_local_images] returns, the
    [day_image] of every record is null or a file URL with forward
    slashes, as [wkhtmltopdf] needs it. *)
Theorem normalize_day_image_url (E : env) (rows : list trip_row)
  (w w' : world E) (places : list place_row) (days_list : list json)
  (days_required : Z) (out : list json) (r : json) :
  ensure_local_images E rows w = (Ok places, w') ->
  normalize_daywise_schema days_list days_required places = Ok out ->
  In r out ->
  field "day_image" r = JNull \/
  exists s, field "day_image" r = JStr s /\ wkhtml_url s.
Proof.
  intros Hplaces H. revert r. apply Forall_forall. revert H.
  apply normalize_all.
  - intros j d r Hr. destruct (entry_image _ _ _ _ Hr) as (pv & _ & ->).
    destruct (select_image_in (normalized_name pv) places)
      as [->|(p & Hp & ->)]; [now left|].
    destruct (local_image p) as [s|] eqn:Hs; [|now left].
    right. exists s. split; [reflexivity|].
    pose proof (images_urls E _ _ _ _ Hplaces) as Hall.
    rewrite Forall_forall in Hall. exact (Hall p Hp s Hs).
  - intros idx. now left.
Qed.

Lemma normalize_day_image_url_witness :
  exists out r,
    normalize_daywise_schema [canyon_entry] 1
      (map (cached_row sample_env) sample_rows) = Ok out /\
    In r out /\
    (field "day_image" r = JNull \/
     exists s, field "day_image" r = JStr s /\ wkhtml_url s).
Proof.
  eexists _, _. split; [reflexivity|]. split; [left; reflexivity|].
  apply (normalize_day_image_url sample_env sample_rows [canyon_file]
           [canyon_file] _ [canyon_entry] 1 _ _ eq_refl eq_refl).
  left. reflexivity.
Defined.

End ImagesExtras.

(* ================================================================= *)
(** ** The statements sent to the database *)

Module DbFacts.
Import Db StrFacts.
Local Open Scope list_scope.

Lemma count_marks_free a b :
  Str.find_char "%" a = None ->
  count_marks (String.append a b) = count_marks b.
Proof.
  induction a as [|c a IH]; intros H; [reflexivity|].
  cbn [Str.find_char] in H. cbn [String.append count_marks Str.prefix].
  destruct (Ascii.eqb c "%") eqn:E; [discriminate|].
  rewrite Ascii.eqb_sym, E. cbn [andb Nat.add]. apply IH.
  now destruct (Str.find_char "%" a).
Qed.

Lemma count_marks_mark b :
  count_marks (String.append "%s" b) = S (count_marks b).
Proof. reflexivity. Qed.

Lemma marks_step n :
  marks (S (S n)) = String.append "%s" (String.append "," (marks (S n))).
Proof. reflexivity. Qed.

Lemma count_marks_marks b : forall n,
  count_marks (String.append (marks n) b) = (n + count_marks b)%nat.
Proof.
  induction n as [|n IH]; [reflexivity|].
  destruct n as [|n]; [apply count_marks_mark|].
  rewrite marks_step, !append_assoc3. rewrite count_marks_mark.
  rewrite (count_marks_free "," _ eq_refl). now rewrite IH.
Qed.

Lemma regions_query_marks states :
  count_marks (regions_query states) = length states.
Proof.
  unfold regions_query.
  rewrite count_marks_free by reflexivity.
  rewrite count_marks_marks. cbn. lia.
Qed.

Lemma filtered_query_marks states regions :
  count_marks (filtered_query states regions)
  = (length states + length regions + 1)%nat.
Proof.
  unfold filtered_query.
  rewrite !(count_marks_free nl) by reflexivity.
  do 3 (rewrite count_marks_free by reflexivity;
        rewrite ?(count_marks_free nl) by reflexivity).
  rewrite count_marks_marks.
  rewrite count_marks_free by reflexivity.
  rewrite count_marks_marks.
  cbn. lia.
Qed.

End DbFacts.

Module DbExtras.
Import Db DbFacts.
Local Open Scope list_scope.

(** X22.  [get_regions] sends only statements that have as many
    markers as parameters: what it returns depends on the answers of
    the database to such statements alone. *)
Theorem get_regions_well_formed
  (execute execute' : string -> list sql_value -> list (sql_value * list sql_value))
  (states : list string) :
  (forall query params, well_formed_call query params ->
                        execute query params = execute' query params) ->
  get_regions execute states = get_regions execute' states.
Proof.
  intros H. destruct states as [|s states]; [reflexivity|].
  cbn [get_regions]. f_equal. apply H. unfold well_formed_call.
  now rewrite regions_query_marks, length_map.
Qed.

Lemma get_regions_well_formed_witness :
  get_regions echo ["Utah"; "Nevada"] = get_regions strict_echo ["Utah"; "Nevada"].
Proof.
  apply (get_regions_well_formed echo strict_echo).
  intros query params H. unfold strict_echo, well_formed_call in *.
  now rewrite H, Nat.eqb_refl.
Defined.

(** X23.  [get_filtered_data] sends only a statement that has as many
    markers as parameters, one for each state, each region and the
    limit: what it returns depends on the answers of the database to
    such statements alone. *)
Theorem get_filtered_data_well_formed {row : Type}
  (execute execute' : string -> list sql_value -> list row)
  (states regions : list string) (limit : Z) :
  (forall query params, well_formed_call query params ->
                        execute query params = execute' query params) ->
  get_filtered_data execute states regions limit
  = get_filtered_data execute' states regions limit.
Proof.
  intros H. destruct states as [|s states]; [reflexivity|].
  destruct regions as [|r regions]; [reflexivity|].
  cbn [get_filtered_data]. apply H. unfold well_formed_call, filtered_params.
  rewrite filtered_query_marks, !length_app, !length_map. cbn [length]. lia.
Qed.

Lemma get_filtered_data_well_formed_witness :
  get_filtered_data echo ["Utah"; "Nevada"] ["Moab"] 200
  = get_filtered_data strict_echo ["Utah"; "Nevada"] ["Moab"] 200.
Proof.
  apply (get_filtered_data_well_formed echo strict_echo).
  intros query params H. unfold strict_echo, well_formed_call in *.
  now rewrite H, Nat.eqb_refl.
Defined.

End DbExtras.
